(** * Unthinkable KBSE backend: a shallow embedding and its verified properties

    The first part follows the layout of [backend/]:
    - [database_memory]: the in-memory store ([InMemoryDatabase]);
    - [database]: backend selection with fallback ([get_db_connection],
      [init_database]);
    - [ingest]: the chunker and the store step ([_chunk_text], [_store_in_db],
      [delete_document], [ingest_upload]);
    - [query]: the retrieval pipeline ([query_ask]);
    - [text_documents]: the listing endpoint ([list_documents]).
    The second part holds the vocabulary of the properties, the third their
    proofs.

    Python values are modelled as follows.  [str] is [string]; its characters
    are the code points 0..255.  [int] is [Z].  [float] is the kernel's binary64
    [float].  A [dict] is an association list in insertion order (Python
    dictionaries iterate in insertion order, and the search breaks ties by that
    order).  A raised exception is the [Raise] case of [result].  The durable
    engine (PostgreSQL behind asyncpg), the AI services, [uuid.uuid4] and the
    clock are outside the repository: they are parameters. *)

From Stdlib Require Import ZArith List String Ascii Bool Lia Floats.
From Stdlib Require Import Permutation Sorted.
Import ListNotations.

Local Open Scope string_scope.
Local Open Scope Z_scope.

(** ** Exceptions and fallible computations *)

Inductive exn : Type :=
| ValueError (msg : string)
| IndexError
| KeyError (key : string)
| TypeError
| ZeroDivisionError
| HTTPException (status_code : Z) (detail : string)
| Exception (msg : string).

Inductive result (A : Type) : Type :=
| Ok (a : A)
| Raise (e : exn).

Arguments Ok {A} a.
Arguments Raise {A} e.

Definition bind {A B : Type} (m : result A) (k : A -> result B) : result B :=
  match m with
  | Ok a => k a
  | Raise e => Raise e
  end.

Notation "x <- m ;; k" := (bind m (fun x => k))
  (at level 61, m at next level, right associativity).

(** [mapM f l]: a comprehension or [for] loop whose body may raise; the first
    exception stops it. *)
Fixpoint mapM {A B : Type} (f : A -> result B) (l : list A) : result (list B) :=
  match l with
  | [] => Ok []
  | a :: l' => b <- f a ;; bs <- mapM f l' ;; Ok (b :: bs)
  end.

(** ** Python strings *)

Module Py.

Definition len (s : string) : Z := Z.of_nat (String.length s).

(** [needle in hay]. *)
Fixpoint contains (needle hay : string) : bool :=
  match hay with
  | EmptyString => String.prefix needle hay
  | String _ hay' => String.prefix needle hay || contains needle hay'
  end.

(** [s[i]]: negative indices count from the end; out of range raises. *)
Definition index (s : string) (i : Z) : result ascii :=
  let j := if i <? 0 then i + len s else i in
  if (j <? 0) || (len s <=? j) then Raise IndexError
  else match String.get (Z.to_nat j) s with
       | Some c => Ok c
       | None => Raise IndexError
       end.

(** A slice bound: negative bounds count from the end, then the bound is
    clamped to [0, len]. *)
Definition clamp (n i : Z) : Z :=
  let j := if i <? 0 then i + n else i in
  Z.max 0 (Z.min n j).

(** [s[a:b]]. *)
Definition slice (s : string) (a b : Z) : string :=
  let lo := clamp (len s) a in
  let hi := clamp (len s) b in
  String.substring (Z.to_nat lo) (Z.to_nat (hi - lo)) s.

(** [l[:n]] on a list. *)
Definition take {A : Type} (n : Z) (l : list A) : list A :=
  firstn (Z.to_nat (clamp (Z.of_nat (List.length l)) n)) l.

(** [c.isspace()] on the code points 0..255. *)
Definition isspace (c : ascii) : bool :=
  let n := N.to_nat (N_of_ascii c) in
  ((9 <=? n) && (n <=? 13) || (28 <=? n) && (n <=? 32)
   || (n =? 133) || (n =? 160))%nat.

Fixpoint lstrip_l (l : list ascii) : list ascii :=
  match l with
  | c :: l' => if isspace c then lstrip_l l' else l
  | [] => []
  end.

Definition strip_l (l : list ascii) : list ascii :=
  rev (lstrip_l (rev (lstrip_l l))).

(** [s.strip()]. *)
Definition strip (s : string) : string :=
  string_of_list_ascii (strip_l (list_ascii_of_string s)).

(** Truth value of a string: non-empty. *)
Definition truthy (s : string) : bool :=
  match s with EmptyString => false | _ => true end.

(** [c in chars]. *)
Fixpoint char_in (c : ascii) (chars : string) : bool :=
  match chars with
  | EmptyString => false
  | String d chars' => Ascii.eqb c d || char_in c chars'
  end.

End Py.

(** ** Dictionaries with string keys, in insertion order *)

Module Dict.
Section Dict.
Context {V : Type}.

Definition t : Type := list (string * V).

Definition empty : t := [].

Fixpoint get (k : string) (d : t) : option V :=
  match d with
  | [] => None
  | (k', v) :: d' => if String.eqb k' k then Some v else get k d'
  end.

Definition mem (k : string) (d : t) : bool :=
  match get k d with Some _ => true | None => false end.

(** [d[k] = v]: an existing key keeps its position, a new one goes last. *)
Fixpoint set (k : string) (v : V) (d : t) : t :=
  match d with
  | [] => [(k, v)]
  | (k', v') :: d' =>
      if String.eqb k' k then (k, v) :: d' else (k', v') :: set k v d'
  end.

(** [del d[k]] (the callers test membership first). *)
Definition del (k : string) (d : t) : t :=
  filter (fun kv => negb (String.eqb (fst kv) k)) d.

Definition keys (d : t) : list string := map fst d.

Definition values (d : t) : list V := map snd d.
End Dict.
Arguments t V : clear implicits.
End Dict.

(** ** Values crossing the database interface *)

(** The positional parameters of [execute] and [fetch], and the columns of a
    returned row.  The model is typed where Python is not: a parameter of
    another shape than the callers pass raises [TypeError] at the point where
    it is read. *)
Inductive value : Type :=
| VNone
| VStr (s : string)
| VInt (n : Z)
| VFloat (x : float)
| VList (v : list float).

(** A row returned by [fetch]: a tuple, or a mapping from column names (the
    in-memory backend's result dictionaries and the durable driver's records). *)
Inductive row : Type :=
| RowTuple (items : list value)
| RowMap (cols : list (string * value)).

Definition param (params : list value) (i : nat) : result value :=
  match nth_error params i with
  | Some v => Ok v
  | None => Raise IndexError
  end.

Definition as_str (v : value) : result string :=
  match v with VStr s => Ok s | _ => Raise TypeError end.

Definition as_opt_str (v : value) : result (option string) :=
  match v with
  | VStr s => Ok (Some s)
  | VNone => Ok None
  | _ => Raise TypeError
  end.

Definition as_int (v : value) : result Z :=
  match v with VInt n => Ok n | _ => Raise TypeError end.

Definition as_list (v : value) : result (list float) :=
  match v with VList l => Ok l | _ => Raise TypeError end.

Definition of_opt_str (o : option string) : value :=
  match o with Some s => VStr s | None => VNone end.

Fixpoint assoc (k : string) (cols : list (string * value)) : option value :=
  match cols with
  | [] => None
  | (k', v) :: cols' => if String.eqb k' k then Some v else assoc k cols'
  end.

(** [row[k]]. *)
Definition row_get (r : row) (k : string) : result value :=
  match r with
  | RowMap cols =>
      match assoc k cols with
      | Some v => Ok v
      | None => Raise (KeyError k)
      end
  | RowTuple _ => Raise TypeError
  end.

(** [row.get(k, default)]. *)
Definition row_get_default (r : row) (k : string) (default : value)
  : result value :=
  match r with
  | RowMap cols =>
      match assoc k cols with
      | Some v => Ok v
      | None => Ok default
      end
  | RowTuple _ => Raise TypeError
  end.

(** ** database_memory.py *)

Module database_memory.

Record document : Type := {
  doc_id : string;
  filename : string;
  mime_type : option string;
  total_chunks : Z;
  uploaded_at : Z
}.

Record chunk : Type := {
  chunk_id : string;
  document_id : string;
  chunk_index : Z;
  content : string;
  created_at : Z
}.

Record InMemoryDatabase : Type := {
  documents : Dict.t document;
  chunks : Dict.t chunk;
  embeddings : Dict.t (list float)
}.

(** [InMemoryDatabase()] *)
Definition new : InMemoryDatabase :=
  {| documents := Dict.empty; chunks := Dict.empty; embeddings := Dict.empty |}.

(** One entry of [results_with_distance]. *)
Record hit : Type := {
  hit_content : string;
  hit_chunk_index : Z;
  hit_document_id : string;
  distance : float
}.

Definition row_of_hit (h : hit) : row :=
  RowMap [("content", VStr (hit_content h));
          ("chunk_index", VInt (hit_chunk_index h));
          ("document_id", VStr (hit_document_id h));
          ("distance", VFloat (distance h))].

Definition nonempty {A : Type} (l : list A) : bool :=
  match l with [] => false | _ => true end.

(** [sum(...)] over floats: binary64 additions from left to right, starting
    from 0 (CPython from 3.12 on also compensates the rounding errors; the
    two agree wherever every partial sum is exact). *)
Definition sum (xs : list float) : float :=
  fold_left PrimFloat.add xs 0%float.

Definition dot (vec1 vec2 : list float) : float :=
  sum (map (fun ab => (fst ab * snd ab)%float) (combine vec1 vec2)).

(** [sum(a * a for a in vec) ** 0.5], with the square root for the power
    one half. *)
Definition magnitude (vec : list float) : float :=
  PrimFloat.sqrt (sum (map (fun a => (a * a)%float) vec)).

(** [x / y] on floats raises on a zero divisor. *)
Definition truediv (x y : float) : result float :=
  if PrimFloat.eqb y 0%float then Raise ZeroDivisionError
  else Ok (x / y)%float.

Definition _cosine_distance (vec1 vec2 : list float) : result float :=
  if negb (nonempty vec1) || negb (nonempty vec2)
     || negb (Nat.eqb (List.length vec1) (List.length vec2))
  then Ok 1%float
  else
    let dot_product := dot vec1 vec2 in
    let magnitude1 := magnitude vec1 in
    let magnitude2 := magnitude vec2 in
    if PrimFloat.eqb magnitude1 0%float || PrimFloat.eqb magnitude2 0%float
    then Ok 1%float
    else
      cosine_similarity <- truediv dot_product (magnitude1 * magnitude2)%float ;;
      Ok (1 - cosine_similarity)%float.

(** [list.sort(key=lambda x: x['distance'])]: a stable sort that compares keys
    with [<]; insertion from the right is one, and all stable sorts agree when
    no key is a NaN. *)
Fixpoint insert_hit (x : hit) (l : list hit) : list hit :=
  match l with
  | [] => [x]
  | y :: l' =>
      if PrimFloat.ltb (distance y) (distance x)
      then y :: insert_hit x l'
      else x :: l
  end.

Definition sort_by_distance (l : list hit) : list hit :=
  fold_right insert_hit [] l.

(** The body of the similarity loop for one stored chunk. *)
Definition score (self : InMemoryDatabase) (query_embedding : list float)
    (entry : string * chunk) : result hit :=
  let chunk_data := snd entry in
  let chunk_embedding :=
    match Dict.get (fst entry) (embeddings self) with
    | Some e => e
    | None => []
    end in
  distance <-
    (if nonempty chunk_embedding && nonempty query_embedding
     then _cosine_distance query_embedding chunk_embedding
     else Ok 1%float) ;;
  Ok {| hit_content := content chunk_data;
        hit_chunk_index := chunk_index chunk_data;
        hit_document_id := document_id chunk_data;
        distance := distance |}.

(** The similarity branch of [fetch]. *)
Definition search (self : InMemoryDatabase) (query_embedding : list float)
    (limit : Z) : result (list hit) :=
  results_with_distance <- mapM (score self query_embedding) (chunks self) ;;
  Ok (Py.take limit (sort_by_distance results_with_distance)).

(** The chunk deletion loop: [del self.chunks[chunk_id]], and the embedding
    when there is one. *)
Definition remove_chunk (self : InMemoryDatabase) (chunk_id : string)
  : InMemoryDatabase :=
  {| documents := documents self;
     chunks := Dict.del chunk_id (chunks self);
     embeddings := if Dict.mem chunk_id (embeddings self)
                   then Dict.del chunk_id (embeddings self)
                   else embeddings self |}.

Definition execute (self : InMemoryDatabase) (now : Z) (query : string)
    (params : list value) : result InMemoryDatabase :=
  if Py.contains "INSERT INTO documents" query then
    doc_id <- bind (param params 0) as_str ;;
    filename <- bind (param params 1) as_str ;;
    mime_type <- bind (param params 2) as_opt_str ;;
    total_chunks <- bind (param params 3) as_int ;;
    Ok {| documents :=
            Dict.set doc_id
              {| doc_id := doc_id; filename := filename;
                 mime_type := mime_type; total_chunks := total_chunks;
                 uploaded_at := now |}
              (documents self);
          chunks := chunks self;
          embeddings := embeddings self |}
  else if Py.contains "INSERT INTO document_chunks" query then
    chunk_id <- bind (param params 0) as_str ;;
    document_id <- bind (param params 1) as_str ;;
    chunk_index <- bind (param params 2) as_int ;;
    content <- bind (param params 3) as_str ;;
    let chunks' :=
      Dict.set chunk_id
        {| chunk_id := chunk_id; document_id := document_id;
           chunk_index := chunk_index; content := content;
           created_at := now |}
        (chunks self) in
    if (4 <? List.length params)%nat then
      embedding <- bind (param params 4) as_list ;;
      Ok {| documents := documents self;
            chunks := chunks';
            embeddings := Dict.set chunk_id embedding (embeddings self) |}
    else
      Ok {| documents := documents self;
            chunks := chunks';
            embeddings := embeddings self |}
  else if Py.contains "DELETE FROM document_chunks WHERE document_id" query then
    doc_id <- bind (param params 0) as_str ;;
    let chunks_to_remove :=
      map fst (filter (fun kv => String.eqb (document_id (snd kv)) doc_id)
                      (chunks self)) in
    Ok (fold_left remove_chunk chunks_to_remove self)
  else if Py.contains "DELETE FROM documents WHERE id" query then
    doc_id <- bind (param params 0) as_str ;;
    if Dict.mem doc_id (documents self)
    then Ok {| documents := Dict.del doc_id (documents self);
               chunks := chunks self;
               embeddings := embeddings self |}
    else Ok self
  else Ok self.

Definition fetch (self : InMemoryDatabase) (query : string)
    (params : list value) : result (list row) :=
  if Py.contains
       "SELECT c.id, c.document_id, c.chunk_index, c.content, c.embedding, d.filename"
       query
  then
    limit <- match params with [] => Ok 1000 | v :: _ => as_int v end ;;
    Ok (map (fun entry : string * chunk =>
               let chunk_data := snd entry in
               RowTuple
                 [VStr (fst entry);
                  VStr (document_id chunk_data);
                  VInt (chunk_index chunk_data);
                  VStr (content chunk_data);
                  VList (match Dict.get (fst entry) (embeddings self) with
                         | Some e => e
                         | None => []
                         end);
                  VStr (match Dict.get (document_id chunk_data)
                                (documents self) with
                        | Some doc_data => filename doc_data
                        | None => "Unknown"
                        end)])
            (firstn (Z.to_nat limit) (chunks self)))
  else if Py.contains "SELECT dc.content, dc.chunk_index, dc.document_id" query
          && Py.contains "distance" query
  then
    query_embedding <- match params with [] => Ok [] | v :: _ => as_list v end ;;
    limit <- match params with _ :: v :: _ => as_int v | _ => Ok 5 end ;;
    hits <- search self query_embedding limit ;;
    Ok (map row_of_hit hits)
  else Ok [].

End database_memory.

(** ** The process and its surroundings *)

(** What the process finds around it: whether [database_memory] could be
    imported, and the durable engine (PostgreSQL behind asyncpg), which is not
    part of the repository and is kept abstract: a state and the effect of a
    statement on it. *)
Record Env : Type := {
  MEMORY_DB_AVAILABLE : bool;
  pg_db : Type;
  pg_execute : pg_db -> string -> list value -> result pg_db;
  pg_fetch : pg_db -> string -> list value -> result (list row)
}.

(** How the durable server answers [asyncpg.connect] when it is called. *)
Inductive pg_reply : Type :=
| Connected
| Refused (e : exn).

(** Calls that leave the process. *)
Inductive event : Type :=
| EvPgConnect
| EvGeminiEmbed (text : string)
| EvGroqChat (prompt : string) (max_tokens : Z)
| EvGeminiGenerate (prompt : string) (max_tokens : Z).

(** The module-level state: the flag of [database], the singleton of
    [database_memory], the durable database, and the calls made so far (most
    recent first). *)
Record World (env : Env) : Type := {
  _using_memory_db : bool;
  _memory_db : database_memory.InMemoryDatabase;
  durable : pg_db env;
  trace : list event
}.

Arguments _using_memory_db {env} w.
Arguments _memory_db {env} w.
Arguments durable {env} w.
Arguments trace {env} w.

Section WorldUpdates.
Context {env : Env}.

Definition emit (ev : event) (w : World env) : World env :=
  {| _using_memory_db := _using_memory_db w;
     _memory_db := _memory_db w;
     durable := durable w;
     trace := ev :: trace w |}.

Definition set_using_memory_db (b : bool) (w : World env) : World env :=
  {| _using_memory_db := b;
     _memory_db := _memory_db w;
     durable := durable w;
     trace := trace w |}.

Definition set_memory_db (db : database_memory.InMemoryDatabase)
    (w : World env) : World env :=
  {| _using_memory_db := _using_memory_db w;
     _memory_db := db;
     durable := durable w;
     trace := trace w |}.

Definition set_durable (d : pg_db env) (w : World env) : World env :=
  {| _using_memory_db := _using_memory_db w;
     _memory_db := _memory_db w;
     durable := d;
     trace := trace w |}.

(** The process as it starts. *)
Definition boot (d : pg_db env) : World env :=
  {| _using_memory_db := false;
     _memory_db := database_memory.new;
     durable := d;
     trace := [] |}.
End WorldUpdates.

Definition is_connect (ev : event) : bool :=
  match ev with EvPgConnect => true | _ => false end.

Definition is_generate (ev : event) : bool :=
  match ev with
  | EvGroqChat _ _ | EvGeminiGenerate _ _ => true
  | _ => false
  end.

(** The number of times the durable backend was contacted. *)
Definition connects {env : Env} (w : World env) : nat :=
  List.length (filter is_connect (trace w)).

(** The number of calls to a generation provider. *)
Definition generations {env : Env} (w : World env) : nat :=
  List.length (filter is_generate (trace w)).

(** ** database.py *)

Module database.
Section database.
Context {env : Env}.

(** A connection: an asyncpg connection (it has [close]), or the
    [InMemoryDatabase] singleton (it has none). *)
Inductive conn : Type :=
| PgConn
| MemConn.

Definition has_close (c : conn) : bool :=
  match c with PgConn => true | MemConn => false end.

Definition get_db_connection (w : World env) (reply : pg_reply)
  : result conn * World env :=
  if negb (_using_memory_db w) then
    let w := emit EvPgConnect w in
    match reply with
    | Connected => (Ok PgConn, w)
    | Refused _ =>
        if MEMORY_DB_AVAILABLE env
        then (Ok MemConn, set_using_memory_db true w)
        else (Raise (Exception
                "No database available and memory fallback not available"),
              w)
    end
  else if _using_memory_db w && MEMORY_DB_AVAILABLE env then (Ok MemConn, w)
  else (Raise (Exception "No database connection available"), w).

(** What [get_db_pool] yields: a pool of the durable engine, a fresh
    [InMemoryDatabase] standing in for one, or nothing at all. *)
Inductive pool : Type :=
| PgPool
| MockPool (db : database_memory.InMemoryDatabase).

Definition get_db_pool (w : World env) (reply : pg_reply)
  : result (option pool) * World env :=
  if negb (_using_memory_db w) then
    let w := emit EvPgConnect w in
    match reply with
    | Connected => (Ok (Some PgPool), w)
    | Refused _ =>
        if MEMORY_DB_AVAILABLE env
        then (Ok (Some (MockPool database_memory.new)),
              set_using_memory_db true w)
        else (Raise (Exception
                "No database available and memory fallback not available"),
              w)
    end
  else (Ok None, w).

Definition create_documents_sql : string :=
  "CREATE TABLE IF NOT EXISTS documents (
                      id TEXT PRIMARY KEY,
                      filename TEXT NOT NULL,
                      mime_type TEXT,
                      total_chunks INTEGER DEFAULT 0,
                      uploaded_at TIMESTAMP DEFAULT CURRENT_TIMESTAMP
                  )".

Definition create_document_chunks_sql : string :=
  "CREATE TABLE IF NOT EXISTS document_chunks (
                      id TEXT PRIMARY KEY,
                      document_id TEXT NOT NULL REFERENCES documents(id) ON DELETE CASCADE,
                      chunk_index INTEGER NOT NULL,
                      content TEXT NOT NULL,
                      embedding VECTOR(1536),
                      created_at TIMESTAMP DEFAULT CURRENT_TIMESTAMP
                  )".

Definition create_index_sql : string :=
  "CREATE INDEX IF NOT EXISTS idx_document_chunks_document_id ON document_chunks(document_id)".

Definition create_vector_index_sql : string :=
  "CREATE INDEX IF NOT EXISTS idx_document_chunks_embedding ON document_chunks USING ivfflat (embedding vector_cosine_ops)".

(** Statements sent one by one outside a transaction: those before the
    failing one stay applied. *)
Fixpoint pg_run (d : pg_db env) (stmts : list (string * list value))
  : pg_db env * result unit :=
  match stmts with
  | [] => (d, Ok tt)
  | (q, ps) :: stmts' =>
      match pg_execute env d q ps with
      | Ok d' => pg_run d' stmts'
      | Raise e => (d, Raise e)
      end
  end.

(** [async with conn.transaction()]: all statements, or none. *)
Definition pg_transaction (d : pg_db env) (stmts : list (string * list value))
  : pg_db env * result unit :=
  match pg_run d stmts with
  | (d', Ok tt) => (d', Ok tt)
  | (_, Raise e) => (d, Raise e)
  end.

Definition init_database (w : World env) (reply : pg_reply)
  : result unit * World env :=
  if negb (_using_memory_db w) then
    let w := emit EvPgConnect w in
    let fall_back (w : World env) :=
      if MEMORY_DB_AVAILABLE env
      then (Ok tt, set_using_memory_db true w)
      else (Raise (Exception
              "No database available and memory fallback not available"),
            w) in
    match reply with
    | Refused _ => fall_back w
    | Connected =>
        match pg_run (durable w)
                [(create_documents_sql, []);
                 (create_document_chunks_sql, []);
                 (create_index_sql, [])] with
        | (d, Ok tt) =>
            (* a failure to create the vector index is only reported *)
            let d := match pg_execute env d create_vector_index_sql [] with
                     | Ok d' => d'
                     | Raise _ => d
                     end in
            (Ok tt, set_durable d w)
        | (d, Raise _) => fall_back (set_durable d w)
        end
    end
  else (Ok tt, w).

End database.
End database.

(** ** The AI services *)

(** The embedding and generation services, which are outside the repository.
    A call either returns or raises.  [groq_features] is the hand-built
    embedding of the Groq branch; it reads Python's built-in [hash] of each
    word, which is salted per process, so it is a parameter too. *)
Record Providers : Type := {
  GROQ_AVAILABLE : bool;
  GEMINI_AVAILABLE_FOR_USE : bool;
  gemini_embed_content : string -> result (list float);
  groq_features : string -> list float;
  groq_chat_completion : string -> Z -> result string;
  gemini_generate_content : string -> Z -> result string;
  decode_file : string -> option string -> string -> result string
}.

(** [str(e)] *)
Definition str_exn (e : exn) : string :=
  match e with
  | ValueError msg => msg
  | IndexError => "string index out of range"
  | KeyError key => key
  | TypeError => "type error"
  | ZeroDivisionError => "float division by zero"
  | HTTPException _ detail => detail
  | Exception msg => msg
  end.

(** A statement with its positional parameters. *)
Definition statement : Type := string * list value.

(** [enumerate(l)] *)
Definition enumerate {A : Type} (l : list A) : list (nat * A) :=
  combine (seq 0 (List.length l)) l.

(** ** api/ingest.py *)

Module ingest.
Import database_memory database.

Definition sentence_end (c : ascii) : bool := Py.char_in c ".!?".

Definition space (c : ascii) : bool := Ascii.eqb c " "%char.

(** [for i in range(i, i - n, -1): if p(text[i]): ... break]: the first index
    found, if any. *)
Fixpoint scan_back (text : string) (p : ascii -> bool) (i : Z) (n : nat)
  : result (option Z) :=
  match n with
  | O => Ok None
  | S n' =>
      c <- Py.index text i ;;
      if p c then Ok (Some i) else scan_back text p (i - 1) n'
  end.

(** The number of values of [range(hi, lo, -1)]. *)
Definition range_back (hi lo : Z) : nat := Z.to_nat (hi - lo).

(** One pass of the loop body up to the cut: where the window starting at
    [start] ends. *)
Definition cut (text : string) (chunk_size start : Z) : result Z :=
  let end_ := start + chunk_size in
  if end_ <? Py.len text then
    found <- scan_back text sentence_end end_
               (range_back end_ (Z.max (start + chunk_size - 100) start)) ;;
    match found with
    | Some i => Ok (i + 1)
    | None =>
        found <- scan_back text space end_
                   (range_back end_ (Z.max (start + chunk_size - 50) start)) ;;
        match found with
        | Some i => Ok i
        | None => Ok end_
        end
    end
  else Ok end_.

(** The [while] loop, run for at most [fuel] passes; [None] when the loop
    is still running after that. *)
Fixpoint chunk_loop (fuel : nat) (text : string) (chunk_size overlap : Z)
    (chunks : list string) (start : Z) : option (result (list string)) :=
  if start <? Py.len text then
    match fuel with
    | O => None
    | S fuel' =>
        match cut text chunk_size start with
        | Raise e => Some (Raise e)
        | Ok end_ =>
            chunk_loop fuel' text chunk_size overlap
              (chunks ++ [Py.strip (Py.slice text start end_)])
              (end_ - overlap)
        end
    end
  else Some (Ok chunks).

Definition _chunk_text (fuel : nat) (text : string) (chunk_size overlap : Z)
  : option (result (list string)) :=
  if Py.len text <=? chunk_size then Some (Ok [text])
  else
    match chunk_loop fuel text chunk_size overlap [] 0 with
    | Some (Ok chunks) => Some (Ok (filter Py.truthy chunks))
    | other => other
    end.

(** The defaults of [_chunk_text], which every caller uses. *)
Definition default_chunk_size : Z := 1000.
Definition default_overlap : Z := 200.

Section ingest.
Context {env : Env}.
Variable ai : Providers.

Definition _parse_document (filename : string) (mime_type : option string)
    (file_b64 : option string) (text : option string) : result string :=
  let given (o : option string) : option string :=
    match o with
    | Some t => if Py.truthy t then Some t else None
    | None => None
    end in
  match given text with
  | Some t => Ok t
  | None =>
      match given file_b64 with
      | None => Raise (ValueError "Either text or file_b64 must be provided")
      | Some b64 =>
          match decode_file ai filename mime_type b64 with
          | Ok t => Ok t
          | Raise e =>
              Raise (ValueError ("Failed to parse document: " ++ str_exn e))
          end
      end
  end.

(** The Gemini branch of [_embed_texts]: one call per text, each text cut to
    its first 2000 characters. *)
Fixpoint gemini_embed_all (w : World env) (texts : list string)
  : result (list (list float)) * World env :=
  match texts with
  | [] => (Ok [], w)
  | text :: texts' =>
      let text := if 2000 <? Py.len text then Py.slice text 0 2000 else text in
      let w := emit (EvGeminiEmbed text) w in
      match gemini_embed_content ai text with
      | Raise e => (Raise e, w)
      | Ok embedding =>
          match gemini_embed_all w texts' with
          | (Ok embeddings, w') => (Ok (embedding :: embeddings), w')
          | (Raise e, w') => (Raise e, w')
          end
      end
  end.

Definition no_embedding_service : exn :=
  HTTPException 502
    "No AI service available for embeddings. Please configure GROQ_API_KEY or GEMINI_API_KEY.".

Definition _embed_texts (w : World env) (texts : list string)
  : result (list (list float)) * World env :=
  let groq (w : World env) :=
    if GROQ_AVAILABLE ai then (Ok (map (groq_features ai) texts), w)
    else (Raise no_embedding_service, w) in
  if GEMINI_AVAILABLE_FOR_USE ai then
    match gemini_embed_all w texts with
    | (Ok embeddings, w') => (Ok embeddings, w')
    | (Raise _, w') => groq w'
    end
  else groq w.

Definition insert_document_sql : string :=
  "
                INSERT INTO documents (id, filename, mime_type, total_chunks)
                VALUES ($1, $2, $3, $4)
                ON CONFLICT (id) DO NOTHING
                ".

Definition insert_chunk_sql : string :=
  "
                    INSERT INTO document_chunks (id, document_id, chunk_index, content, embedding)
                    VALUES ($1, $2, $3, $4, $5)
                    ".

Definition delete_chunks_sql : string :=
  "DELETE FROM document_chunks WHERE document_id = $1".

Definition delete_document_sql : string :=
  "DELETE FROM documents WHERE id = $1".

(** Statements sent to the in-memory database one by one: those before a
    failing one stay applied.  The [k]-th statement reads the clock as
    [now k]. *)
Fixpoint mem_run (db : InMemoryDatabase) (now : nat -> Z) (k : nat)
    (stmts : list statement) : InMemoryDatabase * result unit :=
  match stmts with
  | [] => (db, Ok tt)
  | (q, ps) :: stmts' =>
      match execute db (now k) q ps with
      | Ok db' => mem_run db' now (S k) stmts'
      | Raise e => (db, Raise e)
      end
  end.

(** The pattern shared by the writing endpoints: direct calls on the in-memory
    database, one transaction on an asyncpg connection, which is then closed. *)
Definition run_statements (w : World env) (c : conn) (now : nat -> Z)
    (stmts : list statement) : result unit * World env :=
  if negb (has_close c) then
    let (db, r) := mem_run (_memory_db w) now 0 stmts in
    (r, set_memory_db db w)
  else
    let (d, r) := pg_transaction (durable w) stmts in
    (r, set_durable d w).

(** The statements of [_store_in_db]; [uuid4 idx] is the identifier drawn for
    the chunk at [idx]. *)
Definition store_statements (uuid4 : nat -> string) (document_id : string)
    (filename : string) (mime_type : option string) (chunks : list string)
    (embeddings : list (list float)) : list statement :=
  (insert_document_sql,
   [VStr document_id; VStr filename; of_opt_str mime_type;
    VInt (Z.of_nat (List.length chunks))])
  :: map (fun item : nat * (string * list float) =>
            let idx := fst item in
            let content := fst (snd item) in
            let embedding := snd (snd item) in
            (insert_chunk_sql,
             [VStr (uuid4 idx); VStr document_id; VInt (Z.of_nat idx);
              VStr content; VList embedding]))
         (enumerate (combine chunks embeddings)).

Definition _store_in_db (w : World env) (reply : pg_reply)
    (uuid4 : nat -> string) (now : nat -> Z) (document_id : string)
    (filename : string) (mime_type : option string) (chunks : list string)
    (embeddings : list (list float)) : result unit * World env :=
  if negb (Nat.eqb (List.length chunks) (List.length embeddings)) then
    (Raise (ValueError "Chunks and embeddings length mismatch"), w)
  else
    match get_db_connection w reply with
    | (Raise e, w') => (Raise e, w')
    | (Ok c, w') =>
        run_statements w' c now
          (store_statements uuid4 document_id filename mime_type chunks
             embeddings)
    end.

Record UploadDocRequest : Type := {
  req_filename : string;
  req_mime_type : option string;
  req_file_b64 : option string;
  req_text : option string
}.

Record UploadDocResponse : Type := {
  resp_document_id : string;
  resp_filename : string;
  resp_total_chunks : Z;
  resp_chunks_created : Z
}.

(** The [except] clauses of [ingest_upload]. *)
Definition upload_errors {A : Type} (r : result A) : result A :=
  match r with
  | Ok a => Ok a
  | Raise (ValueError msg) => Raise (HTTPException 400 msg)
  | Raise (HTTPException status_code detail) =>
      Raise (HTTPException status_code detail)
  | Raise e =>
      Raise (HTTPException 500 ("Internal server error: " ++ str_exn e))
  end.

(** [uuid4 0] is the document's identifier, [uuid4 (1 + idx)] the one of its
    chunk at [idx].  The chunker runs with its defaults; [None] when it is
    still running after [fuel] passes. *)
Definition ingest_upload (fuel : nat) (w : World env) (reply : pg_reply)
    (uuid4 : nat -> string) (now : nat -> Z) (body : UploadDocRequest)
  : option (result UploadDocResponse * World env) :=
  let document_id := uuid4 O in
  match _parse_document (req_filename body) (req_mime_type body)
          (req_file_b64 body) (req_text body) with
  | Raise e => Some (upload_errors (Raise e), w)
  | Ok text =>
      match _chunk_text fuel text default_chunk_size default_overlap with
      | None => None
      | Some (Raise e) => Some (upload_errors (Raise e), w)
      | Some (Ok chunks) =>
          match _embed_texts w chunks with
          | (Raise e, w1) => Some (upload_errors (Raise e), w1)
          | (Ok embeddings, w1) =>
              match _store_in_db w1 reply (fun idx => uuid4 (S idx)) now
                      document_id (req_filename body) (req_mime_type body)
                      chunks embeddings with
              | (Raise e, w2) => Some (upload_errors (Raise e), w2)
              | (Ok tt, w2) =>
                  Some (Ok {| resp_document_id := document_id;
                              resp_filename := req_filename body;
                              resp_total_chunks :=
                                Z.of_nat (List.length chunks);
                              resp_chunks_created :=
                                Z.of_nat (List.length chunks) |},
                        w2)
              end
          end
      end
  end.

(** [DELETE /{document_id}]; the reply is the message. *)
Definition delete_document (w : World env) (reply : pg_reply)
    (now : nat -> Z) (document_id : string) : result string * World env :=
  match get_db_connection w reply with
  | (Raise e, w') => (Raise e, w')
  | (Ok c, w') =>
      match run_statements w' c now
              [(delete_chunks_sql, [VStr document_id]);
               (delete_document_sql, [VStr document_id])] with
      | (Raise e, w'') => (Raise e, w'')
      | (Ok tt, w'') =>
          (Ok ("Document " ++ document_id ++ " deleted successfully"), w'')
      end
  end.

End ingest.
End ingest.

(** The pattern shared by the reading endpoints: [conn.fetch] on the
    in-memory database, or inside a transaction on an asyncpg connection, which
    is then closed. *)
Definition run_fetch {env : Env} (w : World env) (c : database.conn)
    (query : string) (params : list value) : result (list row) :=
  if negb (database.has_close c)
  then database_memory.fetch (_memory_db w) query params
  else pg_fetch env (durable w) query params.

(** ** api/query.py *)

Module query.
Import database_memory database.

Record QueryRequest : Type := {
  question : string;
  max_chunks : Z;
  max_tokens : Z
}.

Record Source : Type := {
  source_content : string;
  source_chunk_index : Z;
  source_document_id : string
}.

Record QueryResponse : Type := {
  answer : string;
  sources : list Source;
  response_total_chunks : Z
}.

Definition search_sql : string :=
  "
                    SELECT dc.content, dc.chunk_index, dc.document_id,
                           dc.embedding <-> $1 AS distance
                    FROM document_chunks dc
                    ORDER BY distance
                    LIMIT $2
                    ".

Definition no_results : QueryResponse :=
  {| answer := "No relevant documents found. Please upload some documents first.";
     sources := [];
     response_total_chunks := 0 |}.

Definition newline : string := String (ascii_of_nat 10) EmptyString.

(** [sep.join(parts)] *)
Fixpoint join (sep : string) (parts : list string) : string :=
  match parts with
  | [] => ""
  | [p] => p
  | p :: parts' => p ++ sep ++ join sep parts'
  end.

Definition prompt_of (question : string) (chunks : list Source) : string :=
  let context := join (newline ++ newline) (map source_content chunks) in
  "Based on the following context, please answer the question concisely and accurately."
  ++ newline ++ newline ++ "Context:" ++ newline ++ context
  ++ newline ++ newline ++ "Question: " ++ question
  ++ newline ++ newline ++ "Answer:".

Section query.
Context {env : Env}.
Variable ai : Providers.

(** Inside the Gemini attempt [text] is rebound to its first 2000
    characters, so that after a failure of Gemini the Groq features are those
    of the shortened text. *)
Definition _embed_text (w : World env) (text : string)
  : result (list float) * World env :=
  let groq (w : World env) (text : string) :=
    if GROQ_AVAILABLE ai then (Ok (groq_features ai text), w)
    else (Raise ingest.no_embedding_service, w) in
  if GEMINI_AVAILABLE_FOR_USE ai then
    let text := if 2000 <? Py.len text then Py.slice text 0 2000 else text in
    let w := emit (EvGeminiEmbed text) w in
    match gemini_embed_content ai text with
    | Ok embedding => (Ok embedding, w)
    | Raise _ => groq w text
    end
  else groq w text.

Definition no_generation_service : exn :=
  HTTPException 502
    "No AI service available for text generation. Please configure GROQ_API_KEY or GEMINI_API_KEY.".

Definition _synthesize_answer (w : World env) (question : string)
    (chunks : list Source) (max_tokens : Z) : result string * World env :=
  let prompt := prompt_of question chunks in
  let gemini (w : World env) :=
    if GEMINI_AVAILABLE_FOR_USE ai then
      let w := emit (EvGeminiGenerate prompt max_tokens) w in
      match gemini_generate_content ai prompt max_tokens with
      | Ok text => (Ok text, w)
      | Raise _ => (Raise no_generation_service, w)
      end
    else (Raise no_generation_service, w) in
  if GROQ_AVAILABLE ai then
    let w := emit (EvGroqChat prompt max_tokens) w in
    match groq_chat_completion ai prompt max_tokens with
    | Ok text => (Ok text, w)
    | Raise _ => gemini w
    end
  else gemini w.

(** [Source(content=row["content"], ...)] *)
Definition source_of_row (r : row) : result Source :=
  content <- bind (row_get r "content") as_str ;;
  chunk_index <- bind (row_get r "chunk_index") as_int ;;
  document_id <- bind (row_get r "document_id") as_str ;;
  Ok {| source_content := content;
        source_chunk_index := chunk_index;
        source_document_id := document_id |}.

(** The [except] clauses of [query_ask]. *)
Definition ask_errors {A : Type} (r : result A) : result A :=
  match r with
  | Ok a => Ok a
  | Raise (HTTPException status_code detail) =>
      Raise (HTTPException status_code detail)
  | Raise e =>
      Raise (HTTPException 500 ("Internal server error: " ++ str_exn e))
  end.

Definition query_ask (w : World env) (reply : pg_reply) (body : QueryRequest)
  : result QueryResponse * World env :=
  match _embed_text w (question body) with
  | (Raise e, w1) => (ask_errors (Raise e), w1)
  | (Ok query_embedding, w1) =>
      match get_db_connection w1 reply with
      | (Raise e, w2) => (ask_errors (Raise e), w2)
      | (Ok c, w2) =>
          match run_fetch w2 c search_sql
                  [VList query_embedding; VInt (max_chunks body)] with
          | Raise e => (ask_errors (Raise e), w2)
          | Ok [] => (Ok no_results, w2)
          | Ok rows =>
              match mapM source_of_row rows with
              | Raise e => (ask_errors (Raise e), w2)
              | Ok sources =>
                  match _synthesize_answer w2 (question body) sources
                          (max_tokens body) with
                  | (Raise e, w3) => (ask_errors (Raise e), w3)
                  | (Ok answer, w3) =>
                      (Ok {| answer := answer;
                             sources := sources;
                             response_total_chunks :=
                               Z.of_nat (List.length sources) |},
                       w3)
                  end
              end
          end
      end
  end.

End query.
End query.

(** ** api/text_documents.py *)

Module text_documents.
Import database_memory database.

Definition list_sql : string :=
  "SELECT * FROM documents ORDER BY created_at DESC".

(** One entry of the listing; [entry_created_at] is the value whose [str] is
    reported. *)
Record entry : Type := {
  entry_id : value;
  entry_filename : value;
  entry_mime_type : value;
  entry_total_chunks : value;
  entry_created_at : value
}.

Definition entry_of_row (r : row) : result entry :=
  id <- row_get r "id" ;;
  filename <- row_get r "filename" ;;
  mime_type <- row_get r "mime_type" ;;
  total_chunks <- row_get r "total_chunks" ;;
  created_at <- row_get_default r "created_at" (VStr "unknown") ;;
  Ok {| entry_id := id;
        entry_filename := filename;
        entry_mime_type := mime_type;
        entry_total_chunks := total_chunks;
        entry_created_at := created_at |}.

Section text_documents.
Context {env : Env}.

(** [GET /list]; the reply is the list under ["documents"]. *)
Definition list_documents (w : World env) (reply : pg_reply)
  : result (list entry) * World env :=
  match get_db_connection w reply with
  | (Raise e, w') => (Raise e, w')
  | (Ok c, w') =>
      match run_fetch w' c list_sql [] with
      | Raise e => (Raise e, w')
      | Ok rows => (mapM entry_of_row rows, w')
      end
  end.

End text_documents.

Record TextDocument : Type := {
  text_title : string;
  text_content : string;
  text_category : option string
}.

Record DocumentResponse : Type := {
  added_document_id : string;
  added_title : string;
  added_chunks_created : Z
}.

Record AddDocumentsResponse : Type := {
  success : bool;
  total_documents : Z;
  added_total_chunks : Z;
  added_documents : list DocumentResponse
}.

Definition no_service : exn :=
  HTTPException 502
    "No AI service available. Please configure GROQ_API_KEY or GEMINI_API_KEY.".

Section add_text_documents.
Context {env : Env}.
Variable ai : Providers.

(** [str(e)] of an [HTTPException] is the web framework's. *)
Variable http_str : Z -> string -> string.

Definition str (e : exn) : string :=
  match e with
  | HTTPException status_code detail => http_str status_code detail
  | _ => str_exn e
  end.

(** The [except] clause of [add_text_documents]: an [HTTPException] is an
    [Exception], and is caught with the others. *)
Definition add_errors {A : Type} (r : result A) : result A :=
  match r with
  | Ok a => Ok a
  | Raise e => Raise (HTTPException 500 ("Error adding documents: " ++ str e))
  end.

(** The [for] loop of [add_text_documents], at its [j]-th document.  For the
    [j]-th document [uuid4 j 0] is its identifier and [uuid4 j (1 + idx)] the
    one of its chunk at [idx], [replies j] is what the PostgreSQL server
    answers when asked for its connection, and [now j k] the clock read by
    its [k]-th statement. *)
Fixpoint add_loop (fuel : nat) (w : World env) (replies : nat -> pg_reply)
    (uuid4 : nat -> nat -> string) (now : nat -> nat -> Z) (j : nat)
    (docs : list TextDocument) (document_responses : list DocumentResponse)
    (total_chunks : Z)
  : option (result (list DocumentResponse * Z) * World env) :=
  match docs with
  | [] => Some (Ok (document_responses, total_chunks), w)
  | doc :: docs' =>
      let document_id := uuid4 j O in
      match ingest._chunk_text fuel (text_content doc)
              ingest.default_chunk_size ingest.default_overlap with
      | None => None
      | Some (Raise e) => Some (Raise e, w)
      | Some (Ok chunks) =>
          match ingest._embed_texts ai w chunks with
          | (Raise e, w1) => Some (Raise e, w1)
          | (Ok embeddings, w1) =>
              match ingest._store_in_db w1 (replies j)
                      (fun idx => uuid4 j (S idx)) (now j) document_id
                      (text_title doc ++ ".txt") (Some "text/plain") chunks
                      embeddings with
              | (Raise e, w2) => Some (Raise e, w2)
              | (Ok tt, w2) =>
                  add_loop fuel w2 replies uuid4 now (S j) docs'
                    (document_responses
                     ++ [{| added_document_id := document_id;
                            added_title := text_title doc;
                            added_chunks_created :=
                              Z.of_nat (List.length chunks) |}])%list
                    (total_chunks + Z.of_nat (List.length chunks))
              end
          end
      end
  end.

(** [POST /add]; [None] when a chunker is still running after [fuel]
    passes. *)
Definition add_text_documents (fuel : nat) (w : World env)
    (replies : nat -> pg_reply) (uuid4 : nat -> nat -> string)
    (now : nat -> nat -> Z) (documents : list TextDocument)
  : option (result AddDocumentsResponse * World env) :=
  if negb (GROQ_AVAILABLE ai) && negb (GEMINI_AVAILABLE_FOR_USE ai) then
    Some (Raise no_service, w)
  else
    match documents with
    | [] => Some (Raise (HTTPException 400 "No documents provided"), w)
    | _ =>
        match add_loop fuel w replies uuid4 now O documents [] 0 with
        | None => None
        | Some (Raise e, w') => Some (add_errors (Raise e), w')
        | Some (Ok (document_responses, total_chunks), w') =>
            Some (Ok {| success := true;
                        total_documents := Z.of_nat (List.length documents);
                        added_total_chunks := total_chunks;
                        added_documents := document_responses |},
                  w')
        end
    end.

End add_text_documents.

Record QueryTextRequest : Type := {
  text_question : string;
  text_max_chunks : Z;
  text_max_tokens : Z
}.

(** One of the [sources]: a dictionary of three values taken from a row as
    they are. *)
Record source_dict : Type := {
  dict_content : value;
  dict_chunk_index : value;
  dict_document_id : value
}.

Record QueryTextResponse : Type := {
  text_answer : string;
  text_sources : list source_dict;
  text_total_chunks : Z;
  documents_searched : Z
}.

Definition no_documents : QueryTextResponse :=
  {| text_answer :=
       "No relevant documents found. Please add some documents first.";
     text_sources := [];
     text_total_chunks := 0;
     documents_searched := 0 |}.

Definition source_of_row (r : row) : result source_dict :=
  content <- row_get r "content" ;;
  chunk_index <- row_get r "chunk_index" ;;
  document_id <- row_get r "document_id" ;;
  Ok {| dict_content := content;
        dict_chunk_index := chunk_index;
        dict_document_id := document_id |}.

(** [float(x) == n] for an integer [n]: the comparison is exact. *)
Definition float_is_int (x : float) (n : Z) : bool :=
  match Prim2SF x with
  | S754_zero _ => n =? 0
  | S754_finite s m e =>
      let signed := if s then Z.neg m else Z.pos m in
      if 0 <=? e then n =? signed * 2 ^ e else n * 2 ^ (- e) =? signed
  | _ => false
  end.

(** [a == b] on the values that can be hashed. *)
Definition py_eq (a b : value) : bool :=
  match a, b with
  | VNone, VNone => true
  | VStr s, VStr t => String.eqb s t
  | VInt m, VInt n => m =? n
  | VFloat x, VFloat y => PrimFloat.eqb x y
  | VInt n, VFloat x => float_is_int x n
  | VFloat x, VInt n => float_is_int x n
  | _, _ => false
  end.

(** [set(row["document_id"] for row in rows)], built row by row onto [seen]:
    a value equal to one that is there is not added again (each row holds
    values of its own, so that a NaN equals none), and a list cannot be
    hashed. *)
Fixpoint document_id_set (rows : list row) (seen : list value)
  : result (list value) :=
  match rows with
  | [] => Ok seen
  | r :: rows' =>
      v <- row_get r "document_id" ;;
      match v with
      | VList _ => Raise TypeError
      | _ =>
          if existsb (py_eq v) seen then document_id_set rows' seen
          else document_id_set rows' (seen ++ [v])
      end
  end.

Definition prompt_of (question : string) (contents : list string) : string :=
  let context := query.join (query.newline ++ query.newline) contents in
  "Based on the following context, please answer the question concisely and accurately."
  ++ query.newline ++ query.newline ++ "Context:" ++ query.newline ++ context
  ++ query.newline ++ query.newline ++ "Question: " ++ question
  ++ query.newline ++ query.newline ++ "Answer:".

Section query_text_documents.
Context {env : Env}.
Variable ai : Providers.

(** The text of [_embed_text] is that of [query._embed_text]. *)
Definition _embed_text (w : World env) (text : string)
  : result (list float) * World env :=
  query._embed_text ai w text.

(** As [query._synthesize_answer], on dictionaries: [str.join] raises for a
    content that is not a string, before any service is asked. *)
Definition _synthesize_answer (w : World env) (question : string)
    (sources : list source_dict) (max_tokens : Z)
  : result string * World env :=
  match mapM (fun s => as_str (dict_content s)) sources with
  | Raise e => (Raise e, w)
  | Ok contents =>
      let prompt := prompt_of question contents in
      let gemini (w : World env) :=
        if GEMINI_AVAILABLE_FOR_USE ai then
          let w := emit (EvGeminiGenerate prompt max_tokens) w in
          match gemini_generate_content ai prompt max_tokens with
          | Ok text => (Ok text, w)
          | Raise _ => (Raise query.no_generation_service, w)
          end
        else (Raise query.no_generation_service, w) in
      if GROQ_AVAILABLE ai then
        let w := emit (EvGroqChat prompt max_tokens) w in
        match groq_chat_completion ai prompt max_tokens with
        | Ok text => (Ok text, w)
        | Raise _ => gemini w
        end
      else gemini w
  end.

(** [POST /query]; the [except] clauses are those of [query.query_ask]. *)
Definition query_text_documents (w : World env) (reply : pg_reply)
    (body : QueryTextRequest) : result QueryTextResponse * World env :=
  if negb (GROQ_AVAILABLE ai) && negb (GEMINI_AVAILABLE_FOR_USE ai) then
    (Raise no_service, w)
  else
    match _embed_text w (text_question body) with
    | (Raise e, w1) => (query.ask_errors (Raise e), w1)
    | (Ok query_embedding, w1) =>
        match get_db_connection w1 reply with
        | (Raise e, w2) => (query.ask_errors (Raise e), w2)
        | (Ok c, w2) =>
            match run_fetch w2 c query.search_sql
                    [VList query_embedding; VInt (text_max_chunks body)] with
            | Raise e => (query.ask_errors (Raise e), w2)
            | Ok [] => (Ok no_documents, w2)
            | Ok rows =>
                match mapM source_of_row rows with
                | Raise e => (query.ask_errors (Raise e), w2)
                | Ok sources =>
                    match _synthesize_answer w2 (text_question body) sources
                            (text_max_tokens body) with
                    | (Raise e, w3) => (query.ask_errors (Raise e), w3)
                    | (Ok answer, w3) =>
                        match document_id_set rows [] with
                        | Raise e => (query.ask_errors (Raise e), w3)
                        | Ok unique_docs =>
                            (Ok {| text_answer := answer;
                                   text_sources := sources;
                                   text_total_chunks :=
                                     Z.of_nat (List.length sources);
                                   documents_searched :=
                                     Z.of_nat (List.length unique_docs) |},
                             w3)
                        end
                    end
                end
            end
        end
    end.

End query_text_documents.
End text_documents.

(** * Specification vocabulary

    The predicates, effects and sample runs that the properties below are
    stated with. *)

Import database_memory database.

(** ** Sample surroundings *)

(** A deployment whose PostgreSQL server cannot be used. *)
Definition offline : Env :=
  {| MEMORY_DB_AVAILABLE := true;
     pg_db := unit;
     pg_execute := fun _ _ _ => Raise (Exception "connection is closed");
     pg_fetch := fun _ _ _ => Raise (Exception "connection is closed") |}.

Definition connection_refused : pg_reply :=
  Refused (Exception "connection refused").

(** ** What the statements do to the in-memory database *)

(** The effect of the document insertion. *)
Definition put_document (db : InMemoryDatabase) (now : Z) (id name : string)
    (mime : option string) (total : Z) : InMemoryDatabase :=
  {| documents :=
       Dict.set id
         {| doc_id := id; filename := name; mime_type := mime;
            total_chunks := total; uploaded_at := now |}
         (documents db);
     chunks := chunks db;
     embeddings := embeddings db |}.

(** The effect of a chunk insertion that carries an embedding. *)
Definition put_chunk (db : InMemoryDatabase) (now : Z) (cid doc : string)
    (idx : Z) (text : string) (embedding : list float) : InMemoryDatabase :=
  {| documents := documents db;
     chunks :=
       Dict.set cid
         {| chunk_id := cid; document_id := doc; chunk_index := idx;
            content := text; created_at := now |}
         (chunks db);
     embeddings := Dict.set cid embedding (embeddings db) |}.

(** The chunks of a document, in storage order. *)
Definition chunks_of (id : string) (db : InMemoryDatabase) : list chunk :=
  filter (fun c => String.eqb (document_id c) id) (Dict.values (chunks db)).

(** The effect of the two deletions of [delete_document]. *)
Definition drop_document (db : InMemoryDatabase) (id : string)
  : InMemoryDatabase :=
  let db' :=
    fold_left remove_chunk
      (map fst (filter (fun kv => String.eqb (document_id (snd kv)) id)
                       (chunks db)))
      db in
  if Dict.mem id (documents db')
  then {| documents := Dict.del id (documents db');
          chunks := chunks db';
          embeddings := embeddings db' |}
  else db'.

(** ** Search *)

(** The store with the embedding of one chunk forgotten. *)
Definition drop_embedding (cid : string) (db : InMemoryDatabase)
  : InMemoryDatabase :=
  {| documents := documents db;
     chunks := chunks db;
     embeddings := Dict.del cid (embeddings db) |}.

(** The inputs on which [_cosine_distance] gives up. *)
Definition degenerate (vec1 vec2 : list float) : Prop :=
  List.length vec1 <> List.length vec2
  \/ vec1 = [] \/ vec2 = []
  \/ PrimFloat.eqb (magnitude vec1) 0 = true
  \/ PrimFloat.eqb (magnitude vec2) 0 = true.

(** ** Sample runs *)

(** Identifiers and clock readings for the samples. *)
Definition sample_uuid4 (i : nat) : string :=
  "chunk-" ++ String (ascii_of_nat (48 + i)) EmptyString.

Definition sample_now (k : nat) : Z := 1700000000 + Z.of_nat k.

(** One document of two chunks, stored while PostgreSQL refuses connections:
    the first chunk has an empty embedding, the second one points away from
    the query [[1.0]]. *)
Definition two_chunks : World offline :=
  snd (ingest._store_in_db (@boot offline tt) connection_refused sample_uuid4
         sample_now "doc-1" "notes.txt" (Some "text/plain")
         ["no vector"; "opposite"] [[]; [(-1)%float]]).

(** A deployment where only the hand-built embedding and the Groq chat model
    are configured. *)
Definition groq_only : Providers :=
  {| GROQ_AVAILABLE := true;
     GEMINI_AVAILABLE_FOR_USE := false;
     gemini_embed_content := fun _ => Raise (Exception "not configured");
     groq_features := fun text => [1%float; 0%float];
     groq_chat_completion := fun prompt _ => Ok "Blue.";
     gemini_generate_content := fun _ _ => Raise (Exception "not configured");
     decode_file := fun _ _ b64 => Ok b64 |}.

(** ** Requests *)

(** What can be asked of the process: the three entry points of [database],
    and the endpoints, all of which reach the backend through
    [get_db_connection]. *)
Inductive request : Type :=
| GetConnection
| GetPool
| InitDatabase
| StoreInDb (uuid4 : nat -> string) (now : nat -> Z) (document_id : string)
    (filename : string) (mime_type : option string) (chunks : list string)
    (embeddings : list (list float))
| DeleteDocument (now : nat -> Z) (document_id : string)
| Ask (body : query.QueryRequest)
| ListDocuments.

Section Requests.
Context {env : Env}.
Variable ai : Providers.

(** The process after one request, which the durable server would answer with
    the given reply if it is contacted. *)
Definition serve (w : World env) (r : request * pg_reply) : World env :=
  match fst r with
  | GetConnection => snd (get_db_connection w (snd r))
  | GetPool => snd (get_db_pool w (snd r))
  | InitDatabase => snd (init_database w (snd r))
  | StoreInDb uuid4 now document_id filename mime_type chunks embeddings =>
      snd (ingest._store_in_db w (snd r) uuid4 now document_id filename
             mime_type chunks embeddings)
  | DeleteDocument now document_id =>
      snd (ingest.delete_document w (snd r) now document_id)
  | Ask body => snd (query.query_ask ai w (snd r) body)
  | ListDocuments => snd (text_documents.list_documents w (snd r))
  end.

Definition serve_all (w : World env) (rs : list (request * pg_reply))
  : World env :=
  fold_left serve rs w.

(** The flag is only ever set where the in-memory database is available. *)
Definition flag_sound (w : World env) : Prop :=
  _using_memory_db w = true -> MEMORY_DB_AVAILABLE env = true.

(** [w'] has the flag of [w] and as many contacts with the durable server. *)
Definition same_selection (w w' : World env) : Prop :=
  _using_memory_db w' = _using_memory_db w /\ connects w' = connects w.

End Requests.

(** ** Trimming *)

(** A list of characters that does not start with white space. *)
Definition starts_clean (l : list ascii) : Prop :=
  match l with
  | [] => True
  | c :: _ => Py.isspace c = false
  end.

(** A chunk that [strip] leaves as it is. *)
Definition trimmed (s : string) : Prop := Py.strip s = s.

(** ** The store step and the store invariant *)

(** The effect of the chunk insertion for one item of
    [enumerate(zip(chunks, embeddings))]. *)
Definition put_item (uuid4 : nat -> string) (now : nat -> Z) (doc : string)
    (db : InMemoryDatabase) (item : nat * (string * list float))
  : InMemoryDatabase :=
  put_chunk db (now (S (fst item))) (uuid4 (fst item)) doc
    (Z.of_nat (fst item)) (fst (snd item)) (snd (snd item)).

(** The row written for one item. *)
Definition chunk_entry (uuid4 : nat -> string) (now : nat -> Z) (doc : string)
    (item : nat * (string * list float)) : string * chunk :=
  (uuid4 (fst item),
   {| chunk_id := uuid4 (fst item); document_id := doc;
      chunk_index := Z.of_nat (fst item); content := fst (snd item);
      created_at := now (S (fst item)) |}).

(** The in-memory database after the statements of [_store_in_db]. *)
Definition stored (db : InMemoryDatabase) (uuid4 : nat -> string)
    (now : nat -> Z) (id name : string) (mime : option string)
    (cs : list string) (es : list (list float)) : InMemoryDatabase :=
  fold_left (put_item uuid4 now id) (enumerate (combine cs es))
    (put_document db (now O) id name mime (Z.of_nat (List.length cs))).

(** The identifiers drawn for [n] chunks are new to the store and distinct. *)
Definition fresh_ids (uuid4 : nat -> string) (n : nat) (db : InMemoryDatabase)
  : Prop :=
  NoDup (map uuid4 (seq 0 n))
  /\ forall i, (i < n)%nat -> Dict.get (uuid4 i) (chunks db) = None.

(** Every chunk belongs to a stored document. *)
Definition referential (db : InMemoryDatabase) : Prop :=
  forall c, In c (Dict.values (chunks db)) ->
            Dict.get (document_id c) (documents db) <> None.

(** Every document's [total_chunks] counts its chunk rows, whose indices are
    0, 1, ..., in storage order. *)
Definition consistent (db : InMemoryDatabase) : Prop :=
  forall id d, Dict.get id (documents db) = Some d ->
    total_chunks d = Z.of_nat (List.length (chunks_of id db))
    /\ map chunk_index (chunks_of id db)
       = map Z.of_nat (seq 0 (List.length (chunks_of id db))).

Definition store_ok (db : InMemoryDatabase) : Prop :=
  NoDup (Dict.keys (chunks db)) /\ referential db /\ consistent db.

(** No chunk of the document is stored. *)
Definition absent (id : string) (db : InMemoryDatabase) : Prop :=
  forall c, In c (Dict.values (chunks db)) -> document_id c <> id.

(** The operations that change the store. *)
Inductive store_op : Type :=
| OpStore (uuid4 : nat -> string) (now : nat -> Z) (id name : string)
    (mime : option string) (cs : list string) (es : list (list float))
| OpDelete (id : string).

Definition apply_op (db : InMemoryDatabase) (op : store_op)
  : InMemoryDatabase :=
  match op with
  | OpStore uuid4 now id name mime cs es => stored db uuid4 now id name mime cs es
  | OpDelete id => drop_document db id
  end.

(** The operation does not store the document [id]. *)
Definition spares (id : string) (op : store_op) : Prop :=
  match op with
  | OpStore _ _ id' _ _ _ _ => id' <> id
  | OpDelete _ => True
  end.

(** The identifiers of the chunks that the deletion removes. *)
Definition chunk_ids_of (id : string) (db : InMemoryDatabase) : list string :=
  map fst (filter (fun kv => String.eqb (document_id (snd kv)) id) (chunks db)).

Definition listed (ids : list string) (kv : string * chunk) : bool :=
  existsb (String.eqb (fst kv)) ids.

(** A second document for the samples, with identifiers after those of the
    first. *)
Definition later_uuid4 (i : nat) : string := sample_uuid4 (2 + i).

(** ** Further sample surroundings *)

(** A deployment with no AI service configured. *)
Definition no_ai : Providers :=
  {| GROQ_AVAILABLE := false;
     GEMINI_AVAILABLE_FOR_USE := false;
     gemini_embed_content := fun _ => Raise (Exception "not configured");
     groq_features := fun _ => [];
     groq_chat_completion := fun _ _ => Raise (Exception "not configured");
     gemini_generate_content := fun _ _ => Raise (Exception "not configured");
     decode_file := fun _ _ _ => Raise (Exception "Incorrect padding") |}.

(** A deployment with both services, where Gemini refuses the text
    ["second"] and Groq refuses every chat. *)
Definition flaky : Providers :=
  {| GROQ_AVAILABLE := true;
     GEMINI_AVAILABLE_FOR_USE := true;
     gemini_embed_content :=
       fun text => if String.eqb text "second"
                   then Raise (Exception "quota exceeded")
                   else Ok [2%float];
     groq_features := fun _ => [1%float; 0%float];
     groq_chat_completion := fun _ _ => Raise (Exception "rate limit");
     gemini_generate_content := fun _ _ => Ok "Blue.";
     decode_file := fun _ _ _ => Raise (Exception "Incorrect padding") |}.

(** ** Vocabulary of the further properties *)

(** The exception is an HTTP response. *)
Definition is_http (e : exn) : Prop :=
  exists status_code detail, e = HTTPException status_code detail.

(** The chunks and the embeddings are stored under the same keys. *)
Definition embedded (db : InMemoryDatabase) : Prop :=
  forall k, Dict.get k (chunks db) = None <-> Dict.get k (embeddings db) = None.

(** The hit reported for a chunk at the distance 1.0. *)
Definition hit_at_one (entry : string * chunk) : hit :=
  {| hit_content := content (snd entry);
     hit_chunk_index := chunk_index (snd entry);
     hit_document_id := document_id (snd entry);
     distance := 1 |}.

(** What a hit tells of its chunk, and the same of a stored chunk. *)
Definition hit_summary (h : hit) : string * Z * string :=
  (hit_content h, hit_chunk_index h, hit_document_id h).

Definition chunk_summary (c : chunk) : string * Z * string :=
  (content c, chunk_index c, document_id c).

(** The in-memory store of [w'] is that of [w]: the same documents, chunks
    and embeddings. *)
Definition same_memory_store {env : Env} (w w' : World env) : Prop :=
  _memory_db w' = _memory_db w.

(** A PostgreSQL server without the pgvector extension: it keeps the list of
    the statements it has run, and refuses the one that needs [ivfflat]. *)
Definition no_pgvector : Env :=
  {| MEMORY_DB_AVAILABLE := false;
     pg_db := list string;
     pg_execute :=
       fun d q _ =>
         if Py.contains "ivfflat" q
         then Raise (Exception "access method ivfflat does not exist")
         else Ok (q :: d);
     pg_fetch := fun _ _ _ => Ok [] |}.

(** The hit [b] is not strictly nearer to the query than [a]. *)
Definition not_nearer (a b : hit) : Prop :=
  PrimFloat.ltb (distance b) (distance a) = false.

(** ** Vocabulary of [POST /add] *)

(** A deployment with Gemini alone, which refuses the text ["second"]. *)
Definition gemini_alone : Providers :=
  {| GROQ_AVAILABLE := false;
     GEMINI_AVAILABLE_FOR_USE := true;
     gemini_embed_content :=
       fun text => if String.eqb text "second"
                   then Raise (Exception "quota exceeded")
                   else Ok [2%float];
     groq_features := fun _ => [];
     groq_chat_completion := fun _ _ => Raise (Exception "not configured");
     gemini_generate_content := fun _ _ => Ok "Blue.";
     decode_file := fun _ _ _ => Raise (Exception "Incorrect padding") |}.

(** A web framework that prints an [HTTPException] as its detail. *)
Definition sample_http_str (status_code : Z) (detail : string) : string :=
  detail.

(** The identifiers and the clock of a run of [POST /add]. *)
Definition sample_uuid4s (j i : nat) : string :=
  "id-" ++ String (ascii_of_nat (48 + j)) (String (ascii_of_nat (48 + i)) "").

Definition sample_nows (j k : nat) : Z := 1700000000 + Z.of_nat (10 * j + k).

Definition first_note : text_documents.TextDocument :=
  {| text_documents.text_title := "sky";
     text_documents.text_content := "first";
     text_documents.text_category := None |}.

Definition second_note : text_documents.TextDocument :=
  {| text_documents.text_title := "sea";
     text_documents.text_content := "second";
     text_documents.text_category := Some "water" |}.

(** The in-memory backend once it has been selected. *)
Definition in_memory : World offline :=
  set_using_memory_db true (@boot offline tt).

(** The identifiers drawn for the first [n] documents of a run. *)
Definition document_ids (uuid4 : nat -> nat -> string) (j n : nat)
  : list string :=
  map (fun k => uuid4 k O) (seq j n).

(** The chunks that the responses of the documents count together. *)
Definition chunks_counted (rs : list text_documents.DocumentResponse) : Z :=
  fold_right Z.add 0 (map text_documents.added_chunks_created rs).

(** The document of the response [r] is stored as [POST /add] stores it. *)
Definition added_stored (db : InMemoryDatabase)
    (r : text_documents.DocumentResponse) : Prop :=
  exists d,
    Dict.get (text_documents.added_document_id r) (documents db) = Some d
    /\ filename d = text_documents.added_title r ++ ".txt"
    /\ mime_type d = Some "text/plain"
    /\ total_chunks d = text_documents.added_chunks_created r.

(** ** Vocabulary of the chunk lengths *)

(** The chunk is at most one character longer than the window. *)
Definition fits (chunk_size : Z) (chunk : string) : Prop :=
  Py.len chunk <= chunk_size + 1.

(** [c * n] *)
Fixpoint run_of (n : nat) (c : ascii) : string :=
  match n with
  | O => EmptyString
  | S n' => String c (run_of n' c)
  end.

(** A sentence of 101 characters, full stop included, and the start of a
    second one. *)
Definition long_sentence : string :=
  run_of 100 "a"%char ++ "." ++ run_of 49 "b"%char.

(** ** Vocabulary of [POST /query] *)

(** [ids] lists, once each, the documents that the sources come from. *)
Definition documents_of (ids : list string)
    (sources : list text_documents.source_dict) : Prop :=
  NoDup ids
  /\ forall id, In id ids
                <-> In (VStr id) (map text_documents.dict_document_id sources).

(** The question of the samples. *)
Definition sky_question : text_documents.QueryTextRequest :=
  {| text_documents.text_question := "What colour is the sky?";
     text_documents.text_max_chunks := 5;
     text_documents.text_max_tokens := 500 |}.

(** The request of [POST /ask] with the fields of a [POST /query]. *)
Definition as_ask (body : text_documents.QueryTextRequest)
  : query.QueryRequest :=
  {| query.question := text_documents.text_question body;
     query.max_chunks := text_documents.text_max_chunks body;
     query.max_tokens := text_documents.text_max_tokens body |}.

(** The dictionary with the fields of a [Source]. *)
Definition as_dict (s : query.Source) : text_documents.source_dict :=
  {| text_documents.dict_content := VStr (query.source_content s);
     text_documents.dict_chunk_index := VInt (query.source_chunk_index s);
     text_documents.dict_document_id := VStr (query.source_document_id s) |}.

(** ** Vocabulary of the store step and of the deletion *)

(** A PostgreSQL driver that refuses, with a [ValueError], the value it is
    given for the vector column; it keeps the list of the statements it has
    run. *)
Definition strict_driver : Env :=
  {| MEMORY_DB_AVAILABLE := false;
     pg_db := list string;
     pg_execute :=
       fun d q _ =>
         if Py.contains "INSERT INTO document_chunks" q
         then Raise (ValueError "invalid input for query argument $5")
         else Ok (q :: d);
     pg_fetch := fun _ _ _ => Ok [] |}.

(** The upload of the samples. *)
Definition sky_upload : ingest.UploadDocRequest :=
  {| ingest.req_filename := "notes.txt";
     ingest.req_mime_type := Some "text/plain";
     ingest.req_file_b64 := None;
     ingest.req_text := Some "The sky is blue." |}.

(** What a request asks of the store, if anything. *)
Definition request_op (r : request) : option store_op :=
  match r with
  | StoreInDb uuid4 now id name mime cs es =>
      Some (OpStore uuid4 now id name mime cs es)
  | DeleteDocument _ id => Some (OpDelete id)
  | _ => None
  end.

(** The request does not store the document [id]. *)
Definition spares_request (id : string) (r : request * pg_reply) : Prop :=
  match fst r with
  | StoreInDb _ _ id' _ _ _ _ => id' <> id
  | _ => True
  end.

(** What holds of the process from its start on: the flag is set only where
    the in-memory database is available, the in-memory store is empty as long
    as the flag is not set, and every chunk in it belongs to a stored
    document. *)
Definition well_started {env : Env} (w : World env) : Prop :=
  flag_sound w
  /\ (_using_memory_db w = false -> _memory_db w = database_memory.new)
  /\ referential (_memory_db w).

(** * Properties *)

(** ** Dictionaries *)

Section DictFacts.
Context {V : Type}.
Implicit Types (d : Dict.t V) (k : string) (v : V).

Lemma dict_get_set_eq k v d : Dict.get k (Dict.set k v d) = Some v.
Proof.
  induction d as [|[k' v'] d IH]; simpl.
  - now rewrite String.eqb_refl.
  - destruct (String.eqb k' k) eqn:E; simpl.
    + now rewrite String.eqb_refl.
    + now rewrite E.
Qed.

Lemma dict_get_set_ne k k' v d :
  k <> k' -> Dict.get k' (Dict.set k v d) = Dict.get k' d.
Proof.
  intros Hne. induction d as [|[k0 v0] d IH]; simpl.
  - destruct (String.eqb k k') eqn:E; [apply String.eqb_eq in E; contradiction | reflexivity].
  - destruct (String.eqb k0 k) eqn:E; simpl.
    + apply String.eqb_eq in E; subst k0.
      destruct (String.eqb k k') eqn:E'; [apply String.eqb_eq in E'; contradiction | reflexivity].
    + now rewrite IH.
Qed.

Lemma dict_get_none_keys k d : Dict.get k d = None <-> ~ In k (Dict.keys d).
Proof.
  induction d as [|[k' v'] d IH]; simpl.
  - tauto.
  - destruct (String.eqb k' k) eqn:E.
    + apply String.eqb_eq in E. split; [discriminate | intros H; exfalso; apply H; now left].
    + apply String.eqb_neq in E. rewrite IH. tauto.
Qed.

Lemma dict_in_get k v d : NoDup (Dict.keys d) -> In (k, v) d -> Dict.get k d = Some v.
Proof.
  induction d as [|[k' v'] d IH]; simpl; [tauto|].
  intros Hnd [H|H].
  - inversion H; subst. now rewrite String.eqb_refl.
  - inversion Hnd as [|? ? Hnotin Hnd']; subst.
    destruct (String.eqb k' k) eqn:E.
    + apply String.eqb_eq in E; subst. exfalso. apply Hnotin.
      change k with (fst (k, v)). now apply in_map.
    + auto.
Qed.

Lemma dict_set_fresh k v d : Dict.get k d = None -> Dict.set k v d = (d ++ [(k, v)])%list.
Proof.
  induction d as [|[k' v'] d IH]; simpl; [reflexivity|].
  destruct (String.eqb k' k); [discriminate|].
  intros H. now rewrite IH.
Qed.

Lemma dict_get_del_ne k k' d : k <> k' -> Dict.get k' (Dict.del k d) = Dict.get k' d.
Proof.
  intros Hne. unfold Dict.del. induction d as [|[k0 v0] d IH]; simpl; [reflexivity|].
  destruct (String.eqb k0 k) eqn:E; simpl.
  - apply String.eqb_eq in E; subst.
    destruct (String.eqb k k') eqn:E'; [apply String.eqb_eq in E'; contradiction | exact IH].
  - now rewrite IH.
Qed.

Lemma dict_get_del_eq k d : Dict.get k (Dict.del k d) = None.
Proof.
  unfold Dict.del. induction d as [|[k0 v0] d IH]; simpl; [reflexivity|].
  destruct (String.eqb k0 k) eqn:E; simpl; [exact IH | now rewrite E].
Qed.

Lemma dict_del_absent k d : Dict.get k d = None -> Dict.del k d = d.
Proof.
  unfold Dict.del. induction d as [|[k0 v0] d IH]; simpl; [reflexivity|].
  destruct (String.eqb k0 k) eqn:E; simpl; [discriminate|].
  intros H. now rewrite IH.
Qed.

End DictFacts.

(** ** The in-memory database: what each statement does *)

Lemma execute_insert_document db now id name mime total :
  execute db now ingest.insert_document_sql
    [VStr id; VStr name; of_opt_str mime; VInt total]
  = Ok (put_document db now id name mime total).
Proof.
  unfold execute.
  replace (Py.contains "INSERT INTO documents" ingest.insert_document_sql)
    with true by (vm_compute; reflexivity).
  destruct mime; reflexivity.
Qed.

Lemma execute_insert_chunk db now cid doc idx text embedding :
  execute db now ingest.insert_chunk_sql
    [VStr cid; VStr doc; VInt idx; VStr text; VList embedding]
  = Ok (put_chunk db now cid doc idx text embedding).
Proof.
  unfold execute.
  replace (Py.contains "INSERT INTO documents" ingest.insert_chunk_sql)
    with false by (vm_compute; reflexivity).
  replace (Py.contains "INSERT INTO document_chunks" ingest.insert_chunk_sql)
    with true by (vm_compute; reflexivity).
  reflexivity.
Qed.

Lemma execute_delete_chunks db now id :
  execute db now ingest.delete_chunks_sql [VStr id]
  = Ok (fold_left remove_chunk
          (map fst (filter (fun kv => String.eqb (document_id (snd kv)) id)
                           (chunks db)))
          db).
Proof.
  unfold execute.
  replace (Py.contains "INSERT INTO documents" ingest.delete_chunks_sql)
    with false by (vm_compute; reflexivity).
  replace (Py.contains "INSERT INTO document_chunks" ingest.delete_chunks_sql)
    with false by (vm_compute; reflexivity).
  replace (Py.contains "DELETE FROM document_chunks WHERE document_id"
             ingest.delete_chunks_sql)
    with true by (vm_compute; reflexivity).
  reflexivity.
Qed.

Lemma execute_delete_document db now id :
  execute db now ingest.delete_document_sql [VStr id]
  = Ok (if Dict.mem id (documents db)
        then {| documents := Dict.del id (documents db);
                chunks := chunks db;
                embeddings := embeddings db |}
        else db).
Proof.
  unfold execute.
  replace (Py.contains "INSERT INTO documents" ingest.delete_document_sql)
    with false by (vm_compute; reflexivity).
  replace (Py.contains "INSERT INTO document_chunks" ingest.delete_document_sql)
    with false by (vm_compute; reflexivity).
  replace (Py.contains "DELETE FROM document_chunks WHERE document_id"
             ingest.delete_document_sql)
    with false by (vm_compute; reflexivity).
  replace (Py.contains "DELETE FROM documents WHERE id"
             ingest.delete_document_sql)
    with true by (vm_compute; reflexivity).
  simpl. destruct (Dict.mem id (documents db)); reflexivity.
Qed.

Lemma fetch_search db q limit :
  fetch db query.search_sql [VList q; VInt limit]
  = (hits <- search db q limit ;; Ok (map row_of_hit hits)).
Proof.
  unfold fetch.
  replace (Py.contains
             "SELECT c.id, c.document_id, c.chunk_index, c.content, c.embedding, d.filename"
             query.search_sql)
    with false by (vm_compute; reflexivity).
  replace (Py.contains "SELECT dc.content, dc.chunk_index, dc.document_id"
             query.search_sql)
    with true by (vm_compute; reflexivity).
  replace (Py.contains "distance" query.search_sql)
    with true by (vm_compute; reflexivity).
  reflexivity.
Qed.

Lemma fetch_list db params :
  fetch db text_documents.list_sql params = Ok [].
Proof.
  unfold fetch.
  replace (Py.contains
             "SELECT c.id, c.document_id, c.chunk_index, c.content, c.embedding, d.filename"
             text_documents.list_sql)
    with false by (vm_compute; reflexivity).
  replace (Py.contains "SELECT dc.content, dc.chunk_index, dc.document_id"
             text_documents.list_sql)
    with false by (vm_compute; reflexivity).
  reflexivity.
Qed.

(** ** Cosine distance and search *)

Lemma mapM_ext {A B : Type} (f g : A -> result B) (l : list A) :
  (forall a, In a l -> f a = g a) -> mapM f l = mapM g l.
Proof.
  induction l as [|a l IH]; simpl; intros H; [reflexivity|].
  rewrite (H a) by now left.
  rewrite IH by (intros; apply H; now right).
  reflexivity.
Qed.

Lemma cosine_distance_lengths vec1 vec2 :
  List.length vec1 <> List.length vec2 -> _cosine_distance vec1 vec2 = Ok 1%float.
Proof.
  intros H. unfold _cosine_distance.
  apply Nat.eqb_neq in H. rewrite H. simpl.
  now rewrite !orb_true_r.
Qed.

Lemma cosine_distance_degenerate vec1 vec2 :
  degenerate vec1 vec2 -> _cosine_distance vec1 vec2 = Ok 1%float.
Proof.
  intros [H|[H|[H|[H|H]]]].
  - now apply cosine_distance_lengths.
  - subst. reflexivity.
  - subst. unfold _cosine_distance. simpl. now rewrite orb_true_r.
  - unfold _cosine_distance.
    destruct (negb (nonempty vec1) || negb (nonempty vec2)
              || negb (Nat.eqb (List.length vec1) (List.length vec2)));
      [reflexivity|].
    cbv zeta. now rewrite H.
  - unfold _cosine_distance.
    destruct (negb (nonempty vec1) || negb (nonempty vec2)
              || negb (Nat.eqb (List.length vec1) (List.length vec2)));
      [reflexivity|].
    cbv zeta. rewrite H. now rewrite orb_true_r.
Qed.

(** A chunk with no embedding, with an empty one, or scored against an empty
    query, gets the distance 1.0. *)
Lemma score_without_embedding db q entry :
  Dict.get (fst entry) (embeddings db) = None
  \/ Dict.get (fst entry) (embeddings db) = Some []
  \/ q = [] ->
  score db q entry
  = Ok {| hit_content := content (snd entry);
          hit_chunk_index := chunk_index (snd entry);
          hit_document_id := document_id (snd entry);
          distance := 1 |}.
Proof.
  unfold score. intros [H|[H|H]].
  - now rewrite H.
  - now rewrite H.
  - subst q. now rewrite andb_false_r.
Qed.

Lemma score_mismatch db q entry e :
  Dict.get (fst entry) (embeddings db) = Some e ->
  List.length e <> List.length q ->
  score db q entry
  = Ok {| hit_content := content (snd entry);
          hit_chunk_index := chunk_index (snd entry);
          hit_document_id := document_id (snd entry);
          distance := 1 |}.
Proof.
  unfold score. intros -> Hlen.
  destruct (nonempty e && nonempty q); [|reflexivity].
  rewrite cosine_distance_lengths by congruence. reflexivity.
Qed.

(** C10.  [_cosine_distance] returns exactly 1.0 when the two vectors differ in
    length, when either is empty, and when either has magnitude zero; hence a
    stored chunk whose embedding has another dimension than the query is
    scored, and so ranked, exactly as if its embedding were absent: forgetting
    that embedding changes no search result. *)
Theorem mismatched_dimension_ranks_as_missing
    (vec1 vec2 : list float) (db : InMemoryDatabase) (cid : string)
    (e q : list float) (limit : Z) :
  (degenerate vec1 vec2 -> _cosine_distance vec1 vec2 = Ok 1%float)
  /\ (Dict.get cid (embeddings db) = Some e ->
      List.length e <> List.length q ->
      search db q limit = search (drop_embedding cid db) q limit).
Proof.
  split; [apply cosine_distance_degenerate|].
  intros Hget Hlen. unfold search.
  rewrite (mapM_ext (score db q) (score (drop_embedding cid db) q));
    [reflexivity|].
  intros [k c] _.
  destruct (String.eqb cid k) eqn:E.
  - apply String.eqb_eq in E; subst k.
    rewrite (score_mismatch db q (cid, c) e Hget Hlen).
    symmetry. apply score_without_embedding. left.
    simpl. apply dict_get_del_eq.
  - apply String.eqb_neq in E.
    unfold score. simpl. now rewrite dict_get_del_ne.
Qed.

(** ** Sample runs *)

(** An instance: vectors of lengths 2 and 1, and the sample store searched with
    a query of dimension 2 while its second chunk has dimension 1. *)
Lemma mismatched_dimension_witness :
  _cosine_distance [1%float; 2%float] [1%float] = Ok 1%float
  /\ search (_memory_db two_chunks) [1%float; 0%float] 5
     = search (drop_embedding "chunk-1" (_memory_db two_chunks))
         [1%float; 0%float] 5.
Proof.
  destruct (mismatched_dimension_ranks_as_missing
              [1%float; 2%float] [1%float] (_memory_db two_chunks) "chunk-1"
              [(-1)%float] [1%float; 0%float] 5) as [H1 H2].
  split.
  - apply H1. left. simpl. discriminate.
  - apply H2; [reflexivity | simpl; discriminate].
Defined.

(** C3 (the code departs from the claim).  With the query [[1.0]], the chunk
    stored without a usable embedding is given the distance 1.0, the chunk
    whose embedding is [[-1.0]] the distance 2.0, and the search returns the
    chunk with the embedding below the one without. *)
Theorem opposite_embedding_ranks_below_missing :
  search (_memory_db two_chunks) [1%float] 5
  = Ok [ {| hit_content := "no vector"; hit_chunk_index := 0;
            hit_document_id := "doc-1"; distance := 1 |};
         {| hit_content := "opposite"; hit_chunk_index := 1;
            hit_document_id := "doc-1"; distance := 2 |} ].
Proof. vm_compute. reflexivity. Qed.

(** Under the in-memory backend the listing query matches no branch of
    [fetch]. *)
Lemma list_documents_memory {env : Env} (w : World env) (reply : pg_reply) :
  fst (get_db_connection w reply) = Ok MemConn ->
  fst (text_documents.list_documents w reply) = Ok [].
Proof.
  unfold text_documents.list_documents.
  destruct (get_db_connection w reply) as [[c|e] w']; simpl;
    [|discriminate].
  intros [= ->]. unfold run_fetch. cbn [has_close negb].
  now rewrite fetch_list.
Qed.

(** C1 (the code departs from the claim).  After one document is stored under
    the in-memory backend, the store holds its row, and [list_documents]
    answers with the empty list. *)
Theorem memory_listing_omits_stored_document :
  Dict.keys (documents (_memory_db two_chunks)) = ["doc-1"]
  /\ text_documents.list_documents two_chunks connection_refused
     = (Ok [], two_chunks).
Proof. split; vm_compute; reflexivity. Qed.

(** ** Backend selection *)

Section Selection.
Context {env : Env}.
Variable ai : Providers.
Implicit Types w : World env.

Lemma same_selection_refl w : same_selection w w.
Proof. split; reflexivity. Qed.

Lemma same_selection_trans w1 w2 w3 :
  same_selection w1 w2 -> same_selection w2 w3 -> same_selection w1 w3.
Proof. intros [A B] [C D]. split; congruence. Qed.

Lemma same_selection_emit w ev :
  is_connect ev = false -> same_selection w (emit ev w).
Proof.
  intros H. split; [reflexivity|].
  unfold connects. simpl. now rewrite H.
Qed.

Lemma same_selection_set_memory_db w db : same_selection w (set_memory_db db w).
Proof. split; reflexivity. Qed.

Lemma same_selection_set_durable w d : same_selection w (set_durable d w).
Proof. split; reflexivity. Qed.

Lemma same_selection_run_statements w c now stmts :
  same_selection w (snd (ingest.run_statements w c now stmts)).
Proof.
  unfold ingest.run_statements.
  destruct (negb (has_close c)).
  - destruct (ingest.mem_run (_memory_db w) now 0 stmts).
    apply same_selection_set_memory_db.
  - destruct (pg_transaction (durable w) stmts).
    apply same_selection_set_durable.
Qed.

Lemma same_selection_embed_text w text :
  same_selection w (snd (query._embed_text ai w text)).
Proof.
  unfold query._embed_text.
  destruct (GEMINI_AVAILABLE_FOR_USE ai).
  - destruct (gemini_embed_content ai _);
      [|destruct (GROQ_AVAILABLE ai)]; now apply same_selection_emit.
  - destruct (GROQ_AVAILABLE ai); apply same_selection_refl.
Qed.

Lemma same_selection_synthesize w question chunks max_tokens :
  same_selection w
    (snd (query._synthesize_answer ai w question chunks max_tokens)).
Proof.
  unfold query._synthesize_answer.
  assert (G : forall w0, same_selection w0
            (snd (if GEMINI_AVAILABLE_FOR_USE ai
                  then
                    match gemini_generate_content ai
                            (query.prompt_of question chunks) max_tokens with
                    | Ok text =>
                        (Ok text,
                         emit (EvGeminiGenerate
                                 (query.prompt_of question chunks) max_tokens)
                           w0)
                    | Raise _ =>
                        (Raise query.no_generation_service,
                         emit (EvGeminiGenerate
                                 (query.prompt_of question chunks) max_tokens)
                           w0)
                    end
                  else (Raise query.no_generation_service, w0)))).
  { intros w0. destruct (GEMINI_AVAILABLE_FOR_USE ai).
    - destruct (gemini_generate_content ai _ _);
        now apply same_selection_emit.
    - apply same_selection_refl. }
  destruct (GROQ_AVAILABLE ai).
  - destruct (groq_chat_completion ai _ _).
    + now apply same_selection_emit.
    + eapply same_selection_trans; [|apply G].
      now apply same_selection_emit.
  - apply G.
Qed.

(** Once the flag is set, a connection request is answered from memory without
    contacting the durable server. *)
Lemma get_db_connection_selected (w : World env) reply :
  _using_memory_db w = true -> MEMORY_DB_AVAILABLE env = true ->
  get_db_connection w reply = (Ok MemConn, w).
Proof.
  intros Hflag Hmem. unfold get_db_connection. now rewrite Hflag, Hmem.
Qed.

Lemma get_db_connection_flag (w : World env) reply :
  _using_memory_db (snd (get_db_connection w reply)) = true ->
  _using_memory_db w = true \/ MEMORY_DB_AVAILABLE env = true.
Proof.
  unfold get_db_connection.
  destruct (_using_memory_db w) eqn:F; [now left|]. simpl.
  destruct reply; simpl; [now rewrite F|].
  destruct (MEMORY_DB_AVAILABLE env); [now right|]. simpl. now rewrite F.
Qed.

Lemma serve_flag w r :
  _using_memory_db (serve ai w r) = true ->
  _using_memory_db w = true \/ MEMORY_DB_AVAILABLE env = true.
Proof.
  destruct r as [[| | |uuid4 now id name mime cs es|now id|body|] reply];
    unfold serve; cbn [fst snd].
  - apply get_db_connection_flag.
  - unfold get_db_pool.
    destruct (_using_memory_db w) eqn:F; [now left|]. simpl.
    destruct reply; simpl; [now rewrite F|].
    destruct (MEMORY_DB_AVAILABLE env); [now right|]. simpl. now rewrite F.
  - unfold init_database.
    destruct (_using_memory_db w) eqn:F; [now left|].
    cbn [negb]. cbv zeta.
    destruct (MEMORY_DB_AVAILABLE env); [now right|].
    intros H. exfalso. revert H.
    destruct reply; [|cbn; rewrite F; discriminate].
    destruct (pg_run (durable (emit EvPgConnect w)) _) as [d [[]|e]];
      cbn; rewrite F; discriminate.
  - unfold ingest._store_in_db.
    destruct (negb _); [now left|].
    pose proof (get_db_connection_flag w reply) as G.
    destruct (get_db_connection w reply) as [[c|e] w']; [|exact G].
    destruct (same_selection_run_statements w' c now
                (ingest.store_statements uuid4 id name mime cs es)) as [S _].
    intros H. apply G. cbn [snd]. congruence.
  - unfold ingest.delete_document.
    pose proof (get_db_connection_flag w reply) as G.
    destruct (get_db_connection w reply) as [[c|e] w']; [|exact G].
    pose proof (same_selection_run_statements w' c now
                  [(ingest.delete_chunks_sql, [VStr id]);
                   (ingest.delete_document_sql, [VStr id])]) as [S _].
    destruct (ingest.run_statements w' c now _) as [[[]|e] w''];
      simpl in *; intros H; apply G; congruence.
  - unfold query.query_ask.
    pose proof (same_selection_embed_text w (query.question body)) as [E _].
    destruct (query._embed_text ai w (query.question body)) as [[q|e] w1];
      simpl in E; [|simpl; intros H; left; congruence].
    pose proof (get_db_connection_flag w1 reply) as G.
    rewrite E in G.
    destruct (get_db_connection w1 reply) as [[c|e] w2]; [|exact G].
    destruct (run_fetch w2 c _ _) as [[|r rows]|e]; try exact G.
    destruct (mapM _ _) as [srcs|e]; [|exact G].
    pose proof (same_selection_synthesize w2 (query.question body) srcs
                  (query.max_tokens body)) as [S _].
    destruct (query._synthesize_answer ai w2 _ _ _) as [[a|e] w3];
      simpl in *; intros H; apply G; congruence.
  - unfold text_documents.list_documents.
    pose proof (get_db_connection_flag w reply) as G.
    destruct (get_db_connection w reply) as [[c|e] w']; [|exact G].
    destruct (run_fetch w' c _ _); exact G.
Qed.

Lemma serve_sound w r : flag_sound w -> flag_sound (serve ai w r).
Proof.
  intros Hs H. destruct (serve_flag w r H); [now apply Hs | assumption].
Qed.

Lemma serve_all_sound rs : forall w, flag_sound w -> flag_sound (serve_all ai w rs).
Proof.
  induction rs as [|r rs IH]; intros w Hs; [exact Hs|].
  apply IH, serve_sound, Hs.
Qed.

(** With the flag set, no request touches the selection. *)
Lemma serve_selected w r :
  _using_memory_db w = true -> MEMORY_DB_AVAILABLE env = true ->
  same_selection w (serve ai w r).
Proof.
  intros Hflag Hmem.
  destruct r as [[| | |uuid4 now id name mime cs es|now id|body|] reply];
    unfold serve; cbn [fst snd].
  - rewrite get_db_connection_selected by assumption. apply same_selection_refl.
  - unfold get_db_pool. rewrite Hflag. apply same_selection_refl.
  - unfold init_database. rewrite Hflag. apply same_selection_refl.
  - unfold ingest._store_in_db.
    destruct (negb _); [apply same_selection_refl|].
    rewrite get_db_connection_selected by assumption.
    apply same_selection_run_statements.
  - unfold ingest.delete_document.
    rewrite get_db_connection_selected by assumption.
    pose proof (same_selection_run_statements w MemConn now
                  [(ingest.delete_chunks_sql, [VStr id]);
                   (ingest.delete_document_sql, [VStr id])]) as S.
    destruct (ingest.run_statements w MemConn now _) as [[[]|e] w''];
      exact S.
  - unfold query.query_ask.
    pose proof (same_selection_embed_text w (query.question body)) as E.
    destruct (query._embed_text ai w (query.question body)) as [[q|e] w1];
      [|exact E].
    simpl in E. destruct E as [E1 E2].
    rewrite get_db_connection_selected by congruence.
    destruct (run_fetch w1 MemConn _ _) as [[|r rows]|e];
      try (split; assumption).
    destruct (mapM _ _) as [srcs|e]; [|split; assumption].
    pose proof (same_selection_synthesize w1 (query.question body) srcs
                  (query.max_tokens body)) as S.
    destruct (query._synthesize_answer ai w1 _ _ _) as [[a|e] w3];
      (eapply same_selection_trans; [split; eassumption | exact S]).
  - unfold text_documents.list_documents.
    rewrite get_db_connection_selected by assumption.
    destruct (run_fetch w MemConn _ _); apply same_selection_refl.
Qed.

Lemma serve_all_selected rs : forall w,
  _using_memory_db w = true -> MEMORY_DB_AVAILABLE env = true ->
  same_selection w (serve_all ai w rs).
Proof.
  induction rs as [|r rs IH]; intros w Hflag Hmem;
    [apply same_selection_refl|].
  pose proof (serve_selected w r Hflag Hmem) as S.
  eapply same_selection_trans; [exact S|].
  apply IH; [destruct S; congruence | assumption].
Qed.

(** C9.  In every execution from process start, once the flag
    [_using_memory_db] is set it stays set through any further requests, the
    durable server is not contacted again, and every connection request is
    answered with the in-memory database. *)
Theorem memory_selection_is_final
    (d : pg_db env) (before after : list (request * pg_reply))
    (reply : pg_reply) :
  _using_memory_db (serve_all ai (boot d) before) = true ->
  _using_memory_db (serve_all ai (serve_all ai (boot d) before) after) = true
  /\ connects (serve_all ai (serve_all ai (boot d) before) after)
     = connects (serve_all ai (boot d) before)
  /\ get_db_connection (serve_all ai (serve_all ai (boot d) before) after) reply
     = (Ok MemConn, serve_all ai (serve_all ai (boot d) before) after).
Proof.
  intros Hflag.
  assert (Hmem : MEMORY_DB_AVAILABLE env = true).
  { apply (serve_all_sound before (boot d)); [|exact Hflag].
    intros H. discriminate H. }
  destruct (serve_all_selected after _ Hflag Hmem) as [F C].
  repeat split.
  - congruence.
  - exact C.
  - apply get_db_connection_selected; congruence.
Qed.

End Selection.

(** An instance: the first connection is refused, then the server comes back;
    the initialisation and a listing that follow are served from memory. *)
Lemma memory_selection_witness :
  _using_memory_db
    (serve_all groq_only
       (serve_all groq_only (@boot offline tt)
          [(GetConnection, connection_refused)])
       [(InitDatabase, Connected); (ListDocuments, Connected)]) = true
  /\ connects
       (serve_all groq_only
          (serve_all groq_only (@boot offline tt)
             [(GetConnection, connection_refused)])
          [(InitDatabase, Connected); (ListDocuments, Connected)])
     = connects
         (serve_all groq_only (@boot offline tt)
            [(GetConnection, connection_refused)])
  /\ get_db_connection
       (serve_all groq_only
          (serve_all groq_only (@boot offline tt)
             [(GetConnection, connection_refused)])
          [(InitDatabase, Connected); (ListDocuments, Connected)])
       Connected
     = (Ok MemConn,
        serve_all groq_only
          (serve_all groq_only (@boot offline tt)
             [(GetConnection, connection_refused)])
          [(InitDatabase, Connected); (ListDocuments, Connected)]).
Proof.
  apply (@memory_selection_is_final offline groq_only tt
           [(GetConnection, connection_refused)]
           [(InitDatabase, Connected); (ListDocuments, Connected)]
           Connected).
  reflexivity.
Defined.

(** ** The retrieval pipeline *)

Section Pipeline.
Context {env : Env}.
Variable ai : Providers.

Lemma generations_emit (w : World env) ev :
  is_generate ev = false -> generations (emit ev w) = generations w.
Proof. intros H. unfold generations. simpl. now rewrite H. Qed.

Lemma generations_embed_text (w : World env) text :
  generations (snd (query._embed_text ai w text)) = generations w.
Proof.
  unfold query._embed_text.
  destruct (GEMINI_AVAILABLE_FOR_USE ai).
  - destruct (gemini_embed_content ai _);
      [|destruct (GROQ_AVAILABLE ai)]; now apply generations_emit.
  - destruct (GROQ_AVAILABLE ai); reflexivity.
Qed.

Lemma generations_get_db_connection (w : World env) reply :
  generations (snd (get_db_connection w reply)) = generations w.
Proof.
  unfold get_db_connection.
  destruct (_using_memory_db w); simpl.
  - destruct (MEMORY_DB_AVAILABLE env); reflexivity.
  - destruct reply; [reflexivity|].
    destruct (MEMORY_DB_AVAILABLE env); reflexivity.
Qed.

(** A store without chunks answers every search with the empty list. *)
Lemma search_empty_store (w : World env) q limit :
  chunks (_memory_db w) = [] ->
  run_fetch w MemConn query.search_sql [VList q; VInt limit] = Ok [].
Proof.
  intros H. unfold run_fetch. cbn [has_close negb].
  rewrite fetch_search. unfold search. rewrite H.
  cbn [mapM bind sort_by_distance fold_right].
  unfold Py.take. rewrite firstn_nil. reflexivity.
Qed.

(** C8.  When the question has been embedded, a connection obtained, and the
    search returns no row, [query_ask] answers with the canned reply (empty
    sources, [total_chunks = 0]), and no generation provider has been called:
    the world is the one left by the search step, with as many generation
    calls as before the request. *)
Theorem ask_without_results_skips_synthesis
    (w w1 w2 : World env) (reply : pg_reply) (body : query.QueryRequest)
    (query_embedding : list float) (c : conn) :
  query._embed_text ai w (query.question body) = (Ok query_embedding, w1) ->
  get_db_connection w1 reply = (Ok c, w2) ->
  run_fetch w2 c query.search_sql
    [VList query_embedding; VInt (query.max_chunks body)] = Ok [] ->
  query.query_ask ai w reply body
  = (Ok {| query.answer :=
             "No relevant documents found. Please upload some documents first.";
           query.sources := [];
           query.response_total_chunks := 0 |},
     w2)
  /\ generations w2 = generations w.
Proof.
  intros Hembed Hconn Hrows. split.
  - unfold query.query_ask. rewrite Hembed, Hconn, Hrows. reflexivity.
  - pose proof (generations_embed_text w (query.question body)) as E.
    pose proof (generations_get_db_connection w1 reply) as G.
    rewrite Hembed in E. rewrite Hconn in G. simpl in E, G. congruence.
Qed.

End Pipeline.

(** An instance: a question asked of the empty in-memory store. *)
Lemma ask_without_results_witness :
  query.query_ask groq_only (@boot offline tt) connection_refused
    {| query.question := "What color is the sky?";
       query.max_chunks := 5;
       query.max_tokens := 500 |}
  = (Ok {| query.answer :=
             "No relevant documents found. Please upload some documents first.";
           query.sources := [];
           query.response_total_chunks := 0 |},
     set_using_memory_db true (emit EvPgConnect (@boot offline tt)))
  /\ generations
       (set_using_memory_db true (emit EvPgConnect (@boot offline tt)))
     = generations (@boot offline tt).
Proof.
  apply (@ask_without_results_skips_synthesis offline groq_only
           (@boot offline tt) (@boot offline tt)
           (set_using_memory_db true (emit EvPgConnect (@boot offline tt)))
           connection_refused
           {| query.question := "What color is the sky?";
              query.max_chunks := 5;
              query.max_tokens := 500 |}
           [1%float; 0%float] MemConn).
  - reflexivity.
  - reflexivity.
  - apply search_empty_store. reflexivity.
Defined.

(** ** The chunker *)

Lemma lstrip_l_clean l : starts_clean (Py.lstrip_l l).
Proof.
  induction l as [|c l IH]; simpl; [exact I|].
  destruct (Py.isspace c) eqn:E; [exact IH | exact E].
Qed.

Lemma lstrip_l_fixed l : starts_clean l -> Py.lstrip_l l = l.
Proof. destruct l as [|c l]; simpl; [reflexivity | now intros ->]. Qed.

Lemma lstrip_l_suffix l : exists p, l = (p ++ Py.lstrip_l l)%list.
Proof.
  induction l as [|c l [p IH]]; simpl.
  - now exists [].
  - destruct (Py.isspace c).
    + exists (c :: p). simpl. now rewrite <- IH.
    + now exists [].
Qed.

Lemma strip_l_idempotent l : Py.strip_l (Py.strip_l l) = Py.strip_l l.
Proof.
  unfold Py.strip_l.
  set (a := Py.lstrip_l l).
  set (b := rev (Py.lstrip_l (rev a))).
  assert (Hb : starts_clean b).
  { destruct (lstrip_l_suffix (rev a)) as [p Hp].
    assert (Ha : a = (b ++ rev p)%list).
    { unfold b. rewrite <- rev_app_distr, <- Hp. now rewrite rev_involutive. }
    pose proof (lstrip_l_clean l) as Hc. fold a in Hc.
    destruct b as [|c b']; [exact I|].
    rewrite Ha in Hc. exact Hc. }
  rewrite (lstrip_l_fixed b Hb).
  unfold b at 1. rewrite rev_involutive.
  rewrite (lstrip_l_fixed _ (lstrip_l_clean (rev a))).
  reflexivity.
Qed.

Lemma strip_idempotent s : trimmed (Py.strip s).
Proof.
  unfold trimmed, Py.strip.
  rewrite list_ascii_of_string_of_list_ascii.
  now rewrite strip_l_idempotent.
Qed.

Lemma chunk_loop_done fuel text chunk_size overlap chunks start :
  (start <? Py.len text) = false ->
  ingest.chunk_loop fuel text chunk_size overlap chunks start
  = Some (Ok chunks).
Proof. intros H. destruct fuel; cbn [ingest.chunk_loop]; now rewrite H. Qed.

Lemma chunk_loop_pass fuel text chunk_size overlap chunks start end_ :
  (start <? Py.len text) = true ->
  ingest.cut text chunk_size start = Ok end_ ->
  ingest.chunk_loop (S fuel) text chunk_size overlap chunks start
  = ingest.chunk_loop fuel text chunk_size overlap
      (chunks ++ [Py.strip (Py.slice text start end_)]) (end_ - overlap).
Proof. intros H1 H2. cbn [ingest.chunk_loop]. now rewrite H1, H2. Qed.

(** Every chunk the loop appends is the result of [strip]. *)
Lemma chunk_loop_trimmed fuel text chunk_size overlap :
  forall chunks start out,
    ingest.chunk_loop fuel text chunk_size overlap chunks start
    = Some (Ok out) ->
    Forall trimmed chunks -> Forall trimmed out.
Proof.
  induction fuel as [|fuel IH]; intros chunks start out.
  - cbn [ingest.chunk_loop].
    destruct (start <? Py.len text); [discriminate|].
    now intros [= <-].
  - cbn [ingest.chunk_loop].
    destruct (start <? Py.len text); [|now intros [= <-]].
    destruct (ingest.cut text chunk_size start) as [end_|e]; [|discriminate].
    intros H Hc. apply (IH _ _ _ H).
    apply Forall_app. split; [exact Hc|].
    constructor; [apply strip_idempotent | constructor].
Qed.

(** C5, as amended.  Whenever the chunker returns: on the short path (the
    text is no longer than [chunk_size]) the result is the text itself as the
    only chunk, untouched; on the long path every returned chunk is non-empty
    after trimming. *)
Theorem chunks_nonempty_on_long_path
    (fuel : nat) (text : string) (chunk_size overlap : Z)
    (chunks : list string) :
  ingest._chunk_text fuel text chunk_size overlap = Some (Ok chunks) ->
  (Py.len text <= chunk_size -> chunks = [text])
  /\ (chunk_size < Py.len text ->
      Forall (fun chunk => Py.strip chunk <> "") chunks).
Proof.
  unfold ingest._chunk_text.
  destruct (Py.len text <=? chunk_size) eqn:E.
  - intros [= <-]. split; [reflexivity|].
    apply Z.leb_le in E. lia.
  - apply Z.leb_gt in E.
    destruct (ingest.chunk_loop fuel text chunk_size overlap [] 0)
      as [[out|e]|] eqn:L; try discriminate.
    intros [= <-]. split; [lia|]. intros _.
    pose proof (chunk_loop_trimmed _ _ _ _ _ _ _ L (Forall_nil _)) as T.
    apply Forall_forall. intros c Hc.
    apply filter_In in Hc. destruct Hc as [Hin Hne].
    rewrite Forall_forall in T. rewrite (T c Hin).
    destruct c; [discriminate Hne | discriminate].
Qed.

(** C5, as stated, fails on the short path: a text of three spaces is returned
    as the only chunk, and trimming it leaves nothing. *)
Lemma short_path_keeps_blank_chunk :
  ingest._chunk_text 0 "   " ingest.default_chunk_size ingest.default_overlap
  = Some (Ok ["   "])
  /\ Py.strip "   " = "".
Proof. split; reflexivity. Qed.

(** An instance: three sentences chunked with size 6 and no overlap. *)
Lemma chunks_nonempty_witness :
  (Py.len "One. Two. Three." <= 6 ->
   ["One.";  "Two.";  "Three."] = ["One. Two. Three."])
  /\ (6 < Py.len "One. Two. Three." ->
      Forall (fun chunk => Py.strip chunk <> "")
        ["One.";  "Two.";  "Three."]).
Proof.
  apply (chunks_nonempty_on_long_path 10 "One. Two. Three." 6 0).
  reflexivity.
Defined.

(** C2 (the code departs from the claim).  With [chunk_size = 6] and
    [overlap = 1], which satisfy [0 <= overlap < chunk_size], the chunker never
    returns on the text ["One. Two. Three."]: after two passes the cursor is
    at 8; the window from 8 holds no sentence end after its first character,
    so it is cut at the space at 9, and the cursor goes back to 9 - 1 = 8. *)
Theorem chunker_runs_forever :
  (0 < 6 /\ 0 <= 1 < 6)
  /\ ingest.cut "One. Two. Three." 6 8 = Ok 9
  /\ forall fuel, ingest._chunk_text fuel "One. Two. Three." 6 1 = None.
Proof.
  split; [lia|]. split; [reflexivity|].
  assert (Stuck : forall fuel chunks,
             ingest.chunk_loop fuel "One. Two. Three." 6 1 chunks 8 = None).
  { induction fuel as [|fuel IH]; intros chunks; [reflexivity|].
    rewrite (chunk_loop_pass fuel "One. Two. Three." 6 1 chunks 8 9);
      [|reflexivity|reflexivity].
    apply IH. }
  intros fuel. unfold ingest._chunk_text.
  replace (Py.len "One. Two. Three." <=? 6) with false by reflexivity.
  destruct fuel as [|fuel]; [reflexivity|].
  rewrite (chunk_loop_pass fuel "One. Two. Three." 6 1 [] 0 4);
    [|reflexivity|reflexivity].
  destruct fuel as [|fuel]; [reflexivity|].
  rewrite (chunk_loop_pass fuel "One. Two. Three." 6 1 _ (4 - 1) 9);
    [|reflexivity|reflexivity].
  change (9 - 1) with 8. now rewrite Stuck.
Qed.

(** ** The store step and deletion on the in-memory database *)

Lemma mem_run_items uuid4 now doc :
  forall (l : list (string * list float)) (s : nat) (db : InMemoryDatabase),
    ingest.mem_run db now (S s)
      (map (fun item : nat * (string * list float) =>
              (ingest.insert_chunk_sql,
               [VStr (uuid4 (fst item)); VStr doc; VInt (Z.of_nat (fst item));
                VStr (fst (snd item)); VList (snd (snd item))]))
           (combine (seq s (List.length l)) l))
    = (fold_left (put_item uuid4 now doc) (combine (seq s (List.length l)) l)
         db,
       Ok tt).
Proof.
  induction l as [|x l IH]; intros s db; [reflexivity|].
  cbn [List.length seq combine map fold_left ingest.mem_run fst snd].
  rewrite execute_insert_chunk. apply IH.
Qed.

Lemma mem_run_store db uuid4 now id name mime cs es :
  ingest.mem_run db now 0
    (ingest.store_statements uuid4 id name mime cs es)
  = (stored db uuid4 now id name mime cs es, Ok tt).
Proof.
  unfold ingest.store_statements, stored, enumerate.
  cbn [ingest.mem_run]. rewrite execute_insert_document.
  apply (mem_run_items uuid4 now id (combine cs es) 0).
Qed.

Lemma mem_run_delete db now id :
  ingest.mem_run db now 0
    [(ingest.delete_chunks_sql, [VStr id]);
     (ingest.delete_document_sql, [VStr id])]
  = (drop_document db id, Ok tt).
Proof.
  cbn [ingest.mem_run]. rewrite execute_delete_chunks.
  rewrite execute_delete_document. unfold drop_document.
  destruct (Dict.mem id _); reflexivity.
Qed.

Section StoreOnMemory.
Context {env : Env}.

Lemma get_db_connection_memory_db (w : World env) reply :
  _memory_db (snd (get_db_connection w reply)) = _memory_db w.
Proof.
  unfold get_db_connection.
  destruct (_using_memory_db w); simpl.
  - destruct (MEMORY_DB_AVAILABLE env); reflexivity.
  - destruct reply; [reflexivity|].
    destruct (MEMORY_DB_AVAILABLE env); reflexivity.
Qed.

(** The store step served by the in-memory database. *)
Lemma store_in_db_memory (w w' : World env) reply uuid4 now id name mime cs es :
  get_db_connection w reply = (Ok MemConn, w') ->
  List.length cs = List.length es ->
  ingest._store_in_db w reply uuid4 now id name mime cs es
  = (Ok tt,
     set_memory_db (stored (_memory_db w) uuid4 now id name mime cs es) w').
Proof.
  intros Hc Hlen. unfold ingest._store_in_db.
  apply Nat.eqb_eq in Hlen. rewrite Hlen. cbn [negb].
  pose proof (get_db_connection_memory_db w reply) as M.
  rewrite Hc in *. cbn [snd] in M.
  unfold ingest.run_statements. cbn [has_close negb].
  rewrite mem_run_store. now rewrite M.
Qed.

(** The deletion served by the in-memory database. *)
Lemma delete_document_memory (w w' : World env) reply now id :
  get_db_connection w reply = (Ok MemConn, w') ->
  ingest.delete_document w reply now id
  = (Ok ("Document " ++ id ++ " deleted successfully"),
     set_memory_db (drop_document (_memory_db w) id) w').
Proof.
  intros Hc. unfold ingest.delete_document.
  pose proof (get_db_connection_memory_db w reply) as M.
  rewrite Hc in *. cbn [snd] in M.
  unfold ingest.run_statements. cbn [has_close negb].
  rewrite mem_run_delete. now rewrite M.
Qed.

End StoreOnMemory.

(** *** Lists and dictionaries, continued *)

Lemma filter_none {A : Type} (f : A -> bool) (l : list A) :
  (forall x, In x l -> f x = false) -> filter f l = [].
Proof.
  induction l as [|a l IH]; intros H; simpl; [reflexivity|].
  rewrite (H a) by now left. apply IH. intros x Hx. apply H. now right.
Qed.

Lemma filter_all {A : Type} (f : A -> bool) (l : list A) :
  (forall x, In x l -> f x = true) -> filter f l = l.
Proof.
  induction l as [|a l IH]; intros H; simpl; [reflexivity|].
  rewrite (H a) by now left. f_equal. apply IH. intros x Hx. apply H. now right.
Qed.

Lemma map_fst_enumerate {A : Type} (l : list A) :
  map fst (enumerate l) = seq 0 (List.length l).
Proof.
  unfold enumerate. generalize 0%nat.
  induction l as [|a l IH]; intros s; simpl; [reflexivity|].
  now rewrite IH.
Qed.

Lemma dict_set_in {V : Type} (k k' : string) (v v' : V) (d : Dict.t V) :
  In (k', v') (Dict.set k v d) -> (k', v') = (k, v) \/ In (k', v') d.
Proof.
  induction d as [|[k0 v0] d IH]; simpl.
  - intros [H|[]]. left. now symmetry.
  - destruct (String.eqb k0 k); simpl.
    + intros [H|H]; [left; now symmetry | right; now right].
    + intros [H|H]; [right; now left|].
      destruct (IH H); [now left | right; now right].
Qed.

Lemma keys_filter_nodup {V : Type} (f : string * V -> bool) (d : Dict.t V) :
  NoDup (Dict.keys d) -> NoDup (Dict.keys (filter f d)).
Proof.
  unfold Dict.keys. induction d as [|kv d IH]; simpl; intros H;
    [constructor|].
  inversion H as [|? ? Hnotin Hnd]; subst.
  destruct (f kv); simpl; [|now apply IH].
  constructor; [|now apply IH].
  intros Hin. apply Hnotin.
  apply in_map_iff in Hin. destruct Hin as [x [Hx Hf]].
  apply filter_In in Hf. apply in_map_iff. exists x. tauto.
Qed.

(** *** The store step *)

Section Stored.
Variable uuid4 : nat -> string.
Variable now : nat -> Z.
Variable doc : string.

Lemma fold_put_item_documents items : forall db,
  documents (fold_left (put_item uuid4 now doc) items db) = documents db.
Proof.
  induction items as [|it items IH]; intros db; simpl; [reflexivity|].
  now rewrite IH.
Qed.

(** Whatever the identifiers, a chunk of the store after the insertions was
    there before or belongs to the document being stored. *)
Lemma fold_put_item_values items : forall db c,
  In c (Dict.values (chunks (fold_left (put_item uuid4 now doc) items db))) ->
  In c (Dict.values (chunks db)) \/ document_id c = doc.
Proof.
  induction items as [|it items IH]; intros db c; simpl; [now left|].
  intros H. destruct (IH _ _ H) as [H'|H']; [|now right].
  unfold put_item, put_chunk in H'. cbn [chunks] in H'.
  unfold Dict.values in H'. apply in_map_iff in H'.
  destruct H' as [[k c'] [Hc Hin]]. simpl in Hc. subst c'.
  destruct (dict_set_in _ _ _ _ _ Hin) as [E|E].
  - inversion E; subst. now right.
  - left. unfold Dict.values. apply in_map_iff. now exists (k, c).
Qed.

(** With new, distinct identifiers the rows are appended in order. *)
Lemma fold_put_item_chunks items : forall db,
  NoDup (map (fun it => uuid4 (fst it)) items) ->
  (forall it, In it items -> Dict.get (uuid4 (fst it)) (chunks db) = None) ->
  chunks (fold_left (put_item uuid4 now doc) items db)
  = (chunks db ++ map (chunk_entry uuid4 now doc) items)%list.
Proof.
  induction items as [|it items IH]; intros db Hnd Hfresh; simpl.
  - now rewrite app_nil_r.
  - inversion Hnd as [|? ? Hnotin Hnd']; subst.
    rewrite IH; [|exact Hnd'|].
    + unfold put_item at 1, put_chunk. cbn [chunks].
      rewrite dict_set_fresh by (apply Hfresh; now left).
      rewrite <- app_assoc. reflexivity.
    + intros it' Hin. unfold put_item, put_chunk. cbn [chunks].
      rewrite dict_get_set_ne.
      * apply Hfresh. now right.
      * intros E. apply Hnotin. rewrite E.
        apply (in_map (fun it => uuid4 (fst it))). exact Hin.
Qed.

End Stored.

Lemma stored_documents db uuid4 now id name mime cs es :
  documents (stored db uuid4 now id name mime cs es)
  = Dict.set id
      {| doc_id := id; filename := name; mime_type := mime;
         total_chunks := Z.of_nat (List.length cs); uploaded_at := now O |}
      (documents db).
Proof. unfold stored. now rewrite fold_put_item_documents. Qed.

Lemma stored_chunks db uuid4 now id name mime cs es :
  List.length cs = List.length es ->
  fresh_ids uuid4 (List.length cs) db ->
  chunks (stored db uuid4 now id name mime cs es)
  = (chunks db
     ++ map (chunk_entry uuid4 now id) (enumerate (combine cs es)))%list.
Proof.
  intros Hlen [Hnd Hfresh]. unfold stored.
  assert (Hn : List.length (combine cs es) = List.length cs).
  { rewrite length_combine. lia. }
  rewrite fold_put_item_chunks.
  - reflexivity.
  - rewrite <- (map_map fst uuid4), map_fst_enumerate, Hn. exact Hnd.
  - intros it Hin. cbn [put_document chunks]. apply Hfresh.
    assert (Hs : In (fst it) (seq 0 (List.length cs))).
    { rewrite <- Hn, <- map_fst_enumerate. now apply in_map. }
    apply in_seq in Hs. lia.
Qed.

Lemma referential_absent db id :
  referential db -> Dict.get id (documents db) = None -> absent id db.
Proof.
  intros Hr Hnone c Hc E. apply (Hr c Hc). now rewrite E.
Qed.

Lemma chunks_of_absent db id : absent id db -> chunks_of id db = [].
Proof.
  intros H. unfold chunks_of. apply filter_none. intros c Hc.
  apply String.eqb_neq. now apply H.
Qed.

Section StoredRows.
Variable uuid4 : nat -> string.
Variable now : nat -> Z.
Variable id : string.

Lemma new_rows_of_document items :
  filter (fun c => String.eqb (document_id c) id)
    (Dict.values (map (chunk_entry uuid4 now id) items))
  = Dict.values (map (chunk_entry uuid4 now id) items).
Proof.
  apply filter_all. intros c Hc.
  unfold Dict.values in Hc. rewrite map_map in Hc.
  apply in_map_iff in Hc. destruct Hc as [it [<- _]].
  apply String.eqb_refl.
Qed.

Lemma new_rows_of_other_document items id' :
  id' <> id ->
  filter (fun c => String.eqb (document_id c) id')
    (Dict.values (map (chunk_entry uuid4 now id) items))
  = [].
Proof.
  intros Hne. apply filter_none. intros c Hc.
  unfold Dict.values in Hc. rewrite map_map in Hc.
  apply in_map_iff in Hc. destruct Hc as [it [<- _]].
  apply String.eqb_neq. simpl. congruence.
Qed.

Lemma new_rows_indices (l : list (string * list float)) :
  map chunk_index
    (Dict.values (map (chunk_entry uuid4 now id) (enumerate l)))
  = map Z.of_nat (seq 0 (List.length l)).
Proof.
  rewrite <- map_fst_enumerate. unfold Dict.values.
  rewrite !map_map. reflexivity.
Qed.

Lemma new_rows_length (l : list (string * list float)) :
  List.length (Dict.values (map (chunk_entry uuid4 now id) (enumerate l)))
  = List.length l.
Proof.
  unfold Dict.values. rewrite !length_map.
  rewrite <- (length_map fst), map_fst_enumerate. apply length_seq.
Qed.

End StoredRows.

Lemma values_app {V : Type} (d1 d2 : Dict.t V) :
  Dict.values (d1 ++ d2)%list = (Dict.values d1 ++ Dict.values d2)%list.
Proof. apply map_app. Qed.

Lemma chunks_of_stored_same db uuid4 now id name mime cs es :
  List.length cs = List.length es ->
  fresh_ids uuid4 (List.length cs) db ->
  absent id db ->
  chunks_of id (stored db uuid4 now id name mime cs es)
  = Dict.values (map (chunk_entry uuid4 now id) (enumerate (combine cs es))).
Proof.
  intros Hlen Hfresh Habs. unfold chunks_of.
  rewrite stored_chunks by assumption.
  rewrite values_app, filter_app, new_rows_of_document.
  fold (chunks_of id db). now rewrite chunks_of_absent.
Qed.

Lemma chunks_of_stored_other db uuid4 now id name mime cs es id' :
  List.length cs = List.length es ->
  fresh_ids uuid4 (List.length cs) db ->
  id' <> id ->
  chunks_of id' (stored db uuid4 now id name mime cs es) = chunks_of id' db.
Proof.
  intros Hlen Hfresh Hne. unfold chunks_of.
  rewrite stored_chunks by assumption.
  rewrite values_app, filter_app, new_rows_of_other_document by assumption.
  apply app_nil_r.
Qed.

(** Every store step, whatever the identifiers, keeps every chunk attached to
    a stored document. *)
Lemma stored_referential db uuid4 now id name mime cs es :
  referential db -> referential (stored db uuid4 now id name mime cs es).
Proof.
  intros Href c Hc. rewrite stored_documents.
  destruct (String.eqb id (document_id c)) eqn:E.
  - apply String.eqb_eq in E. rewrite <- E, dict_get_set_eq. discriminate.
  - apply String.eqb_neq in E. rewrite dict_get_set_ne by assumption.
    unfold stored in Hc.
    destruct (fold_put_item_values _ _ _ _ _ _ Hc) as [H|H];
      [now apply Href | congruence].
Qed.

(** Storing a document that is not in the store, with new chunk identifiers,
    keeps the store well formed. *)
Lemma stored_ok db uuid4 now id name mime cs es :
  store_ok db ->
  Dict.get id (documents db) = None ->
  List.length cs = List.length es ->
  fresh_ids uuid4 (List.length cs) db ->
  store_ok (stored db uuid4 now id name mime cs es).
Proof.
  intros (Hnd & Href & Hcons) Hnew Hlen Hfresh.
  assert (Hn : List.length (combine cs es) = List.length cs).
  { rewrite length_combine. lia. }
  pose proof (referential_absent db id Href Hnew) as Habs.
  repeat split.
  - rewrite stored_chunks by assumption.
    unfold Dict.keys. rewrite map_app. apply NoDup_app.
    + exact Hnd.
    + rewrite map_map. cbn [chunk_entry fst].
      rewrite <- (map_map fst uuid4), map_fst_enumerate, Hn.
      apply Hfresh.
    + intros k Hold Hnewk.
      rewrite map_map in Hnewk. cbn [chunk_entry fst] in Hnewk.
      rewrite <- (map_map fst uuid4), map_fst_enumerate, Hn in Hnewk.
      apply in_map_iff in Hnewk. destruct Hnewk as [i [<- Hi]].
      apply in_seq in Hi.
      apply (proj1 (dict_get_none_keys (uuid4 i) (chunks db)));
        [apply Hfresh; lia | exact Hold].
  - now apply stored_referential.
  - rewrite stored_documents in H.
    destruct (String.eqb id id0) eqn:E.
    + apply String.eqb_eq in E; subst id0.
      rewrite dict_get_set_eq in H. injection H as <-. cbn [total_chunks].
      rewrite chunks_of_stored_same by assumption.
      now rewrite new_rows_length, Hn.
    + apply String.eqb_neq in E. rewrite dict_get_set_ne in H by assumption.
      rewrite chunks_of_stored_other by congruence.
      exact (proj1 (Hcons _ _ H)).
  - rewrite stored_documents in H.
    destruct (String.eqb id id0) eqn:E.
    + apply String.eqb_eq in E; subst id0.
      rewrite chunks_of_stored_same by assumption.
      now rewrite new_rows_indices, new_rows_length.
    + apply String.eqb_neq in E. rewrite dict_get_set_ne in H by assumption.
      rewrite chunks_of_stored_other by congruence.
      exact (proj2 (Hcons _ _ H)).
Qed.

(** *** Deletion *)

Lemma filter_filter {A : Type} (f g : A -> bool) (l : list A) :
  filter g (filter f l) = filter (fun x => f x && g x) l.
Proof.
  induction l as [|a l IH]; simpl; [reflexivity|].
  destruct (f a); simpl; [destruct (g a)|]; now rewrite IH.
Qed.

Lemma fold_remove_chunk_documents ids : forall db,
  documents (fold_left remove_chunk ids db) = documents db.
Proof.
  induction ids as [|k ids IH]; intros db; simpl; [reflexivity|].
  now rewrite IH.
Qed.

Lemma fold_remove_chunk_chunks ids : forall db,
  chunks (fold_left remove_chunk ids db)
  = filter (fun kv => negb (listed ids kv)) (chunks db).
Proof.
  induction ids as [|k ids IH]; intros db; simpl.
  - symmetry. now apply filter_all.
  - rewrite IH. cbn [remove_chunk chunks]. unfold Dict.del.
    rewrite filter_filter. apply filter_ext. intros kv.
    unfold listed. cbn [existsb]. now rewrite negb_orb.
Qed.

Lemma drop_document_documents db id :
  documents (drop_document db id) = Dict.del id (documents db).
Proof.
  unfold drop_document. rewrite fold_remove_chunk_documents.
  unfold Dict.mem.
  destruct (Dict.get id (documents db)) eqn:E; cbn [documents].
  - reflexivity.
  - rewrite fold_remove_chunk_documents. symmetry. now apply dict_del_absent.
Qed.

Lemma drop_document_chunks db id :
  chunks (drop_document db id)
  = filter (fun kv => negb (listed (chunk_ids_of id db) kv)) (chunks db).
Proof.
  unfold drop_document.
  destruct (Dict.mem id _); cbn [chunks]; apply fold_remove_chunk_chunks.
Qed.

Lemma listed_chunk_ids db id kv :
  In kv (chunks db) -> String.eqb (document_id (snd kv)) id = true ->
  listed (chunk_ids_of id db) kv = true.
Proof.
  intros Hin Hdoc. unfold listed. apply existsb_exists.
  exists (fst kv). split; [|apply String.eqb_refl].
  unfold chunk_ids_of. apply in_map. apply filter_In. now split.
Qed.

Lemma listed_chunk_ids_nodup db id kv :
  NoDup (Dict.keys (chunks db)) -> In kv (chunks db) ->
  listed (chunk_ids_of id db) kv = String.eqb (document_id (snd kv)) id.
Proof.
  intros Hnd Hin.
  destruct (String.eqb (document_id (snd kv)) id) eqn:E;
    [now apply listed_chunk_ids|].
  destruct (listed (chunk_ids_of id db) kv) eqn:L; [|reflexivity].
  unfold listed in L. apply existsb_exists in L.
  destruct L as [k [Hk Heq]]. apply String.eqb_eq in Heq. subst k.
  unfold chunk_ids_of in Hk. apply in_map_iff in Hk.
  destruct Hk as [[k' c'] [Hfst Hf]]. apply filter_In in Hf.
  destruct Hf as [Hin' Hdoc]. simpl in Hfst, Hdoc. subst k'.
  destruct kv as [k c]. simpl in *.
  pose proof (dict_in_get _ _ _ Hnd Hin) as G1.
  pose proof (dict_in_get _ _ _ Hnd Hin') as G2.
  rewrite G1 in G2. injection G2 as ->. congruence.
Qed.

Lemma drop_document_chunks_nodup db id :
  NoDup (Dict.keys (chunks db)) ->
  chunks (drop_document db id)
  = filter (fun kv => negb (String.eqb (document_id (snd kv)) id))
      (chunks db).
Proof.
  intros Hnd. rewrite drop_document_chunks.
  apply filter_ext_in. intros kv Hin.
  now rewrite listed_chunk_ids_nodup.
Qed.

(** After the deletion no chunk of the document is left. *)
Lemma drop_document_absent db id : absent id (drop_document db id).
Proof.
  intros c Hc E. unfold Dict.values in Hc. apply in_map_iff in Hc.
  destruct Hc as [[k c'] [Hs Hin]]. simpl in Hs. subst c'.
  rewrite drop_document_chunks in Hin. apply filter_In in Hin.
  destruct Hin as [Hin Hl].
  rewrite (listed_chunk_ids db id (k, c) Hin) in Hl; [discriminate|].
  simpl. now apply String.eqb_eq.
Qed.

Lemma drop_document_values db id c :
  In c (Dict.values (chunks (drop_document db id))) ->
  In c (Dict.values (chunks db)).
Proof.
  unfold Dict.values. rewrite drop_document_chunks.
  intros H. apply in_map_iff in H. destruct H as [kv [Hs Hin]].
  apply filter_In in Hin. apply in_map_iff. exists kv. tauto.
Qed.

(** Deleting a document of which the store holds nothing changes nothing. *)
Lemma drop_document_noop db id :
  absent id db -> Dict.get id (documents db) = None ->
  drop_document db id = db.
Proof.
  intros Habs Hnone. unfold drop_document.
  rewrite (filter_none _ (chunks db)).
  - cbn [map fold_left]. unfold Dict.mem. now rewrite Hnone.
  - intros [k c] Hin. apply String.eqb_neq. apply Habs.
    unfold Dict.values. apply in_map_iff. now exists (k, c).
Qed.

Lemma chunks_of_drop_other db id id' :
  NoDup (Dict.keys (chunks db)) -> id' <> id ->
  chunks_of id' (drop_document db id) = chunks_of id' db.
Proof.
  intros Hnd Hne. unfold chunks_of, Dict.values.
  rewrite drop_document_chunks_nodup by assumption. clear Hnd.
  induction (chunks db) as [|[k c] l IH]; simpl; [reflexivity|].
  destruct (String.eqb (document_id c) id) eqn:E; simpl.
  - apply String.eqb_eq in E.
    destruct (String.eqb (document_id c) id') eqn:E'; [|exact IH].
    apply String.eqb_eq in E'. congruence.
  - now rewrite IH.
Qed.

(** Every deletion keeps every chunk attached to a stored document. *)
Lemma drop_document_referential db id :
  referential db -> referential (drop_document db id).
Proof.
  intros Href c Hc. rewrite drop_document_documents.
  pose proof (drop_document_absent db id c Hc) as Hne.
  rewrite dict_get_del_ne by congruence.
  apply Href. now apply (drop_document_values db id).
Qed.

(** Deleting any document keeps the store well formed. *)
Lemma drop_document_ok db id : store_ok db -> store_ok (drop_document db id).
Proof.
  intros (Hnd & Href & Hcons). repeat split.
  - rewrite drop_document_chunks. now apply keys_filter_nodup.
  - now apply drop_document_referential.
  - rewrite drop_document_documents in H.
    destruct (String.eqb id id0) eqn:E.
    + apply String.eqb_eq in E; subst. now rewrite dict_get_del_eq in H.
    + apply String.eqb_neq in E. rewrite dict_get_del_ne in H by assumption.
      rewrite chunks_of_drop_other by congruence.
      exact (proj1 (Hcons _ _ H)).
  - rewrite drop_document_documents in H.
    destruct (String.eqb id id0) eqn:E.
    + apply String.eqb_eq in E; subst. now rewrite dict_get_del_eq in H.
    + apply String.eqb_neq in E. rewrite dict_get_del_ne in H by assumption.
      rewrite chunks_of_drop_other by congruence.
      exact (proj2 (Hcons _ _ H)).
Qed.

(** *** What a search can return *)

Lemma score_document db q entry h :
  score db q entry = Ok h -> hit_document_id h = document_id (snd entry).
Proof.
  unfold score.
  destruct (if nonempty _ && nonempty q then _ else _) as [x|e];
    cbn [bind]; [|discriminate].
  now intros [= <-].
Qed.

Lemma mapM_score_documents db q : forall l hits,
  mapM (score db q) l = Ok hits ->
  forall h, In h hits ->
  exists c, In c (Dict.values l) /\ hit_document_id h = document_id c.
Proof.
  induction l as [|kv l IH]; intros hits; cbn [mapM].
  - intros [= <-] h [].
  - destruct (score db q kv) as [h0|e] eqn:S; cbn [bind]; [|discriminate].
    destruct (mapM (score db q) l) as [hs|e]; cbn [bind]; [|discriminate].
    intros [= <-] h [<-|Hin].
    + exists (snd kv). split; [now left | now apply (score_document db q)].
    + destruct (IH hs eq_refl h Hin) as [c [Hc Hd]].
      exists c. split; [now right | exact Hd].
Qed.

Lemma insert_hit_in x l h : In h (insert_hit x l) -> h = x \/ In h l.
Proof.
  induction l as [|y l IH]; simpl.
  - intros [H|[]]. now left.
  - destruct (PrimFloat.ltb (distance y) (distance x)); simpl.
    + intros [H|H]; [right; now left|].
      destruct (IH H); [now left | right; now right].
    + intros [H|H]; [now left | now right].
Qed.

Lemma sort_by_distance_in l h : In h (sort_by_distance l) -> In h l.
Proof.
  induction l as [|x l IH]; simpl; [tauto|].
  intros H. destruct (insert_hit_in _ _ _ H); [now left | right; auto].
Qed.

Lemma take_in {A : Type} (n : Z) (l : list A) (a : A) :
  In a (Py.take n l) -> In a l.
Proof.
  unfold Py.take. intros H.
  rewrite <- (firstn_skipn (Z.to_nat (Py.clamp (Z.of_nat (List.length l)) n)) l).
  apply in_or_app. now left.
Qed.

(** A store that holds no chunk of a document never returns one. *)
Lemma search_absent db id q limit hits :
  absent id db -> search db q limit = Ok hits ->
  Forall (fun h => hit_document_id h <> id) hits.
Proof.
  intros Habs. unfold search.
  destruct (mapM (score db q) (chunks db)) as [hs|e] eqn:M; cbn [bind];
    [|discriminate].
  intros [= <-]. apply Forall_forall. intros h Hin.
  apply take_in, sort_by_distance_in in Hin.
  destruct (mapM_score_documents db q _ _ M h Hin) as [c [Hc ->]].
  now apply Habs.
Qed.

Lemma apply_op_absent id op db :
  spares id op -> absent id db -> absent id (apply_op db op).
Proof.
  destruct op as [uuid4 now id' name mime cs es|id']; cbn [spares apply_op].
  - intros Hne Habs c Hc. unfold stored in Hc.
    destruct (fold_put_item_values _ _ _ _ _ _ Hc) as [H|H];
      [now apply Habs | congruence].
  - intros _ Habs c Hc. apply Habs. now apply (drop_document_values db id').
Qed.

Lemma store_ok_new : store_ok database_memory.new.
Proof.
  split; [constructor|]. split; [intros c []|].
  intros id d H. discriminate H.
Qed.

Section StoreClaims.
Context {env : Env}.

(** A failing connection request raises a plain [Exception]. *)
Lemma get_db_connection_raises (w w' : World env) reply e :
  get_db_connection w reply = (Raise e, w') -> exists msg, e = Exception msg.
Proof.
  unfold get_db_connection.
  destruct (_using_memory_db w); cbn [negb andb].
  - destruct (MEMORY_DB_AVAILABLE env); [discriminate|].
    intros [= <- _]. eauto.
  - destruct reply; [discriminate|].
    destruct (MEMORY_DB_AVAILABLE env); [discriminate|].
    intros [= <- _]. eauto.
Qed.

(** C4, as amended.  The empty store satisfies the invariant (every
    document's [total_chunks] is the number of its chunk rows, whose indices
    are 0..N-1 in order, and every chunk belongs to a document), and under the
    in-memory backend the invariant is kept by [_store_in_db] for a document
    that is not yet in the store, given chunk identifiers that are new and
    distinct, and by every [delete_document]. *)
Theorem fresh_store_and_delete_keep_counts
    (w w' : World env) (reply : pg_reply) (uuid4 : nat -> string)
    (now : nat -> Z) (id name : string) (mime : option string)
    (cs : list string) (es : list (list float)) :
  get_db_connection w reply = (Ok MemConn, w') ->
  store_ok (_memory_db w) ->
  store_ok database_memory.new
  /\ (Dict.get id (documents (_memory_db w)) = None ->
      fresh_ids uuid4 (List.length cs) (_memory_db w) ->
      store_ok
        (_memory_db
           (snd (ingest._store_in_db w reply uuid4 now id name mime cs es))))
  /\ store_ok (_memory_db (snd (ingest.delete_document w reply now id))).
Proof.
  intros Hc Hok. split; [apply store_ok_new|]. split.
  - intros Hnew Hfresh.
    destruct (Nat.eq_dec (List.length cs) (List.length es)) as [Hlen|Hlen].
    + rewrite (store_in_db_memory w w' reply _ _ _ _ _ _ _ Hc Hlen).
      cbn [snd set_memory_db _memory_db]. now apply stored_ok.
    + unfold ingest._store_in_db.
      apply Nat.eqb_neq in Hlen. rewrite Hlen. exact Hok.
  - rewrite (delete_document_memory w w' reply now id Hc).
    cbn [snd set_memory_db _memory_db]. now apply drop_document_ok.
Qed.

End StoreClaims.

(** *** Instances *)

(** An instance: the sample store, a second document stored into it, and its
    first document deleted from it. *)
Lemma fresh_store_and_delete_witness :
  store_ok (_memory_db two_chunks)
  /\ store_ok
       (_memory_db
          (snd (ingest._store_in_db two_chunks connection_refused later_uuid4
                  sample_now "doc-2" "more.txt" None ["third"]
                  [[1%float]])))
  /\ store_ok
       (_memory_db
          (snd (ingest.delete_document two_chunks connection_refused
                  sample_now "doc-1"))).
Proof.
  assert (Hfirst : store_ok (_memory_db two_chunks)).
  { destruct (@fresh_store_and_delete_keep_counts offline (@boot offline tt)
                (set_using_memory_db true (emit EvPgConnect (@boot offline tt)))
                connection_refused sample_uuid4 sample_now "doc-1" "notes.txt"
                (Some "text/plain") ["no vector"; "opposite"]
                [[]; [(-1)%float]] eq_refl) as (Hnew & Hstore & _).
    - apply store_ok_new.
    - apply Hstore; [reflexivity|]. split.
      + repeat constructor; simpl; intuition discriminate.
      + intros i _. reflexivity. }
  split; [exact Hfirst|].
  destruct (@fresh_store_and_delete_keep_counts offline two_chunks two_chunks
              connection_refused later_uuid4 sample_now "doc-1" "notes.txt"
              None [] [] eq_refl Hfirst) as (_ & _ & Hdelete).
  destruct (@fresh_store_and_delete_keep_counts offline two_chunks two_chunks
              connection_refused later_uuid4 sample_now "doc-2" "more.txt"
              None ["third"] [[1%float]] eq_refl Hfirst) as (_ & Hstore & _).
  split; [|exact Hdelete].
  apply Hstore; [reflexivity|]. split.
  - repeat constructor; simpl; intuition discriminate.
  - intros i Hi. destruct i as [|i]; [reflexivity|].
    exfalso. simpl in Hi. apply PeanoNat.Nat.succ_lt_mono in Hi.
    inversion Hi.
Defined.

(** C4, as stated, fails when a document is stored twice under one
    identifier: before the second call the row of ["doc-1"] counts its two
    chunks, indexed 0 and 1; after it the row has been replaced by one that
    counts 1 chunk, while three chunk rows, indexed 0, 1, 0, carry the
    identifier. *)
Lemma second_store_breaks_chunk_count :
  (option_map total_chunks
     (Dict.get "doc-1" (documents (_memory_db two_chunks))) = Some 2
   /\ map chunk_index (chunks_of "doc-1" (_memory_db two_chunks)) = [0; 1])
  /\ (option_map total_chunks
        (Dict.get "doc-1"
           (documents
              (_memory_db
                 (snd (ingest._store_in_db two_chunks connection_refused
                         later_uuid4 sample_now "doc-1" "notes.txt"
                         (Some "text/plain") ["again"] [[1%float]])))))
      = Some 1
      /\ map chunk_index
           (chunks_of "doc-1"
              (_memory_db
                 (snd (ingest._store_in_db two_chunks connection_refused
                         later_uuid4 sample_now "doc-1" "notes.txt"
                         (Some "text/plain") ["again"] [[1%float]]))))
         = [0; 1; 0]).
Proof. repeat split; vm_compute; reflexivity. Qed.

(** ** The chunker with a gap of at least 99 between size and overlap *)

Lemma string_get_some s : forall n,
  (n < String.length s)%nat -> exists c, String.get n s = Some c.
Proof.
  induction s as [|a s IH]; intros n Hn; simpl in *; [lia|].
  destruct n as [|n]; [now exists a|].
  apply IH. lia.
Qed.

Lemma index_in_range text i :
  0 <= i < Py.len text -> exists c, Py.index text i = Ok c.
Proof.
  intros [Hlo Hhi]. unfold Py.index.
  replace (i <? 0) with false by (symmetry; apply Z.ltb_ge; lia).
  replace ((i <? 0) || (Py.len text <=? i)) with false.
  - destruct (string_get_some text (Z.to_nat i)) as [c Hc].
    + unfold Py.len in Hhi. lia.
    + exists c. now rewrite Hc.
  - symmetry. apply orb_false_iff. split; [apply Z.ltb_ge | apply Z.leb_gt]; lia.
Qed.

(** A backward scan that stays inside the text does not raise, and what it
    finds lies in the scanned range. *)
Lemma scan_back_in_range text p : forall n i,
  Z.of_nat n <= i + 1 -> i < Py.len text ->
  exists r, ingest.scan_back text p i n = Ok r
            /\ (forall j, r = Some j -> i - Z.of_nat n < j <= i).
Proof.
  induction n as [|n IH]; intros i Hn Hi.
  - exists None. split; [reflexivity | discriminate].
  - cbn [ingest.scan_back].
    destruct (index_in_range text i) as [c Hc]; [lia|].
    rewrite Hc. cbn [bind].
    destruct (p c).
    + exists (Some i). split; [reflexivity|]. intros j [= <-]. lia.
    + destruct (IH (i - 1)) as [r [Hr Hj]]; [lia | lia |].
      exists r. split; [exact Hr|]. intros j Hrj. specialize (Hj j Hrj). lia.
Qed.

(** From a cursor inside the text the cut does not raise, and it lands at
    most 98 characters short of a full window. *)
Lemma cut_advances text chunk_size start :
  0 <= start -> 0 < chunk_size ->
  exists end_, ingest.cut text chunk_size start = Ok end_
               /\ start + chunk_size - 98 <= end_
               /\ start < end_.
Proof.
  intros Hs Hc. unfold ingest.cut.
  destruct (start + chunk_size <? Py.len text) eqn:E.
  - apply Z.ltb_lt in E. unfold ingest.range_back.
    destruct (scan_back_in_range text ingest.sentence_end
                (Z.to_nat (start + chunk_size
                           - Z.max (start + chunk_size - 100) start))
                (start + chunk_size)) as [r [Hr Hj]]; [lia | lia |].
    rewrite Hr. cbn [bind]. destruct r as [j|].
    + exists (j + 1). split; [reflexivity|]. specialize (Hj j eq_refl). lia.
    + destruct (scan_back_in_range text ingest.space
                  (Z.to_nat (start + chunk_size
                             - Z.max (start + chunk_size - 50) start))
                  (start + chunk_size)) as [r [Hr' Hj']]; [lia | lia |].
      rewrite Hr'. cbn [bind]. destruct r as [j|].
      * exists j. split; [reflexivity|]. specialize (Hj' j eq_refl). lia.
      * exists (start + chunk_size). split; [reflexivity | lia].
  - exists (start + chunk_size). split; [reflexivity | lia].
Qed.

Lemma chunk_loop_returns text chunk_size overlap :
  0 <= overlap -> overlap + 99 <= chunk_size ->
  forall fuel chunks start,
    0 <= start -> Py.len text - start <= Z.of_nat fuel ->
    exists out,
      ingest.chunk_loop fuel text chunk_size overlap chunks start
      = Some (Ok out).
Proof.
  intros Ho Hgap. induction fuel as [|fuel IH]; intros chunks start Hs Hf.
  - exists chunks. apply chunk_loop_done. apply Z.ltb_ge. lia.
  - destruct (start <? Py.len text) eqn:E.
    + destruct (cut_advances text chunk_size start) as [e (He & Hlo & _)];
        [lia | lia |].
      rewrite (chunk_loop_pass fuel text chunk_size overlap chunks start e E He).
      apply IH; lia.
    + exists chunks. now apply chunk_loop_done.
Qed.

(** For every text, when the overlap is not negative and is at least 99
    below the chunk size (as with the defaults 1000 and 200), the chunker
    returns a list of chunks within [len(text)] passes of its loop. *)
Theorem chunker_returns_with_wide_gap
    (text : string) (chunk_size overlap : Z) :
  0 <= overlap -> overlap + 99 <= chunk_size ->
  exists chunks,
    ingest._chunk_text (String.length text) text chunk_size overlap
    = Some (Ok chunks).
Proof.
  intros Ho Hgap. unfold ingest._chunk_text.
  destruct (Py.len text <=? chunk_size); [eauto|].
  destruct (chunk_loop_returns text chunk_size overlap Ho Hgap
              (String.length text) [] 0) as [out Hout];
    [lia | unfold Py.len; lia |].
  rewrite Hout. eauto.
Qed.

(** An instance: the defaults. *)
Lemma chunker_returns_witness :
  exists chunks,
    ingest._chunk_text
      (String.length "One. Two. Three.") "One. Two. Three."
      ingest.default_chunk_size ingest.default_overlap
    = Some (Ok chunks).
Proof.
  apply (chunker_returns_with_wide_gap "One. Two. Three."
           ingest.default_chunk_size ingest.default_overlap).
  - unfold ingest.default_overlap. discriminate.
  - unfold ingest.default_overlap, ingest.default_chunk_size. discriminate.
Defined.

(** ** Further properties of the search *)

(** A stored chunk with no embedding, or with an empty one, and any chunk when
    the query embedding is empty, is scored with the distance 1.0 exactly. *)
Theorem missing_embedding_scores_one
    (db : InMemoryDatabase) (q : list float) (cid : string) (c : chunk) :
  Dict.get cid (embeddings db) = None
  \/ Dict.get cid (embeddings db) = Some []
  \/ q = [] ->
  score db q (cid, c)
  = Ok {| hit_content := content c;
          hit_chunk_index := chunk_index c;
          hit_document_id := document_id c;
          distance := 1 |}.
Proof. intros H. now apply (score_without_embedding db q (cid, c)). Qed.

(** An instance: the first chunk of the sample store. *)
Lemma missing_embedding_witness :
  score (_memory_db two_chunks) [1%float]
    ("chunk-0",
     {| chunk_id := "chunk-0"; document_id := "doc-1"; chunk_index := 0;
        content := "no vector"; created_at := 1700000001 |})
  = Ok {| hit_content := "no vector";
          hit_chunk_index := 0;
          hit_document_id := "doc-1";
          distance := 1 |}.
Proof.
  apply (missing_embedding_scores_one (_memory_db two_chunks) [1%float]
           "chunk-0").
  right. left. reflexivity.
Defined.

(** A search with a limit that is not negative returns at most that many
    results. *)
Theorem search_returns_at_most_limit
    (db : InMemoryDatabase) (q : list float) (limit : Z) (hits : list hit) :
  0 <= limit -> search db q limit = Ok hits ->
  Z.of_nat (List.length hits) <= limit.
Proof.
  intros Hl. unfold search.
  destruct (mapM (score db q) (chunks db)) as [hs|e]; cbn [bind];
    [|discriminate].
  intros [= <-]. unfold Py.take.
  pose proof (firstn_le_length
                (Z.to_nat (Py.clamp (Z.of_nat
                                       (List.length (sort_by_distance hs)))
                             limit))
                (sort_by_distance hs)) as L.
  unfold Py.clamp in *.
  replace (limit <? 0) with false in * by (symmetry; apply Z.ltb_ge; lia).
  lia.
Qed.

(** An instance: the sample store searched with the limit 1. *)
Lemma search_limit_witness :
  Z.of_nat
    (List.length
       [ {| hit_content := "no vector"; hit_chunk_index := 0;
            hit_document_id := "doc-1"; distance := 1 |} ]) <= 1.
Proof.
  apply (search_returns_at_most_limit (_memory_db two_chunks) [1%float] 1).
  - discriminate.
  - vm_compute. reflexivity.
Defined.

(** ** The embedding providers *)

Section Embedding.
Context {env : Env}.
Variable ai : Providers.
Implicit Types w : World env.

Lemma gemini_embed_all_length texts : forall w embeddings w',
  ingest.gemini_embed_all ai w texts = (Ok embeddings, w') ->
  List.length embeddings = List.length texts.
Proof.
  induction texts as [|text texts IH]; intros w embeddings w';
    cbn [ingest.gemini_embed_all].
  - now intros [= <- _].
  - destruct (gemini_embed_content ai _) as [e|x]; [|discriminate].
    destruct (ingest.gemini_embed_all ai _ texts) as [[es|x] w1] eqn:R;
      [|discriminate].
    intros [= <- _]. cbn [List.length]. f_equal. exact (IH _ _ _ R).
Qed.

Lemma embed_texts_length w texts embeddings w' :
  ingest._embed_texts ai w texts = (Ok embeddings, w') ->
  List.length embeddings = List.length texts.
Proof.
  unfold ingest._embed_texts.
  assert (G : forall w0,
             (if GROQ_AVAILABLE ai
              then (Ok (map (groq_features ai) texts), w0)
              else (Raise ingest.no_embedding_service, w0))
             = (Ok embeddings, w') ->
             List.length embeddings = List.length texts).
  { intros w0. destruct (GROQ_AVAILABLE ai); [|discriminate].
    intros [= <- _]. apply length_map. }
  destruct (GEMINI_AVAILABLE_FOR_USE ai); [|apply G].
  destruct (ingest.gemini_embed_all ai w texts) as [[es|x] w1] eqn:R.
  - intros [= <- _]. exact (gemini_embed_all_length _ _ _ _ R).
  - apply G.
Qed.

(** Whenever [_embed_texts] returns, it returns one embedding per text. *)
Theorem embed_texts_one_per_text w texts embeddings w' :
  ingest._embed_texts ai w texts = (Ok embeddings, w') ->
  List.length embeddings = List.length texts.
Proof. apply embed_texts_length. Qed.

(** With Groq configured [_embed_texts] never raises, whatever Gemini does;
    when it raises, Groq is not configured and the error is the response 502;
    and a result that is not entirely Gemini's is entirely Groq's: the two
    are never mixed. *)
Theorem embed_texts_falls_back_as_a_whole w texts :
  (GROQ_AVAILABLE ai = true ->
   exists embeddings,
     fst (ingest._embed_texts ai w texts) = Ok embeddings)
  /\ (forall e,
        fst (ingest._embed_texts ai w texts) = Raise e ->
        GROQ_AVAILABLE ai = false /\ e = ingest.no_embedding_service)
  /\ (forall embeddings,
        fst (ingest._embed_texts ai w texts) = Ok embeddings ->
        fst (ingest.gemini_embed_all ai w texts) = Ok embeddings
        \/ embeddings = map (groq_features ai) texts).
Proof.
  unfold ingest._embed_texts.
  destruct (GEMINI_AVAILABLE_FOR_USE ai);
    [destruct (ingest.gemini_embed_all ai w texts) as [[es|x] w1]|];
    destruct (GROQ_AVAILABLE ai); cbn [fst];
    (split; [intros H; try discriminate H; eauto|]);
    (split; [intros e H; try discriminate H;
             injection H as <-; now split|]);
    intros embeddings H; try discriminate H; injection H as <-; auto.
Qed.

End Embedding.

(** An instance: two texts embedded by the hand-built scheme. *)
Lemma embed_texts_one_per_text_witness :
  List.length [[1%float; 0%float]; [1%float; 0%float]]
  = List.length ["first"; "second"].
Proof.
  apply (@embed_texts_one_per_text offline groq_only (@boot offline tt)
           ["first"; "second"] _ (@boot offline tt)).
  reflexivity.
Defined.

(** An instance: Gemini embeds the first text and refuses the second, and the
    result is Groq's for both. *)
Lemma embed_texts_falls_back_witness :
  (exists embeddings,
     fst (ingest._embed_texts flaky (@boot offline tt) ["first"; "second"])
     = Ok embeddings)
  /\ (fst (ingest.gemini_embed_all flaky (@boot offline tt)
             ["first"; "second"])
      = Ok [[1%float; 0%float]; [1%float; 0%float]]
      \/ [[1%float; 0%float]; [1%float; 0%float]]
         = map (groq_features flaky) ["first"; "second"]).
Proof.
  destruct (@embed_texts_falls_back_as_a_whole offline flaky
              (@boot offline tt) ["first"; "second"]) as (A & _ & C).
  split; [apply A; reflexivity | apply C; reflexivity].
Defined.

(** ** Answer synthesis *)

Section Synthesis.
Context {env : Env}.
Variable ai : Providers.
Implicit Types w : World env.

(** [_synthesize_answer] asks Groq first and, when Groq answers, nobody else;
    it calls each provider at most once; and the only error it raises is the
    response 502. *)
Theorem synthesize_asks_groq_first w question chunks max_tokens :
  (forall a,
     GROQ_AVAILABLE ai = true ->
     groq_chat_completion ai (query.prompt_of question chunks) max_tokens
     = Ok a ->
     query._synthesize_answer ai w question chunks max_tokens
     = (Ok a,
        emit (EvGroqChat (query.prompt_of question chunks) max_tokens) w))
  /\ (forall e,
        fst (query._synthesize_answer ai w question chunks max_tokens)
        = Raise e ->
        e = query.no_generation_service)
  /\ (generations
        (snd (query._synthesize_answer ai w question chunks max_tokens))
      <= generations w + 2)%nat.
Proof.
  unfold query._synthesize_answer, generations.
  split; [intros a -> ->; reflexivity|].
  destruct (GROQ_AVAILABLE ai);
    [destruct (groq_chat_completion ai _ _)|];
    destruct (GEMINI_AVAILABLE_FOR_USE ai);
    try destruct (gemini_generate_content ai _ _);
    cbn [fst snd emit trace filter is_generate List.length];
    (split; [intros e' H; try discriminate H; now injection H as <- | lia]).
Qed.

End Synthesis.

(** An instance: Groq answers, and the trace shows its call alone. *)
Lemma synthesize_witness :
  query._synthesize_answer groq_only (@boot offline tt)
    "What color is the sky?" [] 500
  = (Ok "Blue.",
     emit (EvGroqChat (query.prompt_of "What color is the sky?" []) 500)
       (@boot offline tt)).
Proof.
  destruct (@synthesize_asks_groq_first offline groq_only (@boot offline tt)
              "What color is the sky?" [] 500) as (A & _ & _).
  apply A; reflexivity.
Defined.

(** ** The endpoints and their errors *)

Section Endpoints.
Context {env : Env}.
Variable ai : Providers.
Implicit Types w : World env.

Lemma upload_errors_http {A : Type} (e e' : exn) :
  @ingest.upload_errors A (Raise e) = Raise e' -> is_http e'.
Proof.
  destruct e; cbn [ingest.upload_errors]; intros [= <-]; red; eauto.
Qed.

Lemma ask_errors_http {A : Type} (e e' : exn) :
  @query.ask_errors A (Raise e) = Raise e' -> is_http e'.
Proof.
  destruct e; cbn [query.ask_errors]; intros [= <-]; red; eauto.
Qed.

Lemma chunk_text_default_returns text :
  exists chunks,
    ingest._chunk_text (String.length text) text ingest.default_chunk_size
      ingest.default_overlap
    = Some (Ok chunks).
Proof.
  unfold ingest._chunk_text.
  destruct (Py.len text <=? ingest.default_chunk_size); [eauto|].
  destruct (chunk_loop_returns text ingest.default_chunk_size
              ingest.default_overlap) with (fuel := String.length text)
              (chunks := @nil string) (start := 0) as [out Hout];
    try (unfold ingest.default_overlap, ingest.default_chunk_size; lia);
    [unfold Py.len; lia|].
  rewrite Hout. eauto.
Qed.

Lemma parse_document_raises
    (name : string) (mime file_b64 text : option string) (e : exn) :
  ingest._parse_document ai name mime file_b64 text = Raise e ->
  exists msg, e = ValueError msg.
Proof.
  unfold ingest._parse_document.
  destruct text as [[|c t]|]; cbn [Py.truthy]; try discriminate;
    (destruct file_b64 as [[|c' b]|]; cbn [Py.truthy];
     try (intros [= <-]; eauto);
     match goal with
     | |- context [decode_file ?a ?b ?c ?d] =>
         destruct (decode_file a b c d); [discriminate | intros [= <-]; eauto]
     end).
Qed.

(** [_parse_document] returns a non-empty [text] as it is, without looking at
    the file; it asks for one of the two when both are missing or empty; and
    whatever goes wrong while a file is decoded, it raises [ValueError]. *)
Theorem parse_document_prefers_text
    (name : string) (mime file_b64 text : option string) :
  (forall t, text = Some t -> t <> "" ->
             ingest._parse_document ai name mime file_b64 text = Ok t)
  /\ (text = None \/ text = Some "" ->
      file_b64 = None \/ file_b64 = Some "" ->
      ingest._parse_document ai name mime file_b64 text
      = Raise (ValueError "Either text or file_b64 must be provided"))
  /\ (forall e,
        ingest._parse_document ai name mime file_b64 text = Raise e ->
        exists msg, e = ValueError msg).
Proof.
  split; [|split].
  - unfold ingest._parse_document.
    intros t -> Ht. destruct t; [contradiction | reflexivity].
  - unfold ingest._parse_document.
    intros [->| ->] [->| ->]; reflexivity.
  - apply parse_document_raises.
Qed.

(** A request whose document cannot be read is answered with the response
    400, before any provider or database is contacted. *)
Theorem upload_rejects_unreadable_input
    (fuel : nat) w (reply : pg_reply) (uuid4 : nat -> string)
    (now : nat -> Z) (body : ingest.UploadDocRequest) (e : exn) :
  ingest._parse_document ai (ingest.req_filename body)
    (ingest.req_mime_type body) (ingest.req_file_b64 body)
    (ingest.req_text body) = Raise e ->
  exists msg,
    e = ValueError msg
    /\ ingest.ingest_upload ai fuel w reply uuid4 now body
       = Some (Raise (HTTPException 400 msg), w).
Proof.
  intros Hp.
  destruct (parse_document_raises _ _ _ _ _ Hp) as [msg ->].
  exists msg. split; [reflexivity|].
  unfold ingest.ingest_upload. now rewrite Hp.
Qed.

(** [ingest_upload] lets no exception escape that is not an HTTP response,
    and with as many passes allowed to the chunker as the text has characters
    it always answers. *)
Theorem upload_answers_with_http_errors
    w (reply : pg_reply) (uuid4 : nat -> string) (now : nat -> Z)
    (body : ingest.UploadDocRequest) :
  (forall fuel e w',
     ingest.ingest_upload ai fuel w reply uuid4 now body = Some (Raise e, w') ->
     is_http e)
  /\ (forall text,
        ingest._parse_document ai (ingest.req_filename body)
          (ingest.req_mime_type body) (ingest.req_file_b64 body)
          (ingest.req_text body) = Ok text ->
        exists r,
          ingest.ingest_upload ai (String.length text) w reply uuid4 now body
          = Some r).
Proof.
  split.
  - intros fuel e w'. unfold ingest.ingest_upload.
    destruct (ingest._parse_document ai _ _ _ _) as [text|x].
    + destruct (ingest._chunk_text fuel text _ _) as [[chunks|x]|];
        [| |discriminate].
      * destruct (ingest._embed_texts ai w chunks) as [[embeddings|x] w1].
        -- destruct (ingest._store_in_db w1 reply _ now _ _ _ chunks embeddings)
             as [[[]|x] w2]; [discriminate|].
           intros [= H _]. exact (upload_errors_http _ _ H).
        -- intros [= H _]. exact (upload_errors_http _ _ H).
      * intros [= H _]. exact (upload_errors_http _ _ H).
    + intros [= H _]. exact (upload_errors_http _ _ H).
  - intros text Hp. unfold ingest.ingest_upload. rewrite Hp.
    destruct (chunk_text_default_returns text) as [chunks ->].
    destruct (ingest._embed_texts ai w chunks) as [[embeddings|x] w1];
      [|eauto].
    destruct (ingest._store_in_db w1 reply _ now _ _ _ chunks embeddings)
      as [[[]|x] w2]; eauto.
Qed.

(** [query_ask] lets no exception escape that is not an HTTP response. *)
Theorem ask_answers_with_http_errors
    w (reply : pg_reply) (body : query.QueryRequest) (e : exn) :
  fst (query.query_ask ai w reply body) = Raise e -> is_http e.
Proof.
  unfold query.query_ask.
  destruct (query._embed_text ai w _) as [[q|x] w1];
    [|intros H; exact (ask_errors_http _ _ H)].
  destruct (get_db_connection w1 reply) as [[c|x] w2];
    [|intros H; exact (ask_errors_http _ _ H)].
  destruct (run_fetch w2 c _ _) as [[|r rows]|x];
    [discriminate| |intros H; exact (ask_errors_http _ _ H)].
  destruct (mapM query.source_of_row (r :: rows)) as [sources|x];
    [|intros H; exact (ask_errors_http _ _ H)].
  destruct (query._synthesize_answer ai w2 _ sources _) as [[a|x] w3];
    [discriminate | intros H; exact (ask_errors_http _ _ H)].
Qed.

End Endpoints.

(** An instance: a request with neither text nor file. *)
Lemma upload_rejects_witness :
  exists msg,
    ValueError "Either text or file_b64 must be provided" = ValueError msg
    /\ ingest.ingest_upload groq_only 0 (@boot offline tt) connection_refused
         sample_uuid4 sample_now
         {| ingest.req_filename := "notes.txt";
            ingest.req_mime_type := None;
            ingest.req_file_b64 := None;
            ingest.req_text := None |}
       = Some (Raise (HTTPException 400 msg), @boot offline tt).
Proof.
  apply (@upload_rejects_unreadable_input offline groq_only 0
           (@boot offline tt) connection_refused sample_uuid4 sample_now
           {| ingest.req_filename := "notes.txt";
              ingest.req_mime_type := None;
              ingest.req_file_b64 := None;
              ingest.req_text := None |}).
  reflexivity.
Defined.

(** An instance: a text given beside a file that cannot be decoded. *)
Lemma parse_document_witness :
  ingest._parse_document flaky "notes.pdf" (Some "application/pdf")
    (Some "not base64") (Some "The sky is blue.")
  = Ok "The sky is blue.".
Proof.
  destruct (parse_document_prefers_text flaky "notes.pdf"
              (Some "application/pdf") (Some "not base64")
              (Some "The sky is blue.")) as (A & _ & _).
  apply A; [reflexivity | discriminate].
Defined.

(** An instance: a short text uploaded while no AI service is configured is
    answered, with the response 502. *)
Lemma upload_answers_witness :
  is_http
    (HTTPException 502
       "No AI service available for embeddings. Please configure GROQ_API_KEY or GEMINI_API_KEY.")
  /\ exists r,
       ingest.ingest_upload no_ai (String.length "The sky is blue.")
         (@boot offline tt) connection_refused sample_uuid4 sample_now
         {| ingest.req_filename := "notes.txt";
            ingest.req_mime_type := None;
            ingest.req_file_b64 := None;
            ingest.req_text := Some "The sky is blue." |}
       = Some r.
Proof.
  destruct (@upload_answers_with_http_errors offline no_ai (@boot offline tt)
              connection_refused sample_uuid4 sample_now
              {| ingest.req_filename := "notes.txt";
                 ingest.req_mime_type := None;
                 ingest.req_file_b64 := None;
                 ingest.req_text := Some "The sky is blue." |}) as [A B].
  split.
  - apply (A 16%nat _ (@boot offline tt)). reflexivity.
  - apply B. reflexivity.
Defined.

(** An instance: a question asked while no AI service is configured. *)
Lemma ask_answers_witness :
  is_http
    (HTTPException 502
       "No AI service available for embeddings. Please configure GROQ_API_KEY or GEMINI_API_KEY.").
Proof.
  apply (@ask_answers_with_http_errors offline no_ai (@boot offline tt)
           connection_refused
           {| query.question := "What color is the sky?";
              query.max_chunks := 5;
              query.max_tokens := 500 |}).
  reflexivity.
Defined.

(** ** The order and the number of the search results *)

Lemma mapM_length {A B : Type} (f : A -> result B) : forall l bs,
  mapM f l = Ok bs -> List.length bs = List.length l.
Proof.
  induction l as [|a l IH]; intros bs; cbn [mapM].
  - now intros [= <-].
  - destruct (f a) as [b|e]; cbn [bind]; [|discriminate].
    destruct (mapM f l) as [bs'|e]; cbn [bind]; [|discriminate].
    intros [= <-]. cbn [List.length]. f_equal. now apply IH.
Qed.

Lemma insert_hit_perm x l : Permutation (insert_hit x l) (x :: l).
Proof.
  induction l as [|y l IH]; cbn [insert_hit]; [reflexivity|].
  destruct (PrimFloat.ltb (distance y) (distance x)); [|reflexivity].
  rewrite IH. apply perm_swap.
Qed.

Lemma sort_by_distance_perm l : Permutation (sort_by_distance l) l.
Proof.
  induction l as [|x l IH]; cbn [sort_by_distance fold_right]; [reflexivity|].
  rewrite insert_hit_perm. now constructor.
Qed.

Lemma take_all {A : Type} (n : Z) (l : list A) :
  Z.of_nat (List.length l) <= n -> Py.take n l = l.
Proof.
  intros H. unfold Py.take, Py.clamp.
  replace (n <? 0) with false by (symmetry; apply Z.ltb_ge; lia).
  apply firstn_all2. lia.
Qed.

Lemma take_length {A : Type} (n : Z) (l : list A) :
  0 <= n ->
  List.length (Py.take n l) = Nat.min (Z.to_nat n) (List.length l).
Proof.
  intros H. unfold Py.take, Py.clamp.
  replace (n <? 0) with false by (symmetry; apply Z.ltb_ge; lia).
  rewrite length_firstn. lia.
Qed.

(** What every hit of a successful scoring pass tells of its chunk. *)
Lemma mapM_score_summary db q : forall l hits,
  mapM (score db q) l = Ok hits ->
  map hit_summary hits = map chunk_summary (Dict.values l).
Proof.
  induction l as [|kv l IH]; intros hits; cbn [mapM].
  - now intros [= <-].
  - destruct (score db q kv) as [h|e] eqn:S; cbn [bind]; [|discriminate].
    destruct (mapM (score db q) l) as [hs|e]; cbn [bind]; [|discriminate].
    intros [= <-]. cbn [map Dict.values]. f_equal; [|now apply IH].
    unfold score in S.
    destruct (if nonempty _ && nonempty q then _ else _) as [d|e];
      cbn [bind] in S; [|discriminate].
    now injection S as <-.
Qed.

(** With a limit that is not negative the search returns the limit's worth
    of results, or all the stored chunks when there are fewer. *)
Theorem search_returns_min_of_limit_and_stored
    (db : InMemoryDatabase) (q : list float) (limit : Z) (hits : list hit) :
  0 <= limit -> search db q limit = Ok hits ->
  List.length hits = Nat.min (Z.to_nat limit) (List.length (chunks db)).
Proof.
  intros Hl. unfold search.
  destruct (mapM (score db q) (chunks db)) as [hs|e] eqn:M; cbn [bind];
    [|discriminate].
  intros [= <-]. rewrite take_length by assumption.
  rewrite (Permutation_length (sort_by_distance_perm hs)).
  now rewrite (mapM_length _ _ _ M).
Qed.

(** With a limit that covers the store, the search returns every stored chunk
    exactly once: the contents, indices and document ids of the results are a
    rearrangement of those of the stored chunks. *)
Theorem search_returns_every_chunk_once
    (db : InMemoryDatabase) (q : list float) (limit : Z) (hits : list hit) :
  Z.of_nat (List.length (chunks db)) <= limit ->
  search db q limit = Ok hits ->
  Permutation (map hit_summary hits)
    (map chunk_summary (Dict.values (chunks db))).
Proof.
  intros Hl. unfold search.
  destruct (mapM (score db q) (chunks db)) as [hs|e] eqn:M; cbn [bind];
    [|discriminate].
  intros [= <-]. rewrite take_all.
  - rewrite <- (mapM_score_summary db q _ _ M).
    apply Permutation_map, sort_by_distance_perm.
  - rewrite (Permutation_length (sort_by_distance_perm hs)).
    now rewrite (mapM_length _ _ _ M).
Qed.

Lemma sort_by_distance_ties l :
  (forall h, In h l -> distance h = 1%float) -> sort_by_distance l = l.
Proof.
  induction l as [|x l IH]; intros H; cbn [sort_by_distance fold_right];
    [reflexivity|].
  fold (sort_by_distance l). rewrite IH by (intros; apply H; now right).
  destruct l as [|y l]; [reflexivity|]. cbn [insert_hit].
  rewrite (H x) by now left. rewrite (H y) by (right; now left).
  reflexivity.
Qed.

(** When no stored chunk has a usable embedding, or the query embedding is
    empty, every chunk ties at the distance 1.0 and the search returns the
    first [limit] chunks in the order in which they were stored. *)
Theorem search_keeps_storage_order_on_ties
    (db : InMemoryDatabase) (q : list float) (limit : Z) :
  q = []
  \/ (forall kv, In kv (chunks db) ->
        Dict.get (fst kv) (embeddings db) = None
        \/ Dict.get (fst kv) (embeddings db) = Some []) ->
  search db q limit = Ok (Py.take limit (map hit_at_one (chunks db))).
Proof.
  intros H. unfold search.
  assert (M : mapM (score db q) (chunks db)
              = Ok (map hit_at_one (chunks db))).
  { assert (G : forall l, (forall kv, In kv l -> In kv (chunks db)) ->
                  mapM (score db q) l = Ok (map hit_at_one l)).
    { induction l as [|kv l IH]; intros Hin; [reflexivity|].
      cbn [mapM map]. rewrite (score_without_embedding db q kv).
      - cbn [bind]. rewrite IH by (intros; apply Hin; now right).
        reflexivity.
      - destruct H as [H|H]; [now right; right|].
        destruct (H kv) as [E|E]; [apply Hin; now left | now left |].
        right. now left. }
    now apply G. }
  rewrite M. cbn [bind]. rewrite sort_by_distance_ties; [reflexivity|].
  intros h Hh. apply in_map_iff in Hh. now destruct Hh as [kv [<- _]].
Qed.

(** *** Ascending distances *)

Lemma SFcompare_lt_gt x y :
  SFcompare x y = Some Lt -> SFcompare y x = Some Gt.
Proof.
  destruct x as [sx|sx| |sx mx ex], y as [sy|sy| |sy my ey]; cbn;
    try discriminate;
    try (destruct sx; try destruct sy; (discriminate || reflexivity)).
  change (Pos.compare_cont Eq mx my) with (Pos.compare mx my).
  change (Pos.compare_cont Eq my mx) with (Pos.compare my mx).
  rewrite (Z.compare_antisym ex ey), (Pos.compare_antisym mx my).
  destruct sx, sy; try discriminate; try reflexivity;
    destruct (ex ?= ey)%Z; cbn; try discriminate; try reflexivity;
    destruct (mx ?= my)%positive; cbn; try discriminate; reflexivity.
Qed.

(** [<] on floats is asymmetric, NaN included. *)
Lemma ltb_asym (x y : float) :
  PrimFloat.ltb x y = true -> PrimFloat.ltb y x = false.
Proof.
  rewrite !ltb_spec. unfold SFltb.
  destruct (SFcompare (Prim2SF x) (Prim2SF y)) as [[]|] eqn:E;
    try discriminate.
  intros _. now rewrite (SFcompare_lt_gt _ _ E).
Qed.

Lemma insert_hit_head y x l :
  HdRel not_nearer y l -> not_nearer y x ->
  HdRel not_nearer y (insert_hit x l).
Proof.
  intros Hl Hx. destruct l as [|z l]; cbn [insert_hit].
  - now constructor.
  - destruct (PrimFloat.ltb (distance z) (distance x)); constructor;
      [now inversion Hl | exact Hx].
Qed.

Lemma insert_hit_sorted x l :
  Sorted not_nearer l -> Sorted not_nearer (insert_hit x l).
Proof.
  induction l as [|y l IH]; intros Hs; cbn [insert_hit].
  - repeat constructor.
  - inversion Hs as [|? ? Hs' Hhd]; subst.
    destruct (PrimFloat.ltb (distance y) (distance x)) eqn:E.
    + constructor; [now apply IH|].
      apply insert_hit_head; [exact Hhd|].
      unfold not_nearer. now apply ltb_asym.
    + constructor; [exact Hs|]. constructor. exact E.
Qed.

Lemma sort_by_distance_sorted l : Sorted not_nearer (sort_by_distance l).
Proof.
  induction l as [|x l IH]; cbn [sort_by_distance fold_right];
    [constructor|].
  now apply insert_hit_sorted.
Qed.

Lemma firstn_sorted {A : Type} (R : A -> A -> Prop) : forall n l,
  Sorted R l -> Sorted R (firstn n l).
Proof.
  induction n as [|n IH]; intros l Hs; [constructor|].
  destruct l as [|a l]; [constructor|].
  inversion Hs as [|? ? Hs' Hhd]; subst. cbn [firstn].
  constructor; [now apply IH|].
  destruct n; [constructor|].
  destruct l as [|b l]; [constructor|].
  cbn [firstn]. constructor. now inversion Hhd.
Qed.

(** The results of a search are in ascending order of distance: no result is
    strictly nearer to the query than the one before it. *)
Theorem search_results_ascend
    (db : InMemoryDatabase) (q : list float) (limit : Z) (hits : list hit) :
  search db q limit = Ok hits -> Sorted not_nearer hits.
Proof.
  unfold search.
  destruct (mapM (score db q) (chunks db)) as [hs|e]; cbn [bind];
    [|discriminate].
  intros [= <-]. unfold Py.take.
  apply firstn_sorted, sort_by_distance_sorted.
Qed.

(** An instance: the sample store, whose two chunks come at the distances
    1.0 and 2.0. *)
Lemma search_results_ascend_witness :
  Sorted not_nearer
    [ {| hit_content := "no vector"; hit_chunk_index := 0;
         hit_document_id := "doc-1"; distance := 1 |};
      {| hit_content := "opposite"; hit_chunk_index := 1;
         hit_document_id := "doc-1"; distance := 2 |} ].
Proof.
  apply (search_results_ascend (_memory_db two_chunks) [1%float] 5).
  vm_compute. reflexivity.
Defined.

(** An instance: the sample store searched with the limit 1. *)
Lemma search_min_witness :
  List.length
    [ {| hit_content := "no vector"; hit_chunk_index := 0;
         hit_document_id := "doc-1"; distance := 1 |} ]
  = Nat.min (Z.to_nat 1) (List.length (chunks (_memory_db two_chunks))).
Proof.
  apply (search_returns_min_of_limit_and_stored (_memory_db two_chunks)
           [1%float] 1).
  - discriminate.
  - vm_compute. reflexivity.
Defined.

(** An instance: the sample store searched with the limit 5. *)
Lemma search_every_chunk_witness :
  Permutation
    (map hit_summary
       [ {| hit_content := "no vector"; hit_chunk_index := 0;
            hit_document_id := "doc-1"; distance := 1 |};
         {| hit_content := "opposite"; hit_chunk_index := 1;
            hit_document_id := "doc-1"; distance := 2 |} ])
    (map chunk_summary (Dict.values (chunks (_memory_db two_chunks)))).
Proof.
  apply (search_returns_every_chunk_once (_memory_db two_chunks)
           [1%float] 5).
  - vm_compute. discriminate.
  - vm_compute. reflexivity.
Defined.

(** An instance: the sample store searched with an empty query embedding. *)
Lemma search_ties_witness :
  search (_memory_db two_chunks) [] 5
  = Ok (Py.take 5 (map hit_at_one (chunks (_memory_db two_chunks)))).
Proof.
  apply (search_keeps_storage_order_on_ties (_memory_db two_chunks) [] 5).
  left. reflexivity.
Defined.

(** ** Connecting and starting up *)

Section Connecting.
Context {env : Env}.
Implicit Types w : World env.

(** While the flag is unset every connection request contacts PostgreSQL
    once.  A connection that succeeds is not remembered: the flag stays unset.
    The flag becomes set exactly when the contact fails and the in-memory
    database is available, and the request fails exactly when the contact
    fails and it is not. *)
Theorem unset_flag_contacts_postgres_once w (reply : pg_reply) :
  _using_memory_db w = false ->
  connects (snd (get_db_connection w reply)) = S (connects w)
  /\ (reply = Connected ->
      get_db_connection w reply = (Ok PgConn, emit EvPgConnect w))
  /\ (_using_memory_db (snd (get_db_connection w reply)) = true
      <-> (exists e, reply = Refused e) /\ MEMORY_DB_AVAILABLE env = true)
  /\ ((exists e, fst (get_db_connection w reply) = Raise e)
      <-> (exists e, reply = Refused e) /\ MEMORY_DB_AVAILABLE env = false).
Proof.
  intros Hflag. unfold get_db_connection. rewrite Hflag. cbn [negb].
  destruct reply as [|x]; [|destruct (MEMORY_DB_AVAILABLE env)];
    cbn [fst snd]; unfold connects; cbn [trace emit set_using_memory_db
                                          _using_memory_db filter is_connect
                                          List.length];
    (split; [reflexivity|]); (split; [try discriminate; reflexivity|]);
    split; split;
    try (intros [[e H] _]; discriminate H);
    try (intros [_ H]; discriminate H);
    try (intros [e H]; discriminate H);
    try (intros H; rewrite Hflag in H; discriminate H);
    try (intros _); eauto.
Qed.

(** Where the in-memory database is available [init_database] never raises,
    whatever PostgreSQL does; it never touches the in-memory data; and once
    the flag is set it does nothing at all. *)
Theorem init_database_cannot_fail_with_fallback w (reply : pg_reply) :
  MEMORY_DB_AVAILABLE env = true ->
  fst (init_database w reply) = Ok tt
  /\ _memory_db (snd (init_database w reply)) = _memory_db w
  /\ (_using_memory_db w = true -> init_database w reply = (Ok tt, w)).
Proof.
  intros Hmem. unfold init_database. rewrite Hmem.
  destruct (_using_memory_db w); cbn [negb].
  - repeat split.
  - cbv zeta. destruct reply as [|x].
    + destruct (pg_run (durable (emit EvPgConnect w)) _) as [d [[]|x]].
      * destruct (pg_execute env d _ _); repeat split; discriminate.
      * repeat split; discriminate.
    + repeat split; discriminate.
Qed.

(** When the tables and the plain index have been created, a failure to
    create the vector index is not an error: [init_database] succeeds and
    PostgreSQL stays the backend. *)
Theorem init_database_tolerates_missing_vector_index w (d : pg_db env) :
  _using_memory_db w = false ->
  pg_run (durable (emit EvPgConnect w))
    [(create_documents_sql, []); (create_document_chunks_sql, []);
     (create_index_sql, [])] = (d, Ok tt) ->
  fst (init_database w Connected) = Ok tt
  /\ _using_memory_db (snd (init_database w Connected)) = false.
Proof.
  intros Hflag Hrun. unfold init_database. rewrite Hflag. cbn [negb].
  cbv zeta. rewrite Hrun.
  destruct (pg_execute env d _ _); split; try reflexivity; exact Hflag.
Qed.

End Connecting.

(** An instance: PostgreSQL refuses the first connection of the process. *)
Lemma unset_flag_witness :
  connects (snd (get_db_connection (@boot offline tt) connection_refused))
  = S (connects (@boot offline tt))
  /\ _using_memory_db
       (snd (get_db_connection (@boot offline tt) connection_refused)) = true.
Proof.
  destruct (@unset_flag_contacts_postgres_once offline (@boot offline tt)
              connection_refused eq_refl) as (A & _ & C & _).
  split; [exact A|]. apply C. split; [|reflexivity].
  exists (Exception "connection refused"). reflexivity.
Defined.

(** An instance: start-up while PostgreSQL refuses connections. *)
Lemma init_database_witness :
  fst (init_database (@boot offline tt) connection_refused) = Ok tt
  /\ _memory_db (snd (init_database (@boot offline tt) connection_refused))
     = _memory_db (@boot offline tt).
Proof.
  destruct (@init_database_cannot_fail_with_fallback offline
              (@boot offline tt) connection_refused eq_refl) as (A & B & _).
  split; [exact A | exact B].
Defined.

(** An instance: start-up on a server without pgvector, with no fallback. *)
Lemma init_database_vector_index_witness :
  fst (init_database (@boot no_pgvector []) Connected) = Ok tt
  /\ _using_memory_db (snd (init_database (@boot no_pgvector []) Connected))
     = false.
Proof.
  apply (@init_database_tolerates_missing_vector_index no_pgvector
           (@boot no_pgvector [])
           [create_index_sql; create_document_chunks_sql;
            create_documents_sql]).
  - reflexivity.
  - vm_compute. reflexivity.
Defined.

(** ** Chunks and their embeddings *)

Lemma put_chunk_embedded db now cid doc idx text e :
  embedded db -> embedded (put_chunk db now cid doc idx text e).
Proof.
  intros H k. unfold put_chunk. cbn [chunks embeddings].
  destruct (String.eqb cid k) eqn:E.
  - apply String.eqb_eq in E. subst k. rewrite !dict_get_set_eq.
    split; discriminate.
  - apply String.eqb_neq in E. rewrite !dict_get_set_ne by assumption.
    apply H.
Qed.

Lemma remove_chunk_embedded db k0 :
  embedded db -> embedded (remove_chunk db k0).
Proof.
  intros H k. unfold remove_chunk. cbn [chunks embeddings].
  destruct (String.eqb k0 k) eqn:E.
  - apply String.eqb_eq in E. subst k. rewrite dict_get_del_eq.
    unfold Dict.mem.
    destruct (Dict.get k0 (embeddings db)) eqn:G.
    + now rewrite dict_get_del_eq.
    + now rewrite G.
  - apply String.eqb_neq in E. rewrite dict_get_del_ne by assumption.
    destruct (Dict.mem k0 (embeddings db));
      [rewrite dict_get_del_ne by assumption|]; apply H.
Qed.

Lemma stored_embedded db uuid4 now id name mime cs es :
  embedded db -> embedded (stored db uuid4 now id name mime cs es).
Proof.
  intros H. unfold stored.
  assert (G : forall items d, embedded d ->
                embedded (fold_left (put_item uuid4 now id) items d)).
  { induction items as [|it items IH]; intros d Hd; [exact Hd|].
    cbn [fold_left]. apply IH. now apply put_chunk_embedded. }
  apply G. exact H.
Qed.

Lemma drop_document_embedded db id :
  embedded db -> embedded (drop_document db id).
Proof.
  intros H.
  assert (G : forall ids d, embedded d ->
                embedded (fold_left remove_chunk ids d)).
  { induction ids as [|k ids IH]; intros d Hd; [exact Hd|].
    cbn [fold_left]. apply IH. now apply remove_chunk_embedded. }
  unfold drop_document.
  destruct (Dict.mem id _); [|now apply G].
  intros k. cbn [chunks embeddings]. now apply G.
Qed.

(** Under the in-memory backend the chunks and the embeddings stay stored
    under the same keys: the store step writes an embedding with every chunk,
    and the deletion removes the embedding of every chunk it removes. *)
Theorem chunks_and_embeddings_go_together
    {env : Env} (w w' : World env) (reply : pg_reply) (uuid4 : nat -> string)
    (now : nat -> Z) (id name : string) (mime : option string)
    (cs : list string) (es : list (list float)) :
  get_db_connection w reply = (Ok MemConn, w') ->
  embedded (_memory_db w) ->
  embedded
    (_memory_db
       (snd (ingest._store_in_db w reply uuid4 now id name mime cs es)))
  /\ embedded (_memory_db (snd (ingest.delete_document w reply now id))).
Proof.
  intros Hc He. split.
  - destruct (Nat.eq_dec (List.length cs) (List.length es)) as [Hlen|Hlen].
    + rewrite (store_in_db_memory w w' reply _ _ _ _ _ _ _ Hc Hlen).
      cbn [snd set_memory_db _memory_db]. now apply stored_embedded.
    + unfold ingest._store_in_db.
      apply Nat.eqb_neq in Hlen. rewrite Hlen. exact He.
  - rewrite (delete_document_memory w w' reply now id Hc).
    cbn [snd set_memory_db _memory_db]. now apply drop_document_embedded.
Qed.

(** An instance: the empty store, a document stored into it, and a deletion
    from it. *)
Lemma chunks_and_embeddings_witness :
  embedded (_memory_db two_chunks)
  /\ embedded
       (_memory_db
          (snd (ingest.delete_document (@boot offline tt) connection_refused
                  sample_now "doc-1"))).
Proof.
  apply (@chunks_and_embeddings_go_together offline (@boot offline tt)
           (set_using_memory_db true (emit EvPgConnect (@boot offline tt)))
           connection_refused sample_uuid4 sample_now "doc-1" "notes.txt"
           (Some "text/plain") ["no vector"; "opposite"]
           [[]; [(-1)%float]] eq_refl).
  intros k. split; reflexivity.
Defined.

(** ** The document row *)

Lemma dict_set_keys {V : Type} (k : string) (v : V) (d : Dict.t V) :
  Dict.keys (Dict.set k v d)
  = if Dict.mem k d then Dict.keys d else (Dict.keys d ++ [k])%list.
Proof.
  unfold Dict.mem.
  induction d as [|[k' v'] d IH]; cbn [Dict.set Dict.get Dict.keys map];
    [reflexivity|].
  destruct (String.eqb k' k) eqn:E.
  - apply String.eqb_eq in E. now subst.
  - cbn [Dict.keys map fst]. unfold Dict.keys in IH. rewrite IH.
    now destruct (Dict.get k d).
Qed.

(** The document insertion sent to the in-memory database writes the row
    whether or not the identifier is already stored: the row read back is the
    one just written, an existing row is replaced where it stands and a new
    one goes last, and the other rows, the chunks and the embeddings are left
    alone. *)
Theorem memory_insert_replaces_document_row
    (db : InMemoryDatabase) (now : Z) (id name : string)
    (mime : option string) (total : Z) :
  exists db',
    execute db now ingest.insert_document_sql
      [VStr id; VStr name; of_opt_str mime; VInt total] = Ok db'
    /\ Dict.get id (documents db')
       = Some {| doc_id := id; filename := name; mime_type := mime;
                 total_chunks := total; uploaded_at := now |}
    /\ (forall id', id' <> id ->
          Dict.get id' (documents db') = Dict.get id' (documents db))
    /\ Dict.keys (documents db')
       = (if Dict.mem id (documents db)
          then Dict.keys (documents db)
          else (Dict.keys (documents db) ++ [id])%list)
    /\ chunks db' = chunks db
    /\ embeddings db' = embeddings db.
Proof.
  exists (put_document db now id name mime total).
  split; [apply execute_insert_document|].
  unfold put_document. cbn [documents chunks embeddings].
  split; [apply dict_get_set_eq|].
  split; [intros id' Hne; apply dict_get_set_ne; congruence|].
  split; [apply dict_set_keys|]. split; reflexivity.
Qed.

(** ** What the endpoints leave alone *)

Section Frames.
Context {env : Env}.
Variable ai : Providers.
Implicit Types w : World env.

Lemma same_memory_store_refl w : same_memory_store w w.
Proof. reflexivity. Qed.

Lemma same_memory_store_trans w1 w2 w3 :
  same_memory_store w1 w2 -> same_memory_store w2 w3 -> same_memory_store w1 w3.
Proof. unfold same_memory_store. congruence. Qed.

Lemma same_memory_store_get_db_connection w reply :
  same_memory_store w (snd (get_db_connection w reply)).
Proof.
  unfold get_db_connection.
  destruct (_using_memory_db w); cbn [negb andb].
  - destruct (MEMORY_DB_AVAILABLE env); apply same_memory_store_refl.
  - destruct reply; [reflexivity|].
    destruct (MEMORY_DB_AVAILABLE env); reflexivity.
Qed.

Lemma same_memory_store_embed_text w text :
  same_memory_store w (snd (query._embed_text ai w text)).
Proof.
  unfold query._embed_text.
  destruct (GEMINI_AVAILABLE_FOR_USE ai).
  - destruct (gemini_embed_content ai _);
      [|destruct (GROQ_AVAILABLE ai)]; reflexivity.
  - destruct (GROQ_AVAILABLE ai); reflexivity.
Qed.

Lemma same_memory_store_synthesize w question chunks max_tokens :
  same_memory_store w
    (snd (query._synthesize_answer ai w question chunks max_tokens)).
Proof.
  unfold query._synthesize_answer.
  destruct (GROQ_AVAILABLE ai);
    [destruct (groq_chat_completion ai _ _)|];
    destruct (GEMINI_AVAILABLE_FOR_USE ai);
    try destruct (gemini_generate_content ai _ _);
    reflexivity.
Qed.

Lemma same_memory_store_query_ask
    w (reply : pg_reply) (body : query.QueryRequest) :
  same_memory_store w (snd (query.query_ask ai w reply body)).
Proof.
  unfold query.query_ask.
  pose proof (same_memory_store_embed_text w (query.question body)) as E.
  destruct (query._embed_text ai w _) as [[q|x] w1]; [|exact E].
  cbn [snd] in E.
  pose proof (same_memory_store_get_db_connection w1 reply) as G.
  destruct (get_db_connection w1 reply) as [[c|x] w2]; cbn [snd] in G;
    [|exact (same_memory_store_trans _ _ _ E G)].
  pose proof (same_memory_store_trans _ _ _ E G) as EG.
  destruct (run_fetch w2 c _ _) as [[|r rows]|x]; try exact EG.
  destruct (mapM query.source_of_row (r :: rows)) as [sources|x];
    [|exact EG].
  pose proof (same_memory_store_synthesize w2 (query.question body) sources
                (query.max_tokens body)) as S.
  destruct (query._synthesize_answer ai w2 _ sources _) as [[a|x] w3];
    exact (same_memory_store_trans _ _ _ EG S).
Qed.

Lemma same_memory_store_list_documents w (reply : pg_reply) :
  same_memory_store w (snd (text_documents.list_documents w reply)).
Proof.
  unfold text_documents.list_documents.
  pose proof (same_memory_store_get_db_connection w reply) as G.
  destruct (get_db_connection w reply) as [[c|x] w1]; [|exact G].
  destruct (run_fetch w1 c _ _); exact G.
Qed.

(** Asking a question and listing the documents leave the in-memory store as
    it was, whatever they answer and whichever backend serves them. *)
Theorem reading_changes_no_data
    w (reply : pg_reply) (body : query.QueryRequest) :
  same_memory_store w (snd (query.query_ask ai w reply body))
  /\ same_memory_store w (snd (text_documents.list_documents w reply)).
Proof.
  split.
  - apply same_memory_store_query_ask.
  - apply same_memory_store_list_documents.
Qed.

Lemma embed_texts_keeps_state w texts :
  _using_memory_db (snd (ingest._embed_texts ai w texts))
  = _using_memory_db w
  /\ _memory_db (snd (ingest._embed_texts ai w texts)) = _memory_db w.
Proof.
  assert (G : forall ts w0,
             _using_memory_db (snd (ingest.gemini_embed_all ai w0 ts))
             = _using_memory_db w0
             /\ _memory_db (snd (ingest.gemini_embed_all ai w0 ts))
                = _memory_db w0).
  { induction ts as [|t ts IH]; intros w0; cbn [ingest.gemini_embed_all];
      [split; reflexivity|].
    destruct (gemini_embed_content ai _); [|split; reflexivity].
    specialize (IH (emit (EvGeminiEmbed
                            (if 2000 <? Py.len t then Py.slice t 0 2000
                             else t)) w0)).
    destruct (ingest.gemini_embed_all ai _ ts) as [[es|x] w1]; exact IH. }
  unfold ingest._embed_texts.
  destruct (GEMINI_AVAILABLE_FOR_USE ai).
  - specialize (G texts w).
    destruct (ingest.gemini_embed_all ai w texts) as [[es|x] w1];
      [exact G|].
    destruct (GROQ_AVAILABLE ai); exact G.
  - destruct (GROQ_AVAILABLE ai); split; reflexivity.
Qed.

Lemma get_db_connection_by_flag w1 w2 reply :
  _using_memory_db w1 = _using_memory_db w2 ->
  fst (get_db_connection w1 reply) = fst (get_db_connection w2 reply).
Proof.
  intros H. unfold get_db_connection. rewrite H.
  destruct (_using_memory_db w2); cbn [negb andb].
  - destruct (MEMORY_DB_AVAILABLE env); reflexivity.
  - destruct reply; [reflexivity|].
    destruct (MEMORY_DB_AVAILABLE env); reflexivity.
Qed.

(** Under the in-memory backend, with identifiers that are new, a successful
    upload has stored what its response reports: the document row is stored
    under the returned identifier with the request's file name and MIME type,
    its [total_chunks] and the number of chunk rows stored for it both equal
    the reported count, and the store is well formed as before. *)
Theorem upload_stores_what_it_reports
    (fuel : nat) w w' (reply : pg_reply) (uuid4 : nat -> string)
    (now : nat -> Z) (body : ingest.UploadDocRequest)
    (resp : ingest.UploadDocResponse) :
  ingest.ingest_upload ai fuel w reply uuid4 now body = Some (Ok resp, w') ->
  fst (get_db_connection w reply) = Ok MemConn ->
  store_ok (_memory_db w) ->
  Dict.get (uuid4 O) (documents (_memory_db w)) = None ->
  fresh_ids (fun idx => uuid4 (S idx))
    (Z.to_nat (ingest.resp_chunks_created resp)) (_memory_db w) ->
  ingest.resp_document_id resp = uuid4 O
  /\ ingest.resp_total_chunks resp = ingest.resp_chunks_created resp
  /\ store_ok (_memory_db w')
  /\ Z.of_nat (List.length (chunks_of (uuid4 O) (_memory_db w')))
     = ingest.resp_chunks_created resp
  /\ exists d,
       Dict.get (uuid4 O) (documents (_memory_db w')) = Some d
       /\ filename d = ingest.req_filename body
       /\ mime_type d = ingest.req_mime_type body
       /\ total_chunks d = ingest.resp_total_chunks resp.
Proof.
  unfold ingest.ingest_upload.
  destruct (ingest._parse_document ai _ _ _ _) as [text|x];
    [|destruct x; discriminate].
  destruct (ingest._chunk_text fuel text _ _) as [[cs|x]|];
    [| destruct x; discriminate | discriminate].
  pose proof (embed_texts_keeps_state w cs) as [Kf Km].
  destruct (ingest._embed_texts ai w cs) as [[es|x] w1] eqn:E;
    [|destruct x; discriminate].
  cbn [snd] in Kf, Km.
  pose proof (embed_texts_length _ _ _ _ _ E) as Hlen. symmetry in Hlen.
  intros Hup Hconn Hok Hnew Hfresh.
  rewrite <- (get_db_connection_by_flag w1 w reply Kf) in Hconn.
  destruct (get_db_connection w1 reply) as [rc w2] eqn:C.
  cbn [fst] in Hconn. subst rc.
  rewrite (store_in_db_memory w1 w2 reply _ _ _ _ _ _ _ C Hlen) in Hup.
  injection Hup as <- <-.
  cbn [ingest.resp_document_id ingest.resp_total_chunks
       ingest.resp_chunks_created set_memory_db _memory_db] in *.
  rewrite Nat2Z.id in Hfresh. rewrite Km.
  pose proof (referential_absent _ _ (proj1 (proj2 Hok)) Hnew) as Habs.
  split; [reflexivity|]. split; [reflexivity|].
  split; [now apply stored_ok|]. split.
  - rewrite chunks_of_stored_same by assumption.
    rewrite new_rows_length, length_combine. lia.
  - eexists. rewrite stored_documents, dict_get_set_eq.
    split; [reflexivity|]. repeat split.
Qed.

End Frames.

(** An instance: a short note uploaded into the empty store while PostgreSQL
    refuses connections and Groq is the only AI service. *)
Lemma upload_stores_witness :
  store_ok (_memory_db (@boot offline tt))
  /\ exists resp w',
       ingest.ingest_upload groq_only 16 (@boot offline tt) connection_refused
         sample_uuid4 sample_now
         {| ingest.req_filename := "notes.txt";
            ingest.req_mime_type := Some "text/plain";
            ingest.req_file_b64 := None;
            ingest.req_text := Some "The sky is blue." |}
       = Some (Ok resp, w')
       /\ ingest.resp_chunks_created resp = 1
       /\ store_ok (_memory_db w')
       /\ Z.of_nat (List.length (chunks_of (sample_uuid4 O) (_memory_db w')))
          = ingest.resp_chunks_created resp.
Proof.
  split; [apply store_ok_new|].
  eexists. eexists. split; [vm_compute; reflexivity|].
  split; [reflexivity|].
  refine (let H := @upload_stores_what_it_reports offline groq_only 16
                     (@boot offline tt) _ connection_refused sample_uuid4
                     sample_now
                     {| ingest.req_filename := "notes.txt";
                        ingest.req_mime_type := Some "text/plain";
                        ingest.req_file_b64 := None;
                        ingest.req_text := Some "The sky is blue." |}
                     _ eq_refl eq_refl store_ok_new eq_refl _ in _).
  - exact (conj (proj1 (proj2 (proj2 H))) (proj1 (proj2 (proj2 (proj2 H))))).
    Unshelve.
    split.
    + repeat constructor; simpl; intuition discriminate.
    + intros i Hi. destruct i as [|i]; [reflexivity|].
      exfalso. simpl in Hi. apply PeanoNat.Nat.succ_lt_mono in Hi.
      inversion Hi.
Defined.

(** ** Adding text documents *)

Section Adding.
Context {env : Env}.
Variable ai : Providers.
Variable http_str : Z -> string -> string.
Implicit Types w : World env.

Lemma add_loop_ok fuel replies uuid4 now docs :
  forall w j acc total rs t w',
    text_documents.add_loop ai fuel w replies uuid4 now j docs acc total
    = Some (Ok (rs, t), w') ->
    exists new,
      rs = (acc ++ new)%list
      /\ map text_documents.added_title new
         = map text_documents.text_title docs
      /\ map text_documents.added_document_id new
         = document_ids uuid4 j (List.length docs)
      /\ t = total + chunks_counted new.
Proof.
  induction docs as [|doc docs IH]; intros w j acc total rs t w';
    cbn [text_documents.add_loop].
  - intros [= <- <- _]. exists []. rewrite app_nil_r.
    repeat split. unfold chunks_counted. cbn. lia.
  - destruct (ingest._chunk_text fuel _ _ _) as [[cs|x]|]; try discriminate.
    destruct (ingest._embed_texts ai w cs) as [[es|x] w1]; [|discriminate].
    destruct (ingest._store_in_db w1 _ _ _ _ _ _ cs es) as [[[]|x] w2];
      [|discriminate].
    intros H. apply IH in H. destruct H as (new & -> & Ht & Hi & ->).
    eexists (_ :: new). rewrite <- app_assoc. split; [reflexivity|].
    unfold document_ids in *.
    cbn [map List.length seq text_documents.added_title
         text_documents.added_document_id].
    split; [now rewrite Ht|]. split; [now rewrite <- Hi|].
    unfold chunks_counted. cbn [map fold_right
      text_documents.added_chunks_created]. lia.
Qed.

(** [POST /add] answers 502 when no AI service is configured and 400 when
    the list is empty, both before anything is done; every failure after that
    is answered 500, also the 502 of the embedding step and the rejection of
    a length mismatch. *)
Theorem add_reports_later_failures_as_500
    (fuel : nat) w (replies : nat -> pg_reply) (uuid4 : nat -> nat -> string)
    (now : nat -> nat -> Z) (docs : list text_documents.TextDocument) :
  (GROQ_AVAILABLE ai = false -> GEMINI_AVAILABLE_FOR_USE ai = false ->
   text_documents.add_text_documents ai http_str fuel w replies uuid4 now docs
   = Some (Raise text_documents.no_service, w))
  /\ (GROQ_AVAILABLE ai || GEMINI_AVAILABLE_FOR_USE ai = true ->
      text_documents.add_text_documents ai http_str fuel w replies uuid4 now []
      = Some (Raise (HTTPException 400 "No documents provided"), w))
  /\ (forall e w',
        GROQ_AVAILABLE ai || GEMINI_AVAILABLE_FOR_USE ai = true ->
        docs <> [] ->
        text_documents.add_text_documents ai http_str fuel w replies uuid4 now
          docs
        = Some (Raise e, w') ->
        exists detail, e = HTTPException 500 detail).
Proof.
  unfold text_documents.add_text_documents. repeat split.
  - intros -> ->. reflexivity.
  - intros H. destruct (GROQ_AVAILABLE ai), (GEMINI_AVAILABLE_FOR_USE ai);
      try discriminate H; reflexivity.
  - intros e w' H Hdocs.
    replace (negb (GROQ_AVAILABLE ai) && negb (GEMINI_AVAILABLE_FOR_USE ai))
      with false
      by (destruct (GROQ_AVAILABLE ai), (GEMINI_AVAILABLE_FOR_USE ai);
          try discriminate H; reflexivity).
    destruct docs as [|doc docs]; [contradiction|].
    destruct (text_documents.add_loop ai fuel w replies uuid4 now 0 _ _ _)
      as [[[[rs t]|x] w1]|]; try discriminate.
    cbn [text_documents.add_errors]. intros [= <- _]. eauto.
Qed.

(** A successful [POST /add] reports one entry per document of the request,
    in the order of the request, with its title and the identifier drawn for
    it, and [total_chunks] is the sum of the entries' [chunks_created]. *)
Theorem add_reports_each_document
    (fuel : nat) w w' (replies : nat -> pg_reply)
    (uuid4 : nat -> nat -> string) (now : nat -> nat -> Z)
    (docs : list text_documents.TextDocument)
    (resp : text_documents.AddDocumentsResponse) :
  text_documents.add_text_documents ai http_str fuel w replies uuid4 now docs
  = Some (Ok resp, w') ->
  text_documents.success resp = true
  /\ text_documents.total_documents resp
     = Z.of_nat (List.length (text_documents.added_documents resp))
  /\ map text_documents.added_title (text_documents.added_documents resp)
     = map text_documents.text_title docs
  /\ map text_documents.added_document_id
       (text_documents.added_documents resp)
     = document_ids uuid4 0 (List.length docs)
  /\ text_documents.added_total_chunks resp
     = chunks_counted (text_documents.added_documents resp).
Proof.
  unfold text_documents.add_text_documents.
  destruct (negb (GROQ_AVAILABLE ai) && negb (GEMINI_AVAILABLE_FOR_USE ai));
    [discriminate|].
  destruct docs as [|doc docs]; [discriminate|].
  destruct (text_documents.add_loop ai fuel w replies uuid4 now 0 _ _ _)
    as [[[[rs t]|x] w1]|] eqn:L; try discriminate.
  intros [= <- _].
  apply add_loop_ok in L. destruct L as (new & -> & Ht & Hi & ->).
  cbn [text_documents.success text_documents.total_documents
       text_documents.added_documents text_documents.added_total_chunks
       app].
  repeat split; try assumption.
  rewrite <- (length_map text_documents.added_title), Ht, length_map.
  reflexivity.
Qed.

End Adding.

(** ** Documents added under the in-memory backend *)

Lemma nodup_app_disjoint {A : Type} (l l' : list A) (a : A) :
  NoDup (l ++ l') -> In a l -> ~ In a l'.
Proof.
  induction l as [|b l IH]; cbn [app]; intros Hnd Hin Hin'; [destruct Hin|].
  inversion Hnd as [|? ? Hb Hl]; subst.
  destruct Hin as [->|Hin]; [|exact (IH Hl Hin Hin')].
  apply Hb, in_or_app. now right.
Qed.

Lemma document_ids_app uuid4 j n m :
  document_ids uuid4 j (n + m)
  = (document_ids uuid4 j n ++ document_ids uuid4 (j + n) m)%list.
Proof. unfold document_ids. now rewrite seq_app, map_app. Qed.

Section AddingInMemory.
Context {env : Env}.
Variable ai : Providers.
Variable http_str : Z -> string -> string.
Hypothesis Hmem : MEMORY_DB_AVAILABLE env = true.
Implicit Types w : World env.

Lemma store_in_db_selected w reply uuid4 now id name mime cs es :
  _using_memory_db w = true ->
  List.length cs = List.length es ->
  ingest._store_in_db w reply uuid4 now id name mime cs es
  = (Ok tt,
     set_memory_db (stored (_memory_db w) uuid4 now id name mime cs es) w).
Proof.
  intros Hflag Hlen. apply store_in_db_memory; [|exact Hlen].
  now apply get_db_connection_selected.
Qed.

Lemma add_loop_app fuel replies uuid4 now pre rest :
  forall w j acc total,
    text_documents.add_loop ai fuel w replies uuid4 now j (pre ++ rest) acc
      total
    = match text_documents.add_loop ai fuel w replies uuid4 now j pre acc
              total with
      | Some (Ok (rs, t), w1) =>
          text_documents.add_loop ai fuel w1 replies uuid4 now
            (j + List.length pre) rest rs t
      | other => other
      end.
Proof.
  induction pre as [|doc pre IH]; intros w j acc total;
    cbn [app text_documents.add_loop List.length].
  - now rewrite Nat.add_0_r.
  - destruct (ingest._chunk_text fuel _ _ _) as [[cs|x]|]; try reflexivity.
    destruct (ingest._embed_texts ai w cs) as [[es|x] w1]; [|reflexivity].
    destruct (ingest._store_in_db w1 _ _ _ _ _ _ cs es) as [[[]|x] w2];
      [|reflexivity].
    rewrite IH. now rewrite Nat.add_succ_r.
Qed.

(** A run of the loop keeps the backend selected and leaves the rows of all
    other documents as they were, however it ends. *)
Lemma add_loop_memory fuel replies uuid4 now docs :
  forall w j acc total r w',
    _using_memory_db w = true ->
    text_documents.add_loop ai fuel w replies uuid4 now j docs acc total
    = Some (r, w') ->
    _using_memory_db w' = true
    /\ forall id,
         ~ In id (document_ids uuid4 j (List.length docs)) ->
         Dict.get id (documents (_memory_db w'))
         = Dict.get id (documents (_memory_db w)).
Proof.
  induction docs as [|doc docs IH]; intros w j acc total r w' Hflag;
    cbn [text_documents.add_loop].
  - intros [= _ <-]. now split.
  - destruct (ingest._chunk_text fuel _ _ _) as [[cs|x]|];
      [| intros [= _ <-]; now split | discriminate].
    pose proof (embed_texts_keeps_state ai w cs) as [Kf Km].
    destruct (ingest._embed_texts ai w cs) as [[es|x] w1] eqn:E;
      cbn [snd] in Kf, Km;
      [| intros [= _ <-]; rewrite Kf, Km; now split].
    pose proof (embed_texts_length _ _ _ _ _ E) as Hlen. symmetry in Hlen.
    rewrite store_in_db_selected by (try assumption; congruence).
    intros H. apply IH in H; [|cbn; congruence].
    destruct H as [Hf Hget]. split; [exact Hf|].
    intros id Hid. unfold document_ids in *.
    cbn [List.length seq map In] in Hid.
    rewrite Hget by tauto.
    cbn [set_memory_db _memory_db]. rewrite stored_documents, Km.
    apply dict_get_set_ne. intros Heq. apply Hid. left. congruence.
Qed.

Lemma add_loop_memory_stored fuel replies uuid4 now docs :
  forall w j acc total rs t w',
    _using_memory_db w = true ->
    NoDup (document_ids uuid4 j (List.length docs)) ->
    text_documents.add_loop ai fuel w replies uuid4 now j docs acc total
    = Some (Ok (rs, t), w') ->
    exists new,
      rs = (acc ++ new)%list /\ Forall (added_stored (_memory_db w')) new.
Proof.
  induction docs as [|doc docs IH]; intros w j acc total rs t w' Hflag Hnd;
    cbn [text_documents.add_loop].
  - intros [= <- _ _]. exists []. now rewrite app_nil_r.
  - destruct (ingest._chunk_text fuel _ _ _) as [[cs|x]|]; try discriminate.
    pose proof (embed_texts_keeps_state ai w cs) as [Kf Km].
    destruct (ingest._embed_texts ai w cs) as [[es|x] w1] eqn:E;
      cbn [snd] in Kf, Km; [|discriminate].
    pose proof (embed_texts_length _ _ _ _ _ E) as Hlen. symmetry in Hlen.
    rewrite store_in_db_selected by (try assumption; congruence).
    unfold document_ids in Hnd. cbn [List.length seq map] in Hnd.
    inversion Hnd as [|? ? Hfirst Hrest]; subst.
    intros H.
    match type of H with
    | text_documents.add_loop _ _ ?w2 _ _ _ _ _ _ _ = _ =>
        assert (Hflag2 : _using_memory_db w2 = true) by (cbn; congruence)
    end.
    pose proof (add_loop_memory _ _ _ _ _ _ _ _ _ _ _ Hflag2 H) as [_ Hget].
    apply IH in H; [| exact Hflag2 | exact Hrest].
    destruct H as (new & -> & Hnew).
    eexists (_ :: new). rewrite <- app_assoc. split; [reflexivity|].
    constructor; [|exact Hnew].
    eexists. cbn [text_documents.added_document_id text_documents.added_title
                  text_documents.added_chunks_created].
    rewrite (Hget _ Hfirst). cbn [set_memory_db _memory_db].
    rewrite stored_documents, dict_get_set_eq.
    split; [reflexivity|]. repeat split.
Qed.

(** Under the in-memory backend [POST /add] is not undone when it fails: the
    documents that a run on the first part of the list reports stay stored,
    under the reported identifier with the file name [title.txt], the type
    [text/plain] and the reported number of chunks, after a run on the whole
    list, however that ends. *)
Theorem added_documents_stay_stored
    (fuel : nat) w w1 w' (replies : nat -> pg_reply)
    (uuid4 : nat -> nat -> string) (now : nat -> nat -> Z)
    (pre rest : list text_documents.TextDocument)
    (resp : text_documents.AddDocumentsResponse)
    (r : result text_documents.AddDocumentsResponse) :
  _using_memory_db w = true ->
  NoDup (document_ids uuid4 0 (List.length (pre ++ rest))) ->
  text_documents.add_text_documents ai http_str fuel w replies uuid4 now pre
  = Some (Ok resp, w1) ->
  text_documents.add_text_documents ai http_str fuel w replies uuid4 now
    (pre ++ rest)
  = Some (r, w') ->
  Forall (added_stored (_memory_db w')) (text_documents.added_documents resp).
Proof.
  intros Hflag Hnd. unfold text_documents.add_text_documents.
  destruct (negb (GROQ_AVAILABLE ai) && negb (GEMINI_AVAILABLE_FOR_USE ai));
    [discriminate|].
  destruct pre as [|doc pre]; [discriminate|].
  cbn [app]. change (doc :: pre ++ rest)%list with ((doc :: pre) ++ rest)%list.
  remember (doc :: pre) as docs eqn:Hdocs. clear Hdocs doc pre.
  rewrite add_loop_app.
  destruct (text_documents.add_loop ai fuel w replies uuid4 now 0 docs [] 0)
    as [[[[rs t]|x] w2]|] eqn:L; try discriminate.
  intros [= <- ->]. cbn [text_documents.added_documents Nat.add].
  rewrite length_app, document_ids_app in Hnd. cbn [Nat.add] in Hnd.
  pose proof (add_loop_memory _ _ _ _ _ _ _ _ _ _ _ Hflag L) as [Hflag1 _].
  pose proof (add_loop_ok _ _ _ _ _ _ _ _ _ _ _ _ _ L)
    as (new0 & E0 & _ & Hi & _).
  destruct (add_loop_memory_stored _ _ _ _ _ _ _ _ _ _ _ _ Hflag
              (NoDup_app_remove_r _ _ Hnd) L) as (new & E & Hstored).
  cbn [app] in E, E0. subst new new0.
  intros H.
  assert (Hw : exists r0,
             text_documents.add_loop ai fuel w1 replies uuid4 now
               (List.length docs) rest rs t = Some (r0, w')).
  { destruct (text_documents.add_loop ai fuel w1 replies uuid4 now
                (List.length docs) rest rs t) as [[[[rs' t']|x] w3]|];
      try discriminate; injection H as _ <-; eauto. }
  destruct Hw as [r0 Hw].
  pose proof (add_loop_memory _ _ _ _ _ _ _ _ _ _ _ Hflag1 Hw) as [_ Hget].
  rewrite Forall_forall in *. intros d Hd.
  destruct (Hstored d Hd) as (row & Hrow & Hfields).
  exists row. split; [|exact Hfields].
  rewrite Hget; [exact Hrow|].
  apply (nodup_app_disjoint _ _ _ Hnd). rewrite <- Hi.
  now apply in_map.
Qed.

End AddingInMemory.

(** An instance: with no AI service the request is refused as it stands, and
    with Gemini alone, which refuses the second note, the 502 of the
    embedding step is answered as 500. *)
Lemma add_reports_failures_witness :
  text_documents.add_text_documents no_ai sample_http_str 8 in_memory
    (fun _ => connection_refused) sample_uuid4s sample_nows [first_note]
  = Some (Raise text_documents.no_service, in_memory)
  /\ exists detail w',
       text_documents.add_text_documents gemini_alone sample_http_str 8
         in_memory (fun _ => connection_refused) sample_uuid4s sample_nows
         [first_note; second_note]
       = Some (Raise (HTTPException 500 detail), w').
Proof.
  split.
  - destruct (@add_reports_later_failures_as_500 offline no_ai
                sample_http_str 8 in_memory (fun _ => connection_refused)
                sample_uuid4s sample_nows [first_note]) as (A & _ & _).
    apply A; reflexivity.
  - destruct (@add_reports_later_failures_as_500 offline gemini_alone
                sample_http_str 8 in_memory (fun _ => connection_refused)
                sample_uuid4s sample_nows [first_note; second_note])
      as (_ & _ & C).
    destruct (text_documents.add_text_documents gemini_alone sample_http_str
                8 in_memory (fun _ => connection_refused) sample_uuid4s
                sample_nows [first_note; second_note])
      as [[[resp|e] w']|] eqn:E; [vm_compute in E; discriminate E | |
                                  vm_compute in E; discriminate E].
    destruct (C e w' eq_refl ltac:(discriminate) eq_refl) as [detail ->].
    exists detail, w'. reflexivity.
Defined.

(** An instance: two notes added with Groq as the only AI service. *)
Lemma add_reports_each_document_witness :
  exists resp w',
    text_documents.add_text_documents groq_only sample_http_str 8 in_memory
      (fun _ => connection_refused) sample_uuid4s sample_nows
      [first_note; second_note]
    = Some (Ok resp, w')
    /\ map text_documents.added_title (text_documents.added_documents resp)
       = ["sky"; "sea"]
    /\ text_documents.added_total_chunks resp
       = chunks_counted (text_documents.added_documents resp).
Proof.
  destruct (text_documents.add_text_documents groq_only sample_http_str 8
              in_memory (fun _ => connection_refused) sample_uuid4s
              sample_nows [first_note; second_note])
    as [[[resp|e] w']|] eqn:E; [| vm_compute in E; discriminate E |
                                vm_compute in E; discriminate E].
  exists resp, w'. split; [reflexivity|].
  destruct (@add_reports_each_document offline groq_only sample_http_str 8
              in_memory w' (fun _ => connection_refused) sample_uuid4s
              sample_nows [first_note; second_note] resp E)
    as (_ & _ & T & _ & S).
  split; [exact T | exact S].
Defined.

(** An instance: with Gemini alone, which refuses the second note, adding
    both notes fails, and the first one is stored all the same. *)
Lemma added_documents_stay_stored_witness :
  (_using_memory_db in_memory = true
   /\ NoDup (document_ids sample_uuid4s 0 2))
  /\ exists resp w1 detail w',
       text_documents.add_text_documents gemini_alone sample_http_str 8
         in_memory (fun _ => connection_refused) sample_uuid4s sample_nows
         [first_note]
       = Some (Ok resp, w1)
       /\ text_documents.add_text_documents gemini_alone sample_http_str 8
            in_memory (fun _ => connection_refused) sample_uuid4s sample_nows
            ([first_note] ++ [second_note])
          = Some (Raise (HTTPException 500 detail), w')
       /\ Forall (added_stored (_memory_db w'))
            (text_documents.added_documents resp).
Proof.
  assert (Hnd : NoDup (document_ids sample_uuid4s 0 2))
    by (repeat constructor; simpl; intuition discriminate).
  split; [split; [reflexivity | exact Hnd]|].
  eexists. eexists. eexists. eexists.
  split; [vm_compute; reflexivity|].
  split; [vm_compute; reflexivity|].
  refine (@added_documents_stay_stored offline gemini_alone sample_http_str
            eq_refl 8 in_memory _ _ (fun _ => connection_refused)
            sample_uuid4s sample_nows [first_note] [second_note] _ _
            eq_refl Hnd eq_refl eq_refl).
Defined.

(** ** The length of the chunks *)

Lemma substring_length (s : string) : forall n m,
  (String.length (String.substring n m s) <= m)%nat.
Proof.
  induction s as [|c s IH]; intros n m.
  - destruct n, m; cbn; lia.
  - destruct n as [|n]; cbn [String.substring].
    + destruct m as [|m]; cbn [String.length]; [lia|].
      specialize (IH O m). lia.
    + apply IH.
Qed.

Lemma lstrip_l_length (l : list ascii) :
  (List.length (Py.lstrip_l l) <= List.length l)%nat.
Proof.
  induction l as [|c l IH]; cbn [Py.lstrip_l List.length]; [lia|].
  destruct (Py.isspace c); cbn [List.length]; lia.
Qed.

Lemma string_of_list_length (l : list ascii) :
  String.length (string_of_list_ascii l) = List.length l.
Proof. induction l; cbn; congruence. Qed.

Lemma list_of_string_length (s : string) :
  List.length (list_ascii_of_string s) = String.length s.
Proof. induction s; cbn; congruence. Qed.

Lemma strip_length (s : string) : Py.len (Py.strip s) <= Py.len s.
Proof.
  unfold Py.len, Py.strip, Py.strip_l.
  rewrite string_of_list_length, length_rev.
  pose proof (lstrip_l_length (rev (Py.lstrip_l (list_ascii_of_string s)))).
  pose proof (lstrip_l_length (list_ascii_of_string s)).
  rewrite length_rev in *. rewrite list_of_string_length in *. lia.
Qed.

Lemma slice_length (s : string) (a b : Z) :
  0 <= a <= b ->
  Py.len (Py.slice s a b) <= b - a.
Proof.
  intros H. unfold Py.slice, Py.len.
  pose proof (substring_length s
                (Z.to_nat (Py.clamp (Z.of_nat (String.length s)) a))
                (Z.to_nat (Py.clamp (Z.of_nat (String.length s)) b
                           - Py.clamp (Z.of_nat (String.length s)) a))).
  unfold Py.clamp in *.
  destruct (a <? 0) eqn:Ea; [apply Z.ltb_lt in Ea; lia|].
  destruct (b <? 0) eqn:Eb; [apply Z.ltb_lt in Eb; lia|].
  lia.
Qed.

(** From a cursor inside the text the cut does not pass the character after
    the window. *)
Lemma cut_window text chunk_size start end_ :
  0 <= start -> 0 < chunk_size ->
  ingest.cut text chunk_size start = Ok end_ ->
  start + chunk_size - 98 <= end_ <= start + chunk_size + 1 /\ start < end_.
Proof.
  intros Hs Hc. unfold ingest.cut.
  destruct (start + chunk_size <? Py.len text) eqn:E.
  - apply Z.ltb_lt in E. unfold ingest.range_back.
    destruct (scan_back_in_range text ingest.sentence_end
                (Z.to_nat (start + chunk_size
                           - Z.max (start + chunk_size - 100) start))
                (start + chunk_size)) as [r [Hr Hj]]; [lia | lia |].
    rewrite Hr. cbn [bind]. destruct r as [j|].
    + intros [= <-]. specialize (Hj j eq_refl). lia.
    + destruct (scan_back_in_range text ingest.space
                  (Z.to_nat (start + chunk_size
                             - Z.max (start + chunk_size - 50) start))
                  (start + chunk_size)) as [r [Hr' Hj']]; [lia | lia |].
      rewrite Hr'. cbn [bind]. destruct r as [j|].
      * intros [= <-]. specialize (Hj' j eq_refl). lia.
      * intros [= <-]. lia.
  - intros [= <-]. lia.
Qed.

Lemma chunk_loop_fits text chunk_size overlap :
  0 <= overlap -> overlap + 99 <= chunk_size ->
  forall fuel chunks start out,
    0 <= start ->
    ingest.chunk_loop fuel text chunk_size overlap chunks start
    = Some (Ok out) ->
    Forall (fits chunk_size) chunks -> Forall (fits chunk_size) out.
Proof.
  intros Ho Hgap.
  induction fuel as [|fuel IH]; intros chunks start out Hs;
    cbn [ingest.chunk_loop].
  - destruct (start <? Py.len text); [discriminate|]. now intros [= <-].
  - destruct (start <? Py.len text); [|now intros [= <-]].
    destruct (ingest.cut text chunk_size start) as [e|x] eqn:C;
      [|discriminate].
    assert (Hc : 0 < chunk_size) by lia.
    destruct (cut_window _ _ _ _ Hs Hc C) as [He Hlt].
    intros H Hfits. apply IH in H; [exact H | lia |].
    apply Forall_app. split; [exact Hfits|]. constructor; [|constructor].
    unfold fits.
    pose proof (strip_length (Py.slice text start e)).
    assert (Hse : 0 <= start <= e) by lia.
    pose proof (slice_length text start e Hse). lia.
Qed.

(** With a window at least 99 characters wider than the overlap, no chunk is
    more than one character longer than the window; a chunk has that length
    when its window is followed by the end of a sentence. *)
Theorem chunks_fit_the_window
    (fuel : nat) (text : string) (chunk_size overlap : Z)
    (chunks : list string) :
  0 <= overlap -> overlap + 99 <= chunk_size ->
  ingest._chunk_text fuel text chunk_size overlap = Some (Ok chunks) ->
  Forall (fits chunk_size) chunks.
Proof.
  intros Ho Hgap. unfold ingest._chunk_text.
  destruct (Py.len text <=? chunk_size) eqn:E.
  - intros [= <-]. constructor; [|constructor].
    apply Z.leb_le in E. unfold fits. lia.
  - destruct (ingest.chunk_loop fuel text chunk_size overlap [] 0)
      as [[out|x]|] eqn:L; try discriminate.
    intros [= <-].
    apply (chunk_loop_fits _ _ _ Ho Hgap) in L;
      [| lia | constructor].
    rewrite Forall_forall in *. intros c Hc.
    apply filter_In in Hc. now apply L.
Qed.

(** An instance: a window of 100 characters followed by a full stop gives a
    chunk of 101 characters. *)
Lemma chunks_fit_witness :
  ingest._chunk_text 150 long_sentence 100 0
  = Some (Ok [run_of 100 "a"%char ++ "."; run_of 49 "b"%char])
  /\ Forall (fits 100) [run_of 100 "a"%char ++ "."; run_of 49 "b"%char]
  /\ Py.len (run_of 100 "a"%char ++ ".") = 101.
Proof.
  assert (E : ingest._chunk_text 150 long_sentence 100 0
              = Some (Ok [run_of 100 "a"%char ++ "."; run_of 49 "b"%char]))
    by (vm_compute; reflexivity).
  split; [exact E|]. split; [|reflexivity].
  apply (chunks_fit_the_window 150 long_sentence 100 0); [lia | lia | exact E].
Defined.

(** ** Storing and deleting again *)

Lemma dict_del_set_fresh {V : Type} (k : string) (v : V) (d : Dict.t V) :
  Dict.get k d = None -> Dict.del k (Dict.set k v d) = d.
Proof.
  intros H. rewrite (dict_set_fresh _ _ _ H). unfold Dict.del.
  rewrite filter_app. cbn [filter fst]. rewrite String.eqb_refl. cbn [negb].
  rewrite app_nil_r. now apply dict_del_absent.
Qed.

Lemma fold_put_item_embeddings uuid4 now doc items : forall db,
  NoDup (map (fun it : nat * (string * list float) => uuid4 (fst it)) items) ->
  (forall it, In it items ->
              Dict.get (uuid4 (fst it)) (embeddings db) = None) ->
  embeddings (fold_left (put_item uuid4 now doc) items db)
  = (embeddings db
     ++ map (fun it => (uuid4 (fst it), snd (snd it))) items)%list.
Proof.
  induction items as [|it items IH]; intros db Hnd Hfresh; simpl.
  - now rewrite app_nil_r.
  - inversion Hnd as [|? ? Hnotin Hnd']; subst.
    rewrite IH; [|exact Hnd'|].
    + unfold put_item at 1, put_chunk. cbn [embeddings].
      rewrite dict_set_fresh by (apply Hfresh; now left).
      rewrite <- app_assoc. reflexivity.
    + intros it' Hin. unfold put_item, put_chunk. cbn [embeddings].
      rewrite dict_get_set_ne.
      * apply Hfresh. now right.
      * intros E. apply Hnotin. rewrite E.
        apply (in_map (fun it => uuid4 (fst it))). exact Hin.
Qed.

Lemma fold_remove_chunk_embeddings ids : forall db,
  embeddings (fold_left remove_chunk ids db)
  = filter (fun kv => negb (existsb (String.eqb (fst kv)) ids))
      (embeddings db).
Proof.
  induction ids as [|k ids IH]; intros db; simpl.
  - symmetry. now apply filter_all.
  - rewrite IH. cbn [remove_chunk embeddings].
    assert (E : (if Dict.mem k (embeddings db)
                 then Dict.del k (embeddings db) else embeddings db)
                = Dict.del k (embeddings db)).
    { unfold Dict.mem. destruct (Dict.get k (embeddings db)) eqn:G;
        [reflexivity|]. symmetry. now apply dict_del_absent. }
    rewrite E. unfold Dict.del. rewrite filter_filter. apply filter_ext.
    intros kv. now rewrite negb_orb.
Qed.

Lemma drop_document_embeddings db id :
  embeddings (drop_document db id)
  = filter (fun kv => negb (existsb (String.eqb (fst kv)) (chunk_ids_of id db)))
      (embeddings db).
Proof.
  unfold drop_document.
  destruct (Dict.mem id _); cbn [embeddings];
    apply fold_remove_chunk_embeddings.
Qed.

Lemma database_ext (a b : InMemoryDatabase) :
  documents a = documents b -> chunks a = chunks b ->
  embeddings a = embeddings b -> a = b.
Proof. destruct a, b; cbn; intros; subst; reflexivity. Qed.

Lemma existsb_eqb_in (k : string) (ids : list string) :
  existsb (String.eqb k) ids = true <-> In k ids.
Proof.
  rewrite existsb_exists. split.
  - intros (x & Hx & E). apply String.eqb_eq in E. now subst.
  - intros H. exists k. split; [exact H | apply String.eqb_refl].
Qed.

(** Dropping a document that was stored into a store that held nothing of it
    gives the store back. *)
Lemma drop_stored db uuid4 now id name mime cs es :
  List.length cs = List.length es ->
  fresh_ids uuid4 (List.length cs) db ->
  Dict.get id (documents db) = None ->
  absent id db ->
  embedded db ->
  drop_document (stored db uuid4 now id name mime cs es) id = db.
Proof.
  intros Hlen Hfresh Hnew Habs Hemb.
  pose proof Hfresh as [Hnd Hget].
  set (items := enumerate (combine cs es)).
  assert (Hn : List.length (combine cs es) = List.length cs)
    by (rewrite length_combine; lia).
  assert (Hkeys : map (fun it : nat * (string * list float) => uuid4 (fst it))
                    items
                  = map uuid4 (seq 0 (List.length cs))).
  { unfold items. now rewrite <- (map_map fst uuid4), map_fst_enumerate, Hn. }
  assert (Hitem : forall it, In it items -> (fst it < List.length cs)%nat).
  { intros it Hin. apply (in_map fst) in Hin. unfold items in Hin.
    rewrite map_fst_enumerate, Hn in Hin. apply in_seq in Hin. lia. }
  assert (Hchunks : chunks (stored db uuid4 now id name mime cs es)
                    = (chunks db ++ map (chunk_entry uuid4 now id) items)%list)
    by now apply stored_chunks.
  assert (Hids : chunk_ids_of id (stored db uuid4 now id name mime cs es)
                 = map uuid4 (seq 0 (List.length cs))).
  { unfold chunk_ids_of. rewrite Hchunks, filter_app, map_app.
    rewrite (filter_none _ (chunks db)).
    - rewrite filter_all.
      + cbn [app map]. rewrite map_map. cbn [chunk_entry fst]. exact Hkeys.
      + intros kv Hin. apply in_map_iff in Hin. destruct Hin as (it & <- & _).
        cbn [chunk_entry snd document_id]. apply String.eqb_refl.
    - intros [k c] Hin. apply String.eqb_neq. apply Habs.
      unfold Dict.values. apply in_map_iff. now exists (k, c). }
  apply database_ext.
  - rewrite drop_document_documents, stored_documents.
    now apply dict_del_set_fresh.
  - rewrite drop_document_chunks, Hids, Hchunks, filter_app.
    rewrite (filter_all _ (chunks db)).
    + rewrite filter_none; [now rewrite app_nil_r|].
      intros kv Hin. apply in_map_iff in Hin. destruct Hin as (it & <- & Hit).
      apply negb_false_iff. unfold listed. cbn [chunk_entry fst].
      apply existsb_eqb_in. apply in_map, in_seq. specialize (Hitem it Hit).
      lia.
    + intros [k c] Hin. apply negb_true_iff.
      destruct (listed _ (k, c)) eqn:L; [|reflexivity]. exfalso.
      unfold listed in L. cbn [fst] in L. apply existsb_eqb_in in L.
      apply in_map_iff in L. destruct L as (i & <- & Hi). apply in_seq in Hi.
      specialize (Hget i ltac:(lia)).
      apply dict_get_none_keys in Hget. apply Hget.
      change (uuid4 i) with (fst (uuid4 i, c)). now apply in_map.
  - rewrite drop_document_embeddings, Hids. unfold stored.
    rewrite fold_put_item_embeddings.
    + cbn [put_document embeddings]. rewrite filter_app.
      rewrite (filter_all _ (embeddings db)).
      * rewrite filter_none; [now rewrite app_nil_r|].
        intros kv Hin. apply in_map_iff in Hin.
        destruct Hin as (it & <- & Hit).
        apply negb_false_iff. cbn [fst]. apply existsb_eqb_in.
        apply in_map, in_seq. specialize (Hitem it Hit). lia.
      * intros [k e] Hin. apply negb_true_iff. cbn [fst].
        destruct (existsb _ _) eqn:L; [|reflexivity]. exfalso.
        apply existsb_eqb_in in L.
        apply in_map_iff in L. destruct L as (i & <- & Hi). apply in_seq in Hi.
        specialize (Hget i ltac:(lia)). apply Hemb in Hget.
        apply dict_get_none_keys in Hget. apply Hget.
        change (uuid4 i) with (fst (uuid4 i, e)). now apply in_map.
    + fold items. rewrite Hkeys. exact Hnd.
    + intros it Hit. cbn [put_document embeddings]. apply Hemb, Hget.
      now apply Hitem.
Qed.

(** Under the in-memory backend, storing a document that is new to a well
    formed store, under new chunk identifiers, and deleting it again gives
    back the store as it was: the same documents, chunks and embeddings, in
    the same order. *)
Theorem store_then_delete_restores_the_store
    {env : Env} (w : World env) (reply reply' : pg_reply)
    (uuid4 : nat -> string) (now now' : nat -> Z) (id name : string)
    (mime : option string) (cs : list string) (es : list (list float)) :
  _using_memory_db w = true ->
  MEMORY_DB_AVAILABLE env = true ->
  List.length cs = List.length es ->
  store_ok (_memory_db w) ->
  embedded (_memory_db w) ->
  Dict.get id (documents (_memory_db w)) = None ->
  fresh_ids uuid4 (List.length cs) (_memory_db w) ->
  fst (ingest._store_in_db w reply uuid4 now id name mime cs es) = Ok tt
  /\ fst (ingest.delete_document
            (snd (ingest._store_in_db w reply uuid4 now id name mime cs es))
            reply' now' id)
     = Ok ("Document " ++ id ++ " deleted successfully")
  /\ _memory_db
       (snd (ingest.delete_document
               (snd (ingest._store_in_db w reply uuid4 now id name mime cs
                       es))
               reply' now' id))
     = _memory_db w.
Proof.
  intros Hflag Hmem Hlen Hok Hemb Hnew Hfresh.
  rewrite (store_in_db_selected Hmem w reply uuid4 now id name mime cs es
             Hflag Hlen).
  cbn [fst snd]. split; [reflexivity|].
  set (w1 := set_memory_db (stored (_memory_db w) uuid4 now id name mime cs
                              es) w).
  assert (Hflag1 : _using_memory_db w1 = true) by exact Hflag.
  rewrite (delete_document_memory w1 w1 reply' now' id
             (get_db_connection_selected w1 reply' Hflag1 Hmem)).
  subst w1.
  cbn [fst snd set_memory_db _memory_db]. split; [reflexivity|].
  apply drop_stored; try assumption.
  apply referential_absent; [exact (proj1 (proj2 Hok)) | exact Hnew].
Qed.

(** An instance: a second document stored into the sample store and deleted
    again. *)
Lemma store_then_delete_witness :
  (store_ok (_memory_db two_chunks) /\ embedded (_memory_db two_chunks))
  /\ _memory_db
       (snd (ingest.delete_document
               (snd (ingest._store_in_db two_chunks connection_refused
                       later_uuid4 sample_now "doc-2" "more.txt" None
                       ["third"] [[1%float]]))
               connection_refused sample_now "doc-2"))
     = _memory_db two_chunks.
Proof.
  assert (Hok : store_ok (_memory_db two_chunks)).
  { change (_memory_db two_chunks)
      with (stored (_memory_db (@boot offline tt)) sample_uuid4 sample_now
              "doc-1" "notes.txt" (Some "text/plain")
              ["no vector"; "opposite"] [[]; [(-1)%float]]).
    apply stored_ok; [apply store_ok_new | reflexivity | reflexivity |].
    split.
    - repeat constructor; simpl; intuition discriminate.
    - intros i _. reflexivity. }
  assert (Hemb : embedded (_memory_db two_chunks)).
  { change (_memory_db two_chunks)
      with (stored (_memory_db (@boot offline tt)) sample_uuid4 sample_now
              "doc-1" "notes.txt" (Some "text/plain")
              ["no vector"; "opposite"] [[]; [(-1)%float]]).
    apply stored_embedded. intros k. split; reflexivity. }
  split; [split; assumption|].
  apply (@store_then_delete_restores_the_store offline two_chunks
           connection_refused connection_refused later_uuid4 sample_now
           sample_now "doc-2" "more.txt" None ["third"] [[1%float]]);
    try reflexivity; try assumption.
  split.
  - repeat constructor; simpl; intuition discriminate.
  - intros i Hi. destruct i as [|i]; [reflexivity|].
    exfalso. simpl in Hi. apply PeanoNat.Nat.succ_lt_mono in Hi.
    inversion Hi.
Defined.

(** ** Querying the text documents *)

Lemma document_id_set_length rows : forall seen out,
  text_documents.document_id_set rows seen = Ok out ->
  (List.length seen <= List.length out
   <= List.length seen + List.length rows)%nat.
Proof.
  induction rows as [|r rows IH]; intros seen out;
    cbn [text_documents.document_id_set List.length].
  - intros [= <-]. lia.
  - destruct (row_get r "document_id") as [v|e]; cbn [bind]; [|discriminate].
    destruct v; try discriminate;
      (destruct (existsb _ seen); intros H; apply IH in H;
       rewrite ?length_app in H; cbn [List.length] in H; lia).
Qed.

Lemma document_id_set_first r rows out :
  text_documents.document_id_set (r :: rows) [] = Ok out ->
  (1 <= List.length out)%nat.
Proof.
  cbn [text_documents.document_id_set].
  destruct (row_get r "document_id") as [v|e]; cbn [bind]; [|discriminate].
  destruct v; try discriminate; cbn [existsb app];
    intros H; apply document_id_set_length in H; cbn [List.length] in H; lia.
Qed.

Section TextQuery.
Context {env : Env}.
Variable ai : Providers.
Implicit Types w : World env.

(** A successful [POST /query] reports as [total_chunks] the number of its
    sources; without sources it is the fixed reply, with zero documents
    searched; with sources, [documents_searched] is at least one and at most
    [total_chunks]. *)
Theorem text_query_counts_documents
    w w' (reply : pg_reply) (body : text_documents.QueryTextRequest)
    (resp : text_documents.QueryTextResponse) :
  text_documents.query_text_documents ai w reply body = (Ok resp, w') ->
  text_documents.text_total_chunks resp
  = Z.of_nat (List.length (text_documents.text_sources resp))
  /\ (text_documents.text_sources resp = [] ->
      resp = text_documents.no_documents)
  /\ (text_documents.text_sources resp <> [] ->
      1 <= text_documents.documents_searched resp
        <= text_documents.text_total_chunks resp).
Proof.
  unfold text_documents.query_text_documents.
  destruct (negb (GROQ_AVAILABLE ai) && negb (GEMINI_AVAILABLE_FOR_USE ai));
    [discriminate|].
  destruct (text_documents._embed_text ai w _) as [[q|x] w1];
    [|destruct x; discriminate].
  destruct (get_db_connection w1 reply) as [[c|x] w2];
    [|destruct x; discriminate].
  destruct (run_fetch w2 c _ _) as [[|r rows]|x];
    [| | destruct x; discriminate].
  - intros [= <- _]. cbn. repeat split; try reflexivity.
    intros Hne. now elim Hne.
  - destruct (mapM text_documents.source_of_row (r :: rows))
      as [sources|x] eqn:M; [|destruct x; discriminate].
    destruct (text_documents._synthesize_answer ai w2 _ sources _)
      as [[a|x] w3]; [|destruct x; discriminate].
    destruct (text_documents.document_id_set (r :: rows) [])
      as [u|x] eqn:U; [|destruct x; discriminate].
    intros [= <- _].
    cbn [text_documents.text_total_chunks text_documents.text_sources
         text_documents.documents_searched].
    apply mapM_length in M. pose proof (document_id_set_first _ _ _ U).
    apply document_id_set_length in U. cbn [List.length] in *.
    split; [reflexivity|]. split.
    + intros ->. discriminate M.
    + intros _. lia.
Qed.

End TextQuery.

(** ** The documents that a query has searched *)

Lemma search_hits_of_chunks db q limit hits :
  search db q limit = Ok hits ->
  forall h, In h hits ->
  exists c, In c (Dict.values (chunks db))
            /\ hit_document_id h = document_id c.
Proof.
  unfold search.
  destruct (mapM (score db q) (chunks db)) as [hs|e] eqn:M; cbn [bind];
    [|discriminate].
  intros [= <-] h Hin.
  apply take_in, sort_by_distance_in in Hin.
  exact (mapM_score_documents db q _ _ M h Hin).
Qed.

Lemma source_of_hits hits :
  mapM text_documents.source_of_row (map row_of_hit hits)
  = Ok (map (fun h =>
               {| text_documents.dict_content := VStr (hit_content h);
                  text_documents.dict_chunk_index := VInt (hit_chunk_index h);
                  text_documents.dict_document_id :=
                    VStr (hit_document_id h) |})
            hits).
Proof.
  induction hits as [|h hits IH]; cbn [map mapM]; [reflexivity|].
  rewrite IH. reflexivity.
Qed.

Lemma existsb_py_eq_strings (id : string) (seen : list string) :
  existsb (text_documents.py_eq (VStr id)) (map VStr seen)
  = existsb (String.eqb id) seen.
Proof.
  induction seen as [|s seen IH]; cbn [map existsb text_documents.py_eq];
    [reflexivity|]. now rewrite IH.
Qed.

Lemma document_id_set_strings hits : forall seen out,
  NoDup seen ->
  text_documents.document_id_set (map row_of_hit hits) (map VStr seen)
  = Ok out ->
  exists ids,
    out = map VStr ids /\ NoDup ids
    /\ forall id, In id ids
                  <-> In id seen \/ In id (map hit_document_id hits).
Proof.
  induction hits as [|h hits IH]; intros seen out Hnd;
    cbn [map text_documents.document_id_set].
  - intros [= <-]. exists seen. repeat split; try assumption;
      cbn [In]; tauto.
  - change (row_get (row_of_hit h) "document_id")
      with (@Ok value (VStr (hit_document_id h))).
    cbn [bind]. rewrite existsb_py_eq_strings.
    destruct (existsb (String.eqb (hit_document_id h)) seen) eqn:E.
    + apply existsb_eqb_in in E. intros H.
      destruct (IH _ _ Hnd H) as (ids & -> & Hids & Hin).
      exists ids. repeat split; try assumption.
      * intros Hi. apply Hin in Hi. cbn [In]. tauto.
      * intros [Hi|[<-|Hi]]; apply Hin; tauto.
    + assert (Hnot : ~ In (hit_document_id h) seen).
      { intros Hi. apply existsb_eqb_in in Hi. congruence. }
      change [VStr (hit_document_id h)] with (map VStr [hit_document_id h]).
      rewrite <- map_app. intros H.
      assert (Hnd' : NoDup (seen ++ [hit_document_id h])).
      { apply NoDup_app; [exact Hnd | repeat constructor; intros [] |].
        intros a Ha [<-|[]]. now apply Hnot. }
      destruct (IH _ _ Hnd' H) as (ids & -> & Hids & Hin).
      exists ids. repeat split; try assumption.
      * intros Hi. apply Hin in Hi. rewrite in_app_iff in Hi.
        cbn [In] in *. tauto.
      * intros Hi. apply Hin. rewrite in_app_iff. cbn [In] in *. tauto.
Qed.

Section TextQueryInMemory.
Context {env : Env}.
Variable ai : Providers.
Implicit Types w : World env.

(** Under the in-memory backend [documents_searched] is the number of
    distinct documents among the sources, and each of them is a stored
    document when every chunk of the store belongs to one. *)
Theorem text_query_counts_distinct_documents
    w w' (reply : pg_reply) (body : text_documents.QueryTextRequest)
    (resp : text_documents.QueryTextResponse) :
  _using_memory_db w = true ->
  MEMORY_DB_AVAILABLE env = true ->
  referential (_memory_db w) ->
  text_documents.query_text_documents ai w reply body = (Ok resp, w') ->
  exists ids,
    documents_of ids (text_documents.text_sources resp)
    /\ text_documents.documents_searched resp = Z.of_nat (List.length ids)
    /\ incl ids (Dict.keys (documents (_memory_db w))).
Proof.
  intros Hflag Hmem Href.
  unfold text_documents.query_text_documents, text_documents._embed_text.
  destruct (negb (GROQ_AVAILABLE ai) && negb (GEMINI_AVAILABLE_FOR_USE ai));
    [discriminate|].
  pose proof (same_selection_embed_text ai w
                (text_documents.text_question body)) as [Ef _].
  pose proof (same_memory_store_embed_text ai w
                (text_documents.text_question body)) as Em.
  destruct (query._embed_text ai w _) as [[q|x] w1]; cbn [snd] in Ef, Em;
    [|destruct x; discriminate].
  red in Em.
  rewrite (get_db_connection_selected w1 reply (eq_trans Ef Hflag) Hmem).
  unfold run_fetch. cbn [has_close negb]. rewrite fetch_search, Em.
  destruct (search (_memory_db w) q _) as [hits|x] eqn:S; cbn [bind];
    [|destruct x; discriminate].
  destruct hits as [|h hits].
  - intros [= <- _]. exists []. cbn. repeat split; try constructor;
      try tauto. intros a [].
  - remember (h :: hits) as hs eqn:Hhs.
    assert (Hrows : exists r rows, map row_of_hit hs = r :: rows)
      by (subst hs; cbn [map]; eauto).
    destruct Hrows as (r & rows & Hrows).
    pose proof (source_of_hits hs) as M.
    pose proof (document_id_set_strings hs [] ) as D.
    rewrite Hrows in *. rewrite M.
    destruct (text_documents._synthesize_answer ai w1 _ _ _)
      as [[a|x] w3]; [|destruct x; discriminate].
    destruct (text_documents.document_id_set (r :: rows) [])
      as [u|x] eqn:U; [|destruct x; discriminate].
    intros [= <- _].
    cbn [text_documents.text_sources text_documents.documents_searched].
    destruct (D u (NoDup_nil _) U) as (ids & -> & Hnd & Hin).
    exists ids. rewrite length_map. split; [|split; [reflexivity|]].
    + split; [exact Hnd|]. intros id. rewrite Hin, map_map.
      cbn [text_documents.dict_document_id In]. rewrite !in_map_iff.
      split.
      * intros [[]|(x & <- & Hx)]. now exists x.
      * intros (x & [= <-] & Hx). right. now exists x.
    + intros id Hid. apply Hin in Hid. destruct Hid as [[]|Hid].
      apply in_map_iff in Hid. destruct Hid as (x & <- & Hx).
      destruct (search_hits_of_chunks _ _ _ _ S x Hx) as (c & Hc & ->).
      destruct (in_dec string_dec (document_id c)
                  (Dict.keys (documents (_memory_db w)))) as [Hk|Hk];
        [exact Hk|].
      apply dict_get_none_keys in Hk. now elim (Href c Hc).
Qed.

End TextQueryInMemory.

(** An instance: a question asked of the sample store, whose two chunks
    belong to one document. *)
Lemma text_query_counts_witness :
  exists resp w',
    text_documents.query_text_documents groq_only two_chunks
      connection_refused sky_question
    = (Ok resp, w')
    /\ List.length (text_documents.text_sources resp) = 2%nat
    /\ 1 <= text_documents.documents_searched resp
         <= text_documents.text_total_chunks resp.
Proof.
  eexists. eexists. split; [vm_compute; reflexivity|].
  split; [reflexivity|].
  refine (proj2 (proj2 (@text_query_counts_documents offline groq_only
                          two_chunks _ connection_refused sky_question _
                          eq_refl)) _).
  discriminate.
Defined.

(** An instance: the same question, whose sources come from the one document
    of the sample store. *)
Lemma text_query_distinct_witness :
  (_using_memory_db two_chunks = true /\ referential (_memory_db two_chunks))
  /\ exists resp w',
       text_documents.query_text_documents groq_only two_chunks
         connection_refused sky_question
       = (Ok resp, w')
       /\ exists ids,
            documents_of ids (text_documents.text_sources resp)
            /\ text_documents.documents_searched resp
               = Z.of_nat (List.length ids)
            /\ incl ids (Dict.keys (documents (_memory_db two_chunks))).
Proof.
  assert (Hok : store_ok (_memory_db two_chunks)).
  { change (_memory_db two_chunks)
      with (stored (_memory_db (@boot offline tt)) sample_uuid4 sample_now
              "doc-1" "notes.txt" (Some "text/plain")
              ["no vector"; "opposite"] [[]; [(-1)%float]]).
    apply stored_ok; [apply store_ok_new | reflexivity | reflexivity |].
    split.
    - repeat constructor; simpl; intuition discriminate.
    - intros i _. reflexivity. }
  split; [split; [reflexivity | exact (proj1 (proj2 Hok))]|].
  eexists. eexists. split; [vm_compute; reflexivity|].
  exact (@text_query_counts_distinct_documents offline groq_only two_chunks _
           connection_refused sky_question _ eq_refl eq_refl
           (proj1 (proj2 Hok)) eq_refl).
Defined.

(** ** Adding documents with Groq and the in-memory backend *)

Lemma chunk_text_default_returns_with fuel text :
  (String.length text <= fuel)%nat ->
  exists chunks,
    ingest._chunk_text fuel text ingest.default_chunk_size
      ingest.default_overlap
    = Some (Ok chunks).
Proof.
  intros Hfuel. unfold ingest._chunk_text.
  destruct (Py.len text <=? ingest.default_chunk_size); [eauto|].
  destruct (chunk_loop_returns text ingest.default_chunk_size
              ingest.default_overlap) with (fuel := fuel)
              (chunks := @nil string) (start := 0) as [out Hout];
    try (unfold ingest.default_overlap, ingest.default_chunk_size; lia);
    [unfold Py.len; lia|].
  rewrite Hout. eauto.
Qed.

Section AddingWithGroq.
Context {env : Env}.
Variable ai : Providers.
Variable http_str : Z -> string -> string.
Hypothesis Hmem : MEMORY_DB_AVAILABLE env = true.
Hypothesis Hgroq : GROQ_AVAILABLE ai = true.
Implicit Types w : World env.

Lemma embed_texts_with_groq w texts :
  exists embeddings w',
    ingest._embed_texts ai w texts = (Ok embeddings, w').
Proof.
  unfold ingest._embed_texts. rewrite Hgroq.
  destruct (GEMINI_AVAILABLE_FOR_USE ai); [|eauto].
  destruct (ingest.gemini_embed_all ai w texts) as [[es|x] w1]; eauto.
Qed.

Lemma add_loop_with_groq fuel replies uuid4 now docs :
  Forall (fun doc =>
            (String.length (text_documents.text_content doc) <= fuel)%nat)
         docs ->
  forall w j acc total,
    _using_memory_db w = true ->
    exists rs t w',
      text_documents.add_loop ai fuel w replies uuid4 now j docs acc total
      = Some (Ok (rs, t), w').
Proof.
  induction 1 as [|doc docs Hdoc _ IH]; intros w j acc total Hflag;
    cbn [text_documents.add_loop]; [eauto|].
  destruct (chunk_text_default_returns_with _ _ Hdoc) as [cs ->].
  pose proof (embed_texts_keeps_state ai w cs) as [Kf _].
  destruct (embed_texts_with_groq w cs) as (es & w1 & E).
  rewrite E in *. cbn [snd] in Kf.
  pose proof (embed_texts_length _ _ _ _ _ E) as Hlen. symmetry in Hlen.
  rewrite (store_in_db_selected Hmem) by (try assumption; congruence).
  apply IH. cbn [set_memory_db _using_memory_db]. congruence.
Qed.

(** With Groq configured and the in-memory backend selected, [POST /add]
    of a list that is not empty succeeds: every chunker returns (within as
    many passes as its text has characters), the embedding falls back on
    Groq, and the store takes the rows. *)
Theorem add_succeeds_with_groq_in_memory
    (fuel : nat) w (replies : nat -> pg_reply) (uuid4 : nat -> nat -> string)
    (now : nat -> nat -> Z) (docs : list text_documents.TextDocument) :
  _using_memory_db w = true ->
  docs <> [] ->
  Forall (fun doc =>
            (String.length (text_documents.text_content doc) <= fuel)%nat)
         docs ->
  exists resp w',
    text_documents.add_text_documents ai http_str fuel w replies uuid4 now
      docs
    = Some (Ok resp, w').
Proof.
  intros Hflag Hdocs Hfuel. unfold text_documents.add_text_documents.
  rewrite Hgroq. cbn [negb andb].
  destruct docs as [|doc docs]; [contradiction|].
  destruct (add_loop_with_groq fuel replies uuid4 now _ Hfuel w O [] 0 Hflag)
    as (rs & t & w' & ->).
  eauto.
Qed.

End AddingWithGroq.

(** An instance: the two notes added with Groq alone. *)
Lemma add_succeeds_witness :
  exists resp w',
    text_documents.add_text_documents groq_only sample_http_str 8 in_memory
      (fun _ => connection_refused) sample_uuid4s sample_nows
      [first_note; second_note]
    = Some (Ok resp, w').
Proof.
  apply (@add_succeeds_with_groq_in_memory offline groq_only sample_http_str
           eq_refl eq_refl 8 in_memory (fun _ => connection_refused)
           sample_uuid4s sample_nows [first_note; second_note]).
  - reflexivity.
  - discriminate.
  - repeat constructor.
Defined.

(** ** The two ways of asking *)

Lemma ask_source_of_hits hits :
  mapM query.source_of_row (map row_of_hit hits)
  = Ok (map (fun h =>
               {| query.source_content := hit_content h;
                  query.source_chunk_index := hit_chunk_index h;
                  query.source_document_id := hit_document_id h |})
            hits).
Proof.
  induction hits as [|h hits IH]; cbn [map mapM]; [reflexivity|].
  rewrite IH. reflexivity.
Qed.

Lemma document_id_set_returns hits : forall seen,
  exists out,
    text_documents.document_id_set (map row_of_hit hits) (map VStr seen)
    = Ok out.
Proof.
  induction hits as [|h hits IH]; intros seen;
    cbn [map text_documents.document_id_set]; [eauto|].
  change (row_get (row_of_hit h) "document_id")
    with (@Ok value (VStr (hit_document_id h))).
  cbn [bind]. destruct (existsb _ (map VStr seen)); [apply IH|].
  change [VStr (hit_document_id h)] with (map VStr [hit_document_id h]).
  rewrite <- map_app. apply IH.
Qed.

Section TwoWaysOfAsking.
Context {env : Env}.
Variable ai : Providers.
Implicit Types w : World env.

Lemma synthesize_answer_agrees w question (sources : list query.Source)
    max_tokens :
  text_documents._synthesize_answer ai w question (map as_dict sources)
    max_tokens
  = query._synthesize_answer ai w question sources max_tokens.
Proof.
  unfold text_documents._synthesize_answer, query._synthesize_answer.
  assert (M : mapM (fun s => as_str (text_documents.dict_content s))
                (map as_dict sources)
              = Ok (map query.source_content sources)).
  { induction sources as [|s sources IH]; cbn [map mapM]; [reflexivity|].
    rewrite IH. reflexivity. }
  rewrite M. reflexivity.
Qed.

(** Under the in-memory backend, with an AI service configured, [POST /query]
    answers as [POST /ask] does for the same question: the same failure, or
    the same sources, count and (when there are sources) answer, after the
    same calls of the services. *)
Theorem text_query_agrees_with_ask
    w (reply : pg_reply) (body : text_documents.QueryTextRequest) :
  _using_memory_db w = true ->
  MEMORY_DB_AVAILABLE env = true ->
  GROQ_AVAILABLE ai || GEMINI_AVAILABLE_FOR_USE ai = true ->
  (forall r' w',
     query.query_ask ai w reply (as_ask body) = (Ok r', w') ->
     exists r,
       text_documents.query_text_documents ai w reply body = (Ok r, w')
       /\ text_documents.text_sources r = map as_dict (query.sources r')
       /\ text_documents.text_total_chunks r
          = query.response_total_chunks r'
       /\ (query.sources r' <> [] ->
           text_documents.text_answer r = query.answer r'))
  /\ (forall e w',
        query.query_ask ai w reply (as_ask body) = (Raise e, w') ->
        text_documents.query_text_documents ai w reply body = (Raise e, w')).
Proof.
  intros Hflag Hmem Hai.
  unfold text_documents.query_text_documents, text_documents._embed_text,
    query.query_ask.
  replace (negb (GROQ_AVAILABLE ai) && negb (GEMINI_AVAILABLE_FOR_USE ai))
    with false
    by (destruct (GROQ_AVAILABLE ai), (GEMINI_AVAILABLE_FOR_USE ai);
        try discriminate Hai; reflexivity).
  cbn [as_ask query.question query.max_chunks query.max_tokens].
  pose proof (same_selection_embed_text ai w
                (text_documents.text_question body)) as [Ef _].
  destruct (query._embed_text ai w _) as [[q|x] w1]; cbn [snd] in Ef;
    [|split; [intros r' w'; destruct x; discriminate
            | intros e w'; destruct x; cbn [query.ask_errors];
              intros [= <- <-]; reflexivity]].
  rewrite (get_db_connection_selected w1 reply (eq_trans Ef Hflag) Hmem).
  unfold run_fetch. cbn [has_close negb]. rewrite fetch_search.
  destruct (search (_memory_db w1) q _) as [hits|x]; cbn [bind];
    [|split; [intros r' w'; destruct x; discriminate
            | intros e w'; destruct x; cbn [query.ask_errors];
              intros [= <- <-]; reflexivity]].
  destruct hits as [|h hits]; cbn [map].
  - split; [|discriminate]. intros r' w' [= <- <-].
    exists text_documents.no_documents. cbn. repeat split. intros Hne.
    now elim Hne.
  - pose proof (ask_source_of_hits (h :: hits)) as A.
    pose proof (source_of_hits (h :: hits)) as T.
    destruct (document_id_set_returns (h :: hits) []) as [u U].
    cbn [map] in A, T, U. rewrite A, T, U.
    match goal with
    | |- context [query._synthesize_answer ai w1 ?question ?sources ?k] =>
        pose proof (synthesize_answer_agrees w1 question sources k) as S;
        cbn [map] in S; rewrite map_map in S; unfold as_dict in S;
        cbn [query.source_content query.source_chunk_index
             query.source_document_id] in S
    end.
    rewrite S.
    destruct (query._synthesize_answer ai w1 _ _ _) as [[a|x] w3];
      [|split; [intros r' w'; destruct x; discriminate
            | intros e w'; destruct x; cbn [query.ask_errors];
              intros [= <- <-]; reflexivity]].
    split; [|discriminate]. intros r' w' [= <- <-].
    eexists. split; [reflexivity|].
    cbn [text_documents.text_sources text_documents.text_total_chunks
         text_documents.text_answer query.sources query.answer
         query.response_total_chunks map as_dict query.source_content
         query.source_chunk_index query.source_document_id List.length].
    rewrite !map_map, !length_map. unfold as_dict.
    cbn [query.source_content query.source_chunk_index
         query.source_document_id].
    repeat split.
Qed.

End TwoWaysOfAsking.

(** An instance: the sample question asked of the sample store in both
    ways. *)
Lemma text_query_agrees_witness :
  exists r' r w',
    query.query_ask groq_only two_chunks connection_refused
      (as_ask sky_question)
    = (Ok r', w')
    /\ text_documents.query_text_documents groq_only two_chunks
         connection_refused sky_question
       = (Ok r, w')
    /\ text_documents.text_sources r = map as_dict (query.sources r')
    /\ text_documents.text_total_chunks r = query.response_total_chunks r'.
Proof.
  destruct (@text_query_agrees_with_ask offline groq_only two_chunks
              connection_refused sky_question eq_refl eq_refl eq_refl)
    as [A _].
  destruct (query.query_ask groq_only two_chunks connection_refused
              (as_ask sky_question)) as [[r'|e] w'] eqn:E;
    [|vm_compute in E; discriminate E].
  destruct (A r' w' eq_refl) as (r & Hr & Hs & Ht & _).
  exists r', r, w'. repeat split; assumption.
Defined.

(** ** The validation of the store step *)

Section StoreValidation.
Context {env : Env}.
Variable ai : Providers.
Implicit Types w : World env.

(** C6, as amended.  When the numbers of chunks and of embeddings differ, the
    store step raises [ValueError] before anything else happens: no
    connection is asked for and the whole state, store included, is as
    before.  When PostgreSQL does not serve the call this is the only
    [ValueError] of the store step.  [ingest_upload] answers a [ValueError]
    of its store step with 400 and the error's message; it passes one
    embedding per chunk, so that such an error is not the mismatch. *)
Theorem store_rejects_mismatch_before_writing
    w (reply : pg_reply) (uuid4 : nat -> string) (now : nat -> Z)
    (id name : string) (mime : option string) (cs : list string)
    (es : list (list float)) :
  (List.length cs <> List.length es ->
   ingest._store_in_db w reply uuid4 now id name mime cs es
   = (Raise (ValueError "Chunks and embeddings length mismatch"), w))
  /\ (fst (get_db_connection w reply) <> Ok PgConn ->
      forall msg,
        fst (ingest._store_in_db w reply uuid4 now id name mime cs es)
        = Raise (ValueError msg) ->
        List.length cs <> List.length es)
  /\ (forall (fuel : nat) w0 w' (body : ingest.UploadDocRequest)
             (text msg : string),
        ingest._parse_document ai (ingest.req_filename body)
          (ingest.req_mime_type body) (ingest.req_file_b64 body)
          (ingest.req_text body)
        = Ok text ->
        ingest._chunk_text fuel text ingest.default_chunk_size
          ingest.default_overlap
        = Some (Ok cs) ->
        ingest._embed_texts ai w0 cs = (Ok es, w) ->
        ingest._store_in_db w reply (fun idx => uuid4 (S idx)) now (uuid4 O)
          (ingest.req_filename body) (ingest.req_mime_type body) cs es
        = (Raise (ValueError msg), w') ->
        ingest.ingest_upload ai fuel w0 reply uuid4 now body
        = Some (Raise (HTTPException 400 msg), w')
        /\ List.length cs = List.length es).
Proof.
  split; [|split].
  - intros H. unfold ingest._store_in_db.
    apply Nat.eqb_neq in H. now rewrite H.
  - intros Hmem msg Hraise Hlen.
    destruct (get_db_connection w reply) as [[c|e] w'] eqn:Hc.
    + destruct c; [now apply Hmem|].
      rewrite (store_in_db_memory w w' reply _ _ _ _ _ _ _ Hc Hlen)
        in Hraise.
      discriminate Hraise.
    + destruct (get_db_connection_raises _ _ _ _ Hc) as [m ->].
      unfold ingest._store_in_db in Hraise.
      apply Nat.eqb_eq in Hlen. rewrite Hlen, Hc in Hraise.
      discriminate Hraise.
  - intros fuel w0 w' body text msg Hparse Hchunk Hembed Hstore.
    split.
    + unfold ingest.ingest_upload. now rewrite Hparse, Hchunk, Hembed, Hstore.
    + symmetry. exact (embed_texts_length _ _ _ _ _ Hembed).
Qed.

End StoreValidation.

(** An instance: one chunk and no embedding sent to the store step, and an
    upload whose chunk the driver refuses. *)
Lemma store_rejects_mismatch_witness :
  ingest._store_in_db (@boot offline tt) connection_refused sample_uuid4
    sample_now "doc-1" "notes.txt" None ["only chunk"] []
  = (Raise (ValueError "Chunks and embeddings length mismatch"),
     @boot offline tt)
  /\ List.length ["only chunk"] <> @List.length (list float) []
  /\ option_map fst
       (ingest.ingest_upload groq_only 16 (@boot strict_driver []) Connected
          sample_uuid4 sample_now sky_upload)
     = Some (Raise (HTTPException 400 "invalid input for query argument $5")).
Proof.
  destruct (@store_rejects_mismatch_before_writing offline groq_only
              (@boot offline tt) connection_refused sample_uuid4 sample_now
              "doc-1" "notes.txt" None ["only chunk"] []) as (A & B & _).
  split; [apply A; simpl; discriminate|].
  split.
  - apply (B ltac:(simpl; discriminate)
             "Chunks and embeddings length mismatch").
    rewrite A by (simpl; discriminate). reflexivity.
  - destruct (@store_rejects_mismatch_before_writing strict_driver groq_only
                (@boot strict_driver []) Connected sample_uuid4 sample_now
                "doc-1" "notes.txt" None ["The sky is blue."]
                [[1%float; 0%float]]) as (_ & _ & C).
    destruct (C 16%nat (@boot strict_driver []) _ sky_upload
                "The sky is blue." "invalid input for query argument $5"
                eq_refl eq_refl eq_refl eq_refl) as [U _].
    rewrite U. reflexivity.
Defined.

(** C6, as stated, fails on PostgreSQL: the numbers of chunks and embeddings
    agree, and the store step still raises a [ValueError], the driver's,
    which [ingest_upload] answers with 400. *)
Lemma driver_value_error_with_matching_counts :
  List.length ["The sky is blue."] = List.length [[1%float; 0%float]]
  /\ fst (ingest._store_in_db (@boot strict_driver []) Connected
            (fun idx => sample_uuid4 (S idx)) sample_now (sample_uuid4 O)
            "notes.txt" (Some "text/plain") ["The sky is blue."]
            [[1%float; 0%float]])
     = Raise (ValueError "invalid input for query argument $5")
  /\ option_map fst
       (ingest.ingest_upload groq_only 16 (@boot strict_driver []) Connected
          sample_uuid4 sample_now sky_upload)
     = Some (Raise (HTTPException 400 "invalid input for query argument $5")).
Proof. repeat split; vm_compute; reflexivity. Qed.

(** ** Deleting a document *)

Section Deletion.
Context {env : Env}.
Variable ai : Providers.
Implicit Types w : World env.

Lemma get_db_connection_memory w reply w' :
  get_db_connection w reply = (Ok MemConn, w') ->
  _using_memory_db w' = true /\ MEMORY_DB_AVAILABLE env = true.
Proof.
  unfold get_db_connection.
  destruct (_using_memory_db w) eqn:F; cbn [negb andb].
  - destruct (MEMORY_DB_AVAILABLE env) eqn:M; [|discriminate].
    intros [= <-]. now split.
  - destruct reply; [discriminate|].
    destruct (MEMORY_DB_AVAILABLE env) eqn:M; [|discriminate].
    intros [= <-]. now split.
Qed.

(** A call that the in-memory database does not serve finds the flag unset
    and leaves the in-memory store alone. *)
Lemma get_db_connection_elsewhere w reply r w' :
  flag_sound w ->
  get_db_connection w reply = (r, w') -> r <> Ok MemConn ->
  _using_memory_db w = false /\ _memory_db w' = _memory_db w.
Proof.
  intros Hs Hc Hr. split.
  - destruct (_using_memory_db w) eqn:F; [|reflexivity].
    rewrite (get_db_connection_selected w reply F (Hs F)) in Hc.
    injection Hc as <- _. now elim Hr.
  - pose proof (get_db_connection_memory_db w reply) as M.
    now rewrite Hc in M.
Qed.

Lemma run_statements_durable w now stmts :
  _memory_db (snd (ingest.run_statements w PgConn now stmts)) = _memory_db w.
Proof.
  unfold ingest.run_statements. cbn [has_close negb].
  now destruct (pg_transaction (durable w) stmts).
Qed.

(** The deletion, by what answers the connection request. *)
Lemma delete_document_served w reply now id :
  flag_sound w ->
  (exists w', get_db_connection w reply = (Ok MemConn, w')
              /\ ingest.delete_document w reply now id
                 = (Ok ("Document " ++ id ++ " deleted successfully"),
                    set_memory_db (drop_document (_memory_db w) id) w'))
  \/ (_using_memory_db w = false
      /\ _memory_db (snd (ingest.delete_document w reply now id))
         = _memory_db w).
Proof.
  intros Hs.
  destruct (get_db_connection w reply) as [[[|]|e] w'] eqn:C.
  - right.
    destruct (get_db_connection_elsewhere w reply _ _ Hs C) as [F M];
      [discriminate|].
    split; [exact F|]. unfold ingest.delete_document. rewrite C.
    pose proof (run_statements_durable w' now
                  [(ingest.delete_chunks_sql, [VStr id]);
                   (ingest.delete_document_sql, [VStr id])]) as R.
    destruct (ingest.run_statements w' PgConn now _) as [[[]|x] w''];
      cbn [snd] in *; congruence.
  - left. exists w'. split; [reflexivity|].
    now apply delete_document_memory.
  - right.
    destruct (get_db_connection_elsewhere w reply _ _ Hs C) as [F M];
      [discriminate|].
    split; [exact F|]. unfold ingest.delete_document. now rewrite C.
Qed.

(** What a request does to the in-memory store: nothing, or, served by the
    in-memory database, its store step or its deletion. *)
Lemma serve_memory_db w r :
  _memory_db (serve ai w r) = _memory_db w
  \/ (_using_memory_db (serve ai w r) = true
      /\ exists op, request_op (fst r) = Some op
                    /\ _memory_db (serve ai w r)
                       = apply_op (_memory_db w) op).
Proof.
  destruct r as [[| | |uuid4 now id name mime cs es|now id|body|] reply];
    unfold serve; cbn [fst snd request_op].
  - left. apply get_db_connection_memory_db.
  - left. unfold get_db_pool.
    destruct (_using_memory_db w); cbn [negb]; [reflexivity|].
    destruct reply; [reflexivity|].
    destruct (MEMORY_DB_AVAILABLE env); reflexivity.
  - left. unfold init_database.
    destruct (_using_memory_db w); cbn [negb]; [reflexivity|].
    destruct reply; [|destruct (MEMORY_DB_AVAILABLE env); reflexivity].
    cbv zeta.
    destruct (pg_run (durable (emit EvPgConnect w)) _) as [d [[]|x]].
    + destruct (pg_execute env d _ _); reflexivity.
    + destruct (MEMORY_DB_AVAILABLE env); reflexivity.
  - pose proof (get_db_connection_memory_db w reply) as M.
    destruct (Nat.eqb (List.length cs) (List.length es)) eqn:L.
    + destruct (get_db_connection w reply) as [[[|]|e] w'] eqn:C;
        cbn [snd] in M.
      * left. unfold ingest._store_in_db. rewrite L, C. cbn [negb].
        now rewrite run_statements_durable.
      * right. apply Nat.eqb_eq in L.
        rewrite (store_in_db_memory w w' reply _ _ _ _ _ _ _ C L).
        cbn [snd set_memory_db _using_memory_db _memory_db].
        split; [exact (proj1 (get_db_connection_memory _ _ _ C))|].
        eexists. split; reflexivity.
      * left. unfold ingest._store_in_db. rewrite L, C. exact M.
    + left. unfold ingest._store_in_db. now rewrite L.
  - pose proof (get_db_connection_memory_db w reply) as M.
    destruct (get_db_connection w reply) as [[[|]|e] w'] eqn:C;
      cbn [snd] in M.
    + left. unfold ingest.delete_document. rewrite C.
      pose proof (run_statements_durable w' now
                    [(ingest.delete_chunks_sql, [VStr id]);
                     (ingest.delete_document_sql, [VStr id])]) as R.
      destruct (ingest.run_statements w' PgConn now _) as [[[]|x] w''];
        cbn [snd] in *; congruence.
    + right. rewrite (delete_document_memory w w' reply now id C).
      cbn [snd set_memory_db _using_memory_db _memory_db].
      split; [exact (proj1 (get_db_connection_memory _ _ _ C))|].
      eexists. split; reflexivity.
    + left. unfold ingest.delete_document. rewrite C. exact M.
  - left. apply (same_memory_store_query_ask ai).
  - left. apply same_memory_store_list_documents.
Qed.

Lemma boot_well_started (d : pg_db env) : well_started (boot d).
Proof.
  repeat split.
  - intros H. discriminate H.
  - intros c [].
Qed.

Lemma serve_well_started w r : well_started w -> well_started (serve ai w r).
Proof.
  intros (Hs & Hg & Href). split; [|split].
  - now apply serve_sound.
  - intros Hf. destruct (serve_memory_db w r) as [E|[Ht _]]; [|congruence].
    rewrite E. apply Hg.
    destruct (_using_memory_db w) eqn:F; [|reflexivity].
    destruct (serve_selected ai w r F (Hs F)) as [S _]. congruence.
  - destruct (serve_memory_db w r) as [E|(_ & op & _ & E)]; rewrite E.
    + exact Href.
    + destruct op; [now apply stored_referential
                   | now apply drop_document_referential].
Qed.

Lemma serve_all_well_started rs : forall w,
  well_started w -> well_started (serve_all ai w rs).
Proof.
  induction rs as [|r rs IH]; intros w H; [exact H|].
  apply IH, serve_well_started, H.
Qed.

Lemma serve_absent id w r :
  spares_request id r -> absent id (_memory_db w) ->
  absent id (_memory_db (serve ai w r)).
Proof.
  intros Hr Habs.
  destruct (serve_memory_db w r) as [E|(_ & op & Hop & E)]; rewrite E;
    [exact Habs|].
  apply apply_op_absent; [|exact Habs].
  unfold spares_request in Hr.
  destruct (fst r); cbn [request_op] in Hop; try discriminate Hop;
    injection Hop as <-; cbn [spares]; [exact Hr | exact I].
Qed.

Lemma serve_all_absent id rs : forall w,
  Forall (spares_request id) rs -> absent id (_memory_db w) ->
  absent id (_memory_db (serve_all ai w rs)).
Proof.
  induction rs as [|r rs IH]; intros w Hs Habs; [exact Habs|].
  inversion Hs; subst. apply IH; [assumption | now apply serve_absent].
Qed.

(** The sources of an answer given from memory are the hits of a search of
    the in-memory store. *)
Lemma query_ask_from_memory w w' reply body resp :
  _using_memory_db w = true -> MEMORY_DB_AVAILABLE env = true ->
  query.query_ask ai w reply body = (Ok resp, w') ->
  exists q hits,
    search (_memory_db w) q (query.max_chunks body) = Ok hits
    /\ map query.source_document_id (query.sources resp)
       = map hit_document_id hits.
Proof.
  intros Hflag Hmem. unfold query.query_ask.
  pose proof (same_selection_embed_text ai w (query.question body))
    as [Ef _].
  pose proof (same_memory_store_embed_text ai w (query.question body)) as Em.
  destruct (query._embed_text ai w _) as [[q|x] w1]; cbn [snd] in Ef, Em;
    [|destruct x; discriminate].
  red in Em.
  rewrite (get_db_connection_selected w1 reply (eq_trans Ef Hflag) Hmem).
  unfold run_fetch. cbn [has_close negb]. rewrite fetch_search, Em.
  destruct (search (_memory_db w) q _) as [hits|x] eqn:S; cbn [bind];
    [|destruct x; discriminate].
  destruct hits as [|h hits].
  - intros [= <- _]. exists q, []. split; [exact S | reflexivity].
  - pose proof (ask_source_of_hits (h :: hits)) as A.
    cbn [map] in A |- *. rewrite A.
    destruct (query._synthesize_answer ai w1 _ _ _) as [[a|x] w3];
      [|destruct x; discriminate].
    intros [= <- _]. exists q, (h :: hits). split; [exact S|].
    cbn [query.sources map query.source_document_id]. f_equal.
    now rewrite map_map.
Qed.

(** C7.  In every execution from process start, after [delete_document] the
    in-memory store holds neither the document's row nor a chunk of the
    document; the call succeeds when the in-memory database serves it; when
    the store holds no row of the document, and so also at a second deletion,
    the store is left as it was; and through any later requests short of a
    store step for that document, no search of the store and no answer given
    from it returns a chunk of the document.  When PostgreSQL serves the
    call, the two deletions are run in one transaction: both of them, or
    neither with the driver's error passed on. *)
Theorem delete_document_removes_everything
    (d : pg_db env) (before : list (request * pg_reply)) (reply : pg_reply)
    (now : nat -> Z) (id : string) (w after : World env) :
  w = serve_all ai (boot d) before ->
  after = snd (ingest.delete_document w reply now id) ->
  Dict.get id (documents (_memory_db after)) = None
  /\ chunks_of id (_memory_db after) = []
  /\ (fst (get_db_connection w reply) = Ok MemConn ->
      fst (ingest.delete_document w reply now id)
      = Ok ("Document " ++ id ++ " deleted successfully"))
  /\ (Dict.get id (documents (_memory_db w)) = None ->
      _memory_db after = _memory_db w)
  /\ (forall reply' now',
        _memory_db (snd (ingest.delete_document after reply' now' id))
        = _memory_db after)
  /\ (forall later q limit hits,
        Forall (spares_request id) later ->
        search (_memory_db (serve_all ai after later)) q limit = Ok hits ->
        Forall (fun h => hit_document_id h <> id) hits)
  /\ (forall later reply' body resp w',
        Forall (spares_request id) later ->
        _using_memory_db (serve_all ai after later) = true ->
        query.query_ask ai (serve_all ai after later) reply' body
        = (Ok resp, w') ->
        Forall (fun s => query.source_document_id s <> id)
          (query.sources resp))
  /\ (fst (get_db_connection w reply) = Ok PgConn ->
      forall d' r,
        pg_run (durable w)
          [(ingest.delete_chunks_sql, [VStr id]);
           (ingest.delete_document_sql, [VStr id])]
        = (d', r) ->
        match r with
        | Ok _ =>
            durable after = d'
            /\ fst (ingest.delete_document w reply now id)
               = Ok ("Document " ++ id ++ " deleted successfully")
        | Raise e =>
            durable after = durable w
            /\ fst (ingest.delete_document w reply now id) = Raise e
        end).
Proof.
  intros Hw Hafter.
  assert (Hinv : well_started w)
    by (subst w; apply serve_all_well_started, boot_well_started).
  assert (Hserve : after = serve ai w (DeleteDocument now id, reply))
    by exact Hafter.
  assert (Hinv' : well_started after)
    by (rewrite Hserve; now apply serve_well_started).
  destruct Hinv as (Hs & Hg & Href).
  assert (Hnoop : forall (v : World env) reply' now',
            well_started v ->
            Dict.get id (documents (_memory_db v)) = None ->
            _memory_db (snd (ingest.delete_document v reply' now' id))
            = _memory_db v).
  { intros v reply' now' (Hvs & _ & Hvr) Hnone.
    destruct (delete_document_served v reply' now' id Hvs)
      as [(v' & _ & ->)|[_ E]]; [|exact E].
    cbn [snd set_memory_db _memory_db].
    apply drop_document_noop; [|exact Hnone].
    now apply referential_absent. }
  assert (Hgone : Dict.get id (documents (_memory_db after)) = None
                  /\ absent id (_memory_db after)).
  { rewrite Hafter.
    destruct (delete_document_served w reply now id Hs)
      as [(w' & _ & ->)|[F ->]].
    - cbn [snd set_memory_db _memory_db]. split.
      + rewrite drop_document_documents. apply dict_get_del_eq.
      + apply drop_document_absent.
    - rewrite (Hg F). split; [reflexivity | intros c []]. }
  destruct Hgone as [Hrow Habs].
  split; [exact Hrow|].
  split; [now apply chunks_of_absent|].
  split.
  { intros Hc.
    destruct (get_db_connection w reply) as [[c|e] w'] eqn:C;
      cbn [fst] in Hc; [|discriminate].
    injection Hc as ->.
    now rewrite (delete_document_memory w w' reply now id C). }
  split.
  { intros Hnone. rewrite Hafter.
    apply Hnoop; [now repeat split | exact Hnone]. }
  split; [intros reply' now'; now apply Hnoop|].
  split.
  { intros later q limit hits Hl Hsearch.
    eapply search_absent; [|exact Hsearch].
    now apply serve_all_absent. }
  split.
  { intros later reply' body resp w' Hl Hflag Hask.
    destruct (serve_all_well_started later after Hinv') as (Hls & _ & _).
    destruct (query_ask_from_memory _ _ _ _ _ Hflag (Hls Hflag) Hask)
      as (q & hits & Hsearch & Hids).
    assert (Hhits : Forall (fun h => hit_document_id h <> id) hits).
    { eapply search_absent; [|exact Hsearch]. now apply serve_all_absent. }
    rewrite Forall_forall in *. intros s Hin.
    apply (in_map query.source_document_id) in Hin.
    rewrite Hids in Hin. apply in_map_iff in Hin.
    destruct Hin as (h & <- & Hh). now apply Hhits. }
  intros Hc d' r Hrun. rewrite Hafter.
  destruct (get_db_connection w reply) as [[c|e] w'] eqn:C;
    cbn [fst] in Hc; [|discriminate].
  injection Hc as ->.
  assert (Hd : durable w' = durable w).
  { revert C. unfold get_db_connection.
    destruct (_using_memory_db w); cbn [negb andb].
    - destruct (MEMORY_DB_AVAILABLE env); discriminate.
    - destruct reply; [now intros [= <-]|].
      destruct (MEMORY_DB_AVAILABLE env); discriminate. }
  unfold ingest.delete_document. rewrite C.
  unfold ingest.run_statements. cbn [has_close negb].
  unfold pg_transaction. rewrite Hd, Hrun.
  destruct r as [[]|e]; cbn [fst snd set_durable durable]; now split.
Qed.

End Deletion.

(** An instance: the sample document, stored at first, is deleted; a document
    that was never stored is deleted; and the store is searched after another
    document has been stored. *)
Lemma delete_document_witness :
  Dict.mem "doc-1" (documents (_memory_db two_chunks)) = true
  /\ Dict.get "doc-1"
       (documents
          (_memory_db
             (snd (ingest.delete_document two_chunks connection_refused
                     sample_now "doc-1")))) = None
  /\ chunks_of "doc-1"
       (_memory_db
          (snd (ingest.delete_document two_chunks connection_refused
                  sample_now "doc-1"))) = []
  /\ fst (ingest.delete_document two_chunks connection_refused sample_now
            "doc-1")
     = Ok "Document doc-1 deleted successfully"
  /\ _memory_db
       (snd (ingest.delete_document two_chunks connection_refused sample_now
               "ghost"))
     = _memory_db two_chunks
  /\ Forall (fun h => hit_document_id h <> "doc-1")
       [ {| hit_content := "third"; hit_chunk_index := 0;
            hit_document_id := "doc-2"; distance := 1 |} ].
Proof.
  destruct (@delete_document_removes_everything offline groq_only tt
              [(StoreInDb sample_uuid4 sample_now "doc-1" "notes.txt"
                  (Some "text/plain") ["no vector"; "opposite"]
                  [[]; [(-1)%float]],
                connection_refused)]
              connection_refused sample_now "doc-1" two_chunks _
              eq_refl eq_refl)
    as (A & B & C & _ & _ & F & _).
  destruct (@delete_document_removes_everything offline groq_only tt
              [(StoreInDb sample_uuid4 sample_now "doc-1" "notes.txt"
                  (Some "text/plain") ["no vector"; "opposite"]
                  [[]; [(-1)%float]],
                connection_refused)]
              connection_refused sample_now "ghost" two_chunks _
              eq_refl eq_refl)
    as (_ & _ & _ & D & _).
  split; [reflexivity|].
  split; [exact A|]. split; [exact B|].
  split; [exact (C eq_refl)|].
  split; [exact (D eq_refl)|].
  apply (F [(StoreInDb later_uuid4 sample_now "doc-2" "more.txt" None
               ["third"] [[1%float; 1%float]],
             connection_refused)]
           [1%float] 5).
  - repeat constructor. cbn. discriminate.
  - vm_compute. reflexivity.
Defined.
